(** * deeperwin: the job dispatch layer ([src/deeperwin/dispatch.py])

    A shallow embedding of the dispatch module and of the fragments of the
    Python runtime it calls (str methods, [re.search], [float]/[int],
    [os.path], [os.walk], [os.makedirs], [shutil.rmtree], [copy.deepcopy]),
    followed by the properties of the module.

    Conventions.
    - A Python [str] is a [string]: the sequence of bytes of its UTF-8
      encoding.  Every character the module tests or produces is ASCII;
      [str.lower] is modelled on ASCII letters only, and the properties
      that depend on it are stated for ASCII text.
    - A path is given by the components of its normalised absolute text;
      where the module looks at the text itself ([os.path.split],
      [Path.resolve]) the model says how the text is written.
    - A Python exception is a value of [exn]; a call that may raise returns
      a [result].
    - A float is an IEEE-754 binary64 number, as [spec_float] with
      [prec = 53] and [emax = 1024]. *)

From Stdlib Require Import ZArith String Ascii List Bool Lia SpecFloat.
From stdpp Require Import base option list strings gmap pretty.

Local Open Scope string_scope.
Local Open Scope Z_scope.
Local Open Scope list_scope.

(* ===================================================================== *)
(** * Part I: definitions                                                  *)
(* ===================================================================== *)

(** ** Exceptions and results *)

Inductive exn : Type :=
| ValueError (msg : string)
| OverflowError (msg : string)
| FileExistsError (msg : string)
| FileNotFoundError (msg : string)
| NotADirectoryError (msg : string)
| IsADirectoryError (msg : string)
| OSError (msg : string)
| KeyError (key : string)
| UnicodeDecodeError (encoding : string).

Inductive result (A : Type) : Type :=
| Ok (a : A)
| Raise (e : exn).
Arguments Ok {A} a.
Arguments Raise {A} e.

Definition rbind {A B} (r : result A) (k : A -> result B) : result B :=
  match r with
  | Ok a => k a
  | Raise e => Raise e
  end.

Notation "'let!' x ':=' r 'in' k" := (rbind r (fun x => k))
  (at level 10, x name, r at level 100, k at level 200).

(** ** Strings: the [str] methods the module uses *)

Module Str.

Definition is_digit (a : ascii) : bool :=
  (48 <=? nat_of_ascii a)%nat && (nat_of_ascii a <=? 57)%nat.

Definition is_upper (a : ascii) : bool :=
  (65 <=? nat_of_ascii a)%nat && (nat_of_ascii a <=? 90)%nat.

Definition lower_ascii (a : ascii) : ascii :=
  if is_upper a then ascii_of_nat (nat_of_ascii a + 32) else a.

(** [s.lower()] on ASCII text: the letters [A] to [Z] are mapped, every
    other byte is kept.  (On other text [str.lower] also maps the letters
    outside ASCII, the Kelvin sign to [k] for one.) *)
Fixpoint lower (s : string) : string :=
  match s with
  | EmptyString => EmptyString
  | String a s' => String (lower_ascii a) (lower s')
  end.

(** [s.startswith(p)] *)
Fixpoint startswith (p s : string) : bool :=
  match p, s with
  | EmptyString, _ => true
  | String a p', String b s' => Ascii.eqb a b && startswith p' s'
  | String _ _, EmptyString => false
  end.

(** [sub in s] *)
Fixpoint contains (sub s : string) : bool :=
  startswith sub s ||
  match s with
  | EmptyString => false
  | String _ s' => contains sub s'
  end.

(** [x in [a, b, ...]] for strings *)
Definition mem (x : string) (l : list string) : bool :=
  existsb (String.eqb x) l.

(** [sep.join(l)] *)
Fixpoint join (sep : string) (l : list string) : string :=
  match l with
  | [] => ""
  | [x] => x
  | x :: l' => x +:+ sep +:+ join sep l'
  end.

(** The substring relation behind [contains]. *)
Definition infix (sub s : string) : Prop :=
  exists pre post, s = pre +:+ sub +:+ post.

(** Every character of [s] satisfies [c]. *)
Fixpoint all (c : ascii -> bool) (s : string) : bool :=
  match s with
  | EmptyString => true
  | String a s' => c a && all c s'
  end.

(** The byte [a] lies between [lo] and [hi]. *)
Definition between (lo hi : nat) (a : ascii) : bool :=
  (lo <=? nat_of_ascii a)%nat && (nat_of_ascii a <=? hi)%nat.

(** [s.isascii()] *)
Definition isascii (s : string) : bool := all (between 0 127) s.

(** A byte that continues a character of several bytes. *)
Definition is_continuation (a : ascii) : bool := between 128 191 a.

(** [len(s)]: the number of characters, each of which starts with a byte
    that is not a continuation byte. *)
Fixpoint len (s : string) : nat :=
  match s with
  | EmptyString => O
  | String a s' => ((if is_continuation a then 0 else 1) + len s')%nat
  end.

(** [s[:n]]: the first [n] characters, each with its continuation
    bytes. *)
Fixpoint take (n : nat) (s : string) : string :=
  match s with
  | EmptyString => EmptyString
  | String a s' =>
      if is_continuation a then String a (take n s')
      else match n with
           | O => EmptyString
           | S n' => String a (take n' s')
           end
  end.

(** The bytes [s] are well-formed UTF-8: what the [utf-8] codec decodes
    without an error.  Overlong forms, surrogates and code points above
    U+10FFFF are refused. *)
Fixpoint utf8 (s : string) : bool :=
  match s with
  | EmptyString => true
  | String a s1 =>
      if between 0 127 a then utf8 s1
      else if between 194 223 a then
        match s1 with
        | String b s2 => is_continuation b && utf8 s2
        | _ => false
        end
      else if between 224 239 a then
        match s1 with
        | String b (String c s3) =>
            between (if between 224 224 a then 160 else 128)
                    (if between 237 237 a then 159 else 191) b &&
            is_continuation c && utf8 s3
        | _ => false
        end
      else if between 240 244 a then
        match s1 with
        | String b (String c (String d s4)) =>
            between (if between 240 240 a then 144 else 128)
                    (if between 244 244 a then 143 else 191) b &&
            is_continuation c && is_continuation d && utf8 s4
        | _ => false
        end
      else false
  end.

(** The text that a file opened in text mode hands over: a carriage
    return, with the line feed after it when there is one, is read as a
    line feed. *)
Fixpoint universal_newlines (s : string) : string :=
  match s with
  | EmptyString => EmptyString
  | String a s1 =>
      if Ascii.eqb a "013"%char then
        match s1 with
        | String b s2 =>
            if Ascii.eqb b "010"%char
            then String "010"%char (universal_newlines s2)
            else String "010"%char (universal_newlines s1)
        | EmptyString => String "010"%char EmptyString
        end
      else String a (universal_newlines s1)
  end.

End Str.

(** ** Regular expressions: the fragment of [re] behind [re.search]

    A backtracking matcher in the order of preference of Python's engine:
    a greedy quantifier first tries to take one more character and falls
    back to fewer when the rest of the pattern fails.  Quantifiers apply to
    single-character classes, which is all the module's pattern needs. *)

Module Re.

Inductive regex : Type :=
| Star (c : ascii -> bool)      (* [c*] *)
| Opt (c : ascii -> bool)       (* [c?] *)
| Plus (c : ascii -> bool)      (* [c+] *)
| Seq (r1 r2 : regex)
| Group (i : nat) (r : regex).  (* capturing group number [i] *)

(** The captured groups of a match, most recently closed first. *)
Definition captures := list (nat * string).

(** A continuation receives the text just matched, the rest of the input
    and the groups captured so far. *)
Definition cont := string -> string -> captures -> option captures.

Fixpoint star (c : ascii -> bool) (s : string) (caps : captures) (k : cont)
  : option captures :=
  match s with
  | String a s' =>
      if c a then
        match star c s' caps (fun mt rest => k (String a mt) rest) with
        | Some r => Some r
        | None => k "" s caps
        end
      else k "" s caps
  | EmptyString => k "" s caps
  end.

Fixpoint run (r : regex) (s : string) (caps : captures) (k : cont)
  : option captures :=
  match r with
  | Star c => star c s caps k
  | Opt c =>
      match s with
      | String a s' =>
          if c a then
            match k (String a "") s' caps with
            | Some r => Some r
            | None => k "" s caps
            end
          else k "" s caps
      | EmptyString => k "" s caps
      end
  | Plus c =>
      match s with
      | String a s' =>
          if c a then star c s' caps (fun mt rest => k (String a mt) rest)
          else None
      | EmptyString => None
      end
  | Seq r1 r2 =>
      run r1 s caps (fun m1 s1 caps1 =>
        run r2 s1 caps1 (fun m2 s2 caps2 => k (m1 +:+ m2) s2 caps2))
  | Group i r =>
      run r s caps (fun mt rest caps' => k mt rest ((i, mt) :: caps'))
  end.

(** [re.match]: a match anchored at the start of [s]. *)
Definition match_at (r : regex) (s : string) : option captures :=
  run r s [] (fun _ _ caps => Some caps).

(** [re.search]: the match at the leftmost position that has one. *)
Fixpoint search (r : regex) (s : string) : option captures :=
  match match_at r s with
  | Some m => Some m
  | None =>
      match s with
      | String _ s' => search r s'
      | EmptyString => None
      end
  end.

(** [m.group(i)] *)
Fixpoint group (i : nat) (m : captures) : string :=
  match m with
  | [] => ""
  | (j, g) :: m' => if Nat.eqb i j then g else group i m'
  end.

(** Character classes. *)
(** What a pattern matches, declaratively: [sem r mt caps caps'] when
    [r] matches the text [mt] and turns the captures [caps] into
    [caps']. *)
Fixpoint sem (r : regex) (mt : string) (caps caps' : captures) : Prop :=
  match r with
  | Star c => Str.all c mt = true /\ caps' = caps
  | Opt c =>
      (mt = "" \/ exists a, mt = String a "" /\ c a = true) /\ caps' = caps
  | Plus c =>
      (exists a mt', mt = String a mt' /\ c a = true /\ Str.all c mt' = true)
      /\ caps' = caps
  | Seq r1 r2 =>
      exists m1 m2 capsm,
        mt = m1 +:+ m2 /\ sem r1 m1 caps capsm /\ sem r2 m2 capsm caps'
  | Group i r => exists c0, sem r mt caps c0 /\ caps' = (i, mt) :: c0
  end.

(** Character classes: a decimal digit, a literal point, a blank, and
    the wildcard, which matches everything but a line feed. *)
Definition digit : ascii -> bool := Str.is_digit.
Definition dot : ascii -> bool := Ascii.eqb "."%char.
Definition space : ascii -> bool := Ascii.eqb " "%char.
Definition any : ascii -> bool := fun a => negb (Ascii.eqb a "010"%char).

End Re.

(** ** Floats: binary64 and the conversions [float(str)] and [int(float)] *)

Module Float.

Definition prec : Z := 53.
Definition emax : Z := 1024.

Definition mul : spec_float -> spec_float -> spec_float := SFmul prec emax.
Definition div : spec_float -> spec_float -> spec_float := SFdiv prec emax.

(** The float nearest to the integer [z] (ties to even), as Python
    converts the integer operand of a mixed operation. *)
Definition of_Z (z : Z) : spec_float := binary_normalize prec emax z 0 false.

(** The float nearest to [n / 10^k] (ties to even), for [0 <= n]. *)
Definition of_decimal (n : Z) (k : nat) : spec_float :=
  match n with
  | Zpos _ =>
      let '(mz, ez, lz) :=
        SFdiv_core_binary prec emax n 0 (10 ^ Z.of_nat k) 0 in
      binary_round_aux prec emax false mz ez lz
  | _ => S754_zero false
  end.

(** The value of a string of decimal digits, read after [acc]. *)
Fixpoint digits (acc : Z) (s : string) : option Z :=
  match s with
  | EmptyString => Some acc
  | String a s' =>
      if Str.is_digit a
      then digits (10 * acc + (Z.of_nat (nat_of_ascii a) - 48)) s'
      else None
  end.

(** [s] split at its first ['.']: the text before it, and the text after
    it when there is one. *)
Fixpoint split_dot (s : string) : string * option string :=
  match s with
  | EmptyString => ("", None)
  | String a s' =>
      if Ascii.eqb a "."%char then ("", Some s')
      else let '(ip, fp) := split_dot s' in (String a ip, fp)
  end.

(** [float(s)] on unsigned decimal numerals: digits, an optional point,
    digits, with a digit on at least one side.  Signs, exponents,
    underscores, surrounding blanks and the words inf and nan, which
    [float] also reads, are not modelled: the module only passes
    the text of group 1 of its pattern. *)
Definition of_string (s : string) : result spec_float :=
  let bad := Raise (ValueError ("could not convert string to float: " +:+ s)) in
  let '(ip, fp) := split_dot s in
  let fp := default "" fp in
  if (String.length ip + String.length fp =? 0)%nat then bad
  else
    match digits 0 (ip +:+ fp) with
    | Some n => Ok (of_decimal n (String.length fp))
    | None => bad
    end.

(** The positive number [r * 2^i]. *)
Definition shl (r : positive) (i : nat) : positive := Nat.iter i xO r.

(** [int(x)]: truncation toward zero. *)
Definition to_int (x : spec_float) : result Z :=
  match x with
  | S754_zero _ => Ok 0
  | S754_finite s m e => Ok (cond_Zopp s (Z.shiftl (Zpos m) e))
  | S754_infinity _ =>
      Raise (OverflowError "cannot convert float infinity to integer")
  | S754_nan => Raise (ValueError "cannot convert float NaN to integer")
  end.

End Float.

(** ** The duration parser *)

(** The pattern of [duration_string_to_minutes]: group 1 is a numeral
    (digits, greedy; an optional point; one digit or more), group 2 a run
    of blanks and group 3 the rest of the line. *)
Definition duration_re : Re.regex :=
  Re.Seq (Re.Group 1 (Re.Seq (Re.Star Re.digit)
                        (Re.Seq (Re.Opt Re.dot) (Re.Plus Re.digit))))
    (Re.Seq (Re.Group 2 (Re.Star Re.space))
            (Re.Group 3 (Re.Star Re.any))).

(** The texts group 1 can hold: digits, then a point or nothing, then one
    digit or more. *)
Definition numeral (g : string) : Prop :=
  exists d1 o d3,
    g = d1 +:+ o +:+ d3 /\ Str.all Re.digit d1 = true /\ (o = "" \/ o = ".") /\
    Str.all Re.digit d3 = true /\ d3 <> "".

(** A float whose sign bit is clear, or a NaN. *)
Definition not_negative (x : spec_float) : Prop :=
  match x with
  | S754_zero true | S754_finite true _ _ | S754_infinity true => False
  | _ => True
  end.

(** A float that is zero, positive or plus infinity: its sign bit is
    clear and it is not a NaN. *)
Definition nonneg_number (x : spec_float) : Prop :=
  match x with
  | S754_zero false | S754_finite false _ _ | S754_infinity false => True
  | _ => False
  end.

Definition duration_string_to_minutes (s : string) : result Z :=
  match Re.search duration_re s with
  | None => Raise (ValueError ("Invalid time string: " +:+ s))
  | Some m =>
      let! amount := Float.of_string (Re.group 1 m) in
      let unit := Str.lower (Re.group 3 m) in
      if Str.mem unit ["d"; "day"; "days"] then
        Float.to_int (Float.mul amount (Float.of_Z 1440))
      else if Str.mem unit ["h"; "hour"; "hours"] then
        Float.to_int (Float.mul amount (Float.of_Z 60))
      else if Str.mem unit ["m"; "min"; "mins"; "minute"; "minutes"; ""] then
        Float.to_int amount
      else if Str.mem unit ["s"; "sec"; "secs"; "second"; "seconds"] then
        Float.to_int (Float.div amount (Float.of_Z 60))
      else Raise (ValueError ("Invalid unit of time: " +:+ unit))
  end.


(** The conversion as exact arithmetic has it: the numeral with the
    digits [n], the last [k] of them after the point, times [num / den],
    without its fraction. *)
Definition exact_minutes (n : Z) (k : nat) (num den : Z) : Z :=
  (n * num) / (10 ^ Z.of_nat k * den).

(** A text that can stand for a unit behind a whole numeral and blanks:
    it holds no line feed and does not start with a digit, a point or a
    blank, so that group 3 of the pattern is that very text. *)
Definition unit_text (u : string) : bool :=
  Str.all Re.any u &&
  match u with
  | String b _ => negb (Re.digit b) && negb (Re.dot b) && negb (Re.space b)
  | EmptyString => true
  end.

(** The units the parser recognizes, the empty unit apart. *)
Definition recognized_units : list string :=
  ["d"; "day"; "days"; "h"; "hour"; "hours";
   "m"; "min"; "mins"; "minute"; "minutes";
   "s"; "sec"; "secs"; "second"; "seconds"].

(** ** The file system

    A path is the list of its components below the root; a directory lists
    its entries in the order in which the system enumerates them.  Symbolic
    links, permissions and the current directory are not modelled: a path
    stands for an absolute text, and a call that the system would refuse
    for want of a permission is outside the model. *)

Module Fs.

Definition path := list string.

#[warnings="-register-all"] Inductive node : Type :=
| File (data : string)
| Dir (entries : list (string * node)).

Definition entries := list (string * node).

Fixpoint assoc (c : string) (es : entries) : option node :=
  match es with
  | [] => None
  | (c', n) :: es' => if String.eqb c c' then Some n else assoc c es'
  end.

(** The node found by following [p] from [n]. *)
Fixpoint lookup (p : path) (n : node) : option node :=
  match p with
  | [] => Some n
  | c :: p' =>
      match n with
      | File _ => None
      | Dir es =>
          match assoc c es with
          | Some n' => lookup p' n'
          | None => None
          end
      end
  end.

(** No directory lists a name twice. *)
Fixpoint wf (n : node) : bool :=
  match n with
  | File _ => true
  | Dir es =>
      bool_decide (NoDup (map fst es)) &&
      (fix all (l : entries) : bool :=
         match l with
         | [] => true
         | (_, n') :: l' => wf n' && all l'
         end) es
  end.

(** Replace the first entry named [c], or add one at the end. *)
Fixpoint set_entry (c : string) (n : node) (es : entries) : entries :=
  match es with
  | [] => [(c, n)]
  | (c', n') :: es' =>
      if String.eqb c c' then (c, n) :: es' else (c', n') :: set_entry c n es'
  end.

(** Drop the entries named [c]. *)
Fixpoint del_entry (c : string) (es : entries) : entries :=
  match es with
  | [] => []
  | (c', n') :: es' =>
      if String.eqb c c' then del_entry c es' else (c', n') :: del_entry c es'
  end.

Definition upd_entry (c : string) (v : option node) (es : entries) : entries :=
  match v with
  | Some n => set_entry c n es
  | None => del_entry c es
  end.

(** The tree [n] with the node at [p] set to [v] (removed for [None]).
    Every proper prefix of [p] must be a directory; the root itself is
    never replaced. *)
Fixpoint put (p : path) (v : option node) (n : node) : result node :=
  match n with
  | File _ => Raise (NotADirectoryError "[Errno 20] Not a directory")
  | Dir es =>
      match p with
      | [] => Raise (OSError "[Errno 16] Device or resource busy")
      | [c] => Ok (Dir (upd_entry c v es))
      | c :: p' =>
          match assoc c es with
          | Some n' =>
              let! n'' := put p' v n' in
              Ok (Dir (set_entry c n'' es))
          | None =>
              Raise (FileNotFoundError "[Errno 2] No such file or directory")
          end
      end
  end.

(** The names of the entries of a directory that are directories, and of
    those that are not. *)
Definition is_dir (n : node) : bool :=
  match n with Dir _ => true | File _ => false end.

Definition dirnames (es : entries) : list string :=
  map fst (filter (fun e => is_dir (snd e) = true) es).

Definition filenames (es : entries) : list string :=
  map fst (filter (fun e => is_dir (snd e) = false) es).

(** The top-down walk of the tree [n], whose path is [top]. *)
Fixpoint walk (top : path) (n : node) {struct n}
  : list (path * list string * list string) :=
  match n with
  | File _ => []
  | Dir es =>
      (top, dirnames es, filenames es) ::
      (fix sub (l : entries) : list (path * list string * list string) :=
         match l with
         | [] => []
         | (c, n') :: l' => walk (top ++ [c]) n' ++ sub l'
         end) es
  end.


(** The text of a path. *)
Definition path_str (p : path) : string := "/" +:+ Str.join "/" p.

(** The name of an entry of a directory: not empty, not [.] or [..], and
    without a separator or a null byte. *)
Definition component (c : string) : bool :=
  negb (String.eqb c "") && negb (String.eqb c ".") &&
  negb (String.eqb c "..") &&
  Str.all (fun a => negb (Ascii.eqb a "/"%char) &&
                    negb (Ascii.eqb a "000"%char)) c.

(** The components of an absolute text read from the left, with the
    directories entered so far in [rstack], the last one first: an empty
    component and [.] stay, [..] goes up, and stays at the root. *)
Fixpoint resolve_from (rstack : list string) (p : list string) : path :=
  match p with
  | [] => reverse rstack
  | c :: p' =>
      if String.eqb c "" || String.eqb c "." then resolve_from rstack p'
      else if String.eqb c ".." then resolve_from (tail rstack) p'
      else resolve_from (c :: rstack) p'
  end.

(** [Path(p).resolve()] for the absolute text with the components [p]:
    without links, the text is normalised as it stands. *)
Definition resolve (p : list string) : path := resolve_from [] p.

(** The names of the directories of a tree are ASCII text. *)
Fixpoint ascii_dirs (n : node) : bool :=
  match n with
  | File _ => true
  | Dir es =>
      (fix all (l : entries) : bool :=
         match l with
         | [] => true
         | (c, n') :: l' =>
             (if is_dir n' then Str.isascii c && ascii_dirs n' else true)
             && all l'
         end) es
  end.

(** The tree holds a regular file. *)
Fixpoint has_file (n : node) : bool :=
  match n with
  | File _ => true
  | Dir es =>
      (fix any (l : entries) : bool :=
         match l with
         | [] => false
         | (_, n') :: l' => has_file n' || any l'
         end) es
  end.

End Fs.

(** ** The world a call runs in: the file system and the warnings logged.
    A command is a function from the world to its result and the world it
    leaves. *)

Record world : Type := World {
  fs : Fs.node;
  warnings : list string
}.

Definition M (A : Type) : Type := world -> result A * world.

Definition ret {A} (a : A) : M A := fun w => (Ok a, w).
Definition raise {A} (e : exn) : M A := fun w => (Raise e, w).

Definition bind {A B} (m : M A) (k : A -> M B) : M B :=
  fun w =>
    match m w with
    | (Ok a, w') => k a w'
    | (Raise e, w') => (Raise e, w')
    end.

Notation "'do' x <- m ; k" := (bind m (fun x => k))
  (at level 10, x name, m at level 100, k at level 200, only parsing).

(** ** [os], [os.path], [shutil] and [logging] *)

Definition os_path_exists (p : Fs.path) (w : world) : bool :=
  match Fs.lookup p (fs w) with Some _ => true | None => false end.

Definition os_path_isdir (p : Fs.path) (w : world) : bool :=
  match Fs.lookup p (fs w) with Some (Fs.Dir _) => true | _ => false end.

(** [os.path.join(p, name)] for a [name] that is one component
    ([Fs.component]).  The empty name and [.], for which the result names
    [p] itself, [..], and a name with a separator are outside the model. *)
Definition os_path_join (p : Fs.path) (name : string) : Fs.path := p ++ [name].

(** A path as a caller writes it, where the text matters: the directory
    it names, and whether the text ends with a separator ([runs/]) or with
    a component [.] or [..], in which case [os.path.split] finds no name
    of a directory at its end. *)
Record pathname : Type := Pathname {
  target : Fs.path;
  trailing_sep : bool
}.

(** [os.path.split(p)]: the text before the last separator and the text
    after it, which is empty for the root and for a text that ends with a
    separator (for a text that ends with [.] or [..] it is that component,
    which is as good as empty for the module: it holds no letter). *)
Definition os_path_split (p : pathname) : Fs.path * string :=
  if trailing_sep p then (target p, "")
  else match reverse (target p) with
       | [] => ([], "")
       | c :: r => (reverse r, c)
       end.

(** [os.path.relpath(p, start)]: one step up for each component of [start]
    after the common prefix, then the rest of [p]. *)
Fixpoint relpath_list (p start : Fs.path) : list string :=
  match p, start with
  | a :: p', b :: start' =>
      if String.eqb a b then relpath_list p' start'
      else List.repeat ".." (length start) ++ p
  | _, _ => List.repeat ".." (length start) ++ p
  end.

Definition os_path_relpath (p start : Fs.path) : string :=
  match relpath_list p start with
  | [] => "."
  | l => Str.join "/" l
  end.

(** [os.walk(top)]; nothing when [top] is not a directory.  The first
    path is [top] as the caller wrote it; the others are made with
    [os.path.join], which leaves no separator at their end. *)
Definition os_walk (top : pathname) (w : world)
  : list (pathname * list string * list string) :=
  match Fs.lookup (target top) (fs w) with
  | Some n =>
      match Fs.walk (target top) n with
      | [] => []
      | (_, dirnames, filenames) :: sub =>
          (top, dirnames, filenames) ::
          map (fun t => (Pathname (fst (fst t)) false, snd (fst t), snd t)) sub
      end
  | None => []
  end.

(** The path of the directory [rel] below [top] as [os.walk] yields it:
    [top] itself as it is written, the others without a separator at
    their end. *)
Definition walked (top : pathname) (rel : Fs.path) : pathname :=
  match rel with
  | [] => top
  | _ => Pathname (target top ++ rel) false
  end.

Definition set_fs (w : world) (n : Fs.node) : world :=
  {| fs := n; warnings := warnings w |}.

(** [os.mkdir(p)] *)
Definition os_mkdir (p : Fs.path) : M unit := fun w =>
  match Fs.lookup p (fs w) with
  | Some _ => (Raise (FileExistsError "[Errno 17] File exists"), w)
  | None =>
      match Fs.put p (Some (Fs.Dir [])) (fs w) with
      | Ok n => (Ok tt, set_fs w n)
      | Raise e => (Raise e, w)
      end
  end.

(** [os.makedirs(name)], by recursion on the reversed path: the head is
    created first when it does not exist, a [FileExistsError] from that
    being passed over, then the leaf. *)
Fixpoint makedirs_rev (rname : list string) : M unit := fun w =>
  match rname with
  | [] => os_mkdir [] w
  | _ :: rhead =>
      if negb (os_path_exists (reverse rhead) w) then
        match makedirs_rev rhead w with
        | (Ok _, w1) => os_mkdir (reverse rname) w1
        | (Raise (FileExistsError _), w1) => os_mkdir (reverse rname) w1
        | (Raise e, w1) => (Raise e, w1)
        end
      else os_mkdir (reverse rname) w
  end.

Definition os_makedirs (name : Fs.path) : M unit := makedirs_rev (reverse name).

(** [shutil.rmtree(p)].  Removing the root is outside the model and is an
    error that leaves the tree as it is. *)
Definition shutil_rmtree (p : Fs.path) : M unit := fun w =>
  match Fs.lookup p (fs w) with
  | Some (Fs.Dir _) =>
      match Fs.put p None (fs w) with
      | Ok n => (Ok tt, set_fs w n)
      | Raise e => (Raise e, w)
      end
  | Some (Fs.File _) =>
      (Raise (NotADirectoryError "[Errno 20] Not a directory"), w)
  | None =>
      (Raise (FileNotFoundError "[Errno 2] No such file or directory"), w)
  end.

(** [logging.warning(msg)] *)
Definition logging_warning (msg : string) : M unit := fun w =>
  (Ok tt, {| fs := fs w; warnings := warnings w ++ [msg] |}).

(** ** Run discovery *)

Definition is_checkpoint (path : pathname) : bool :=
  Str.contains "chkpt" (Str.lower (snd (os_path_split path))).

(** [contains_run(path)] for the directory that [path] names. *)
Definition contains_run (p : Fs.path) (w : world) : bool :=
  if negb (os_path_exists (os_path_join p "full_config.yml") w) then false
  else if negb (os_path_exists (os_path_join p "results.bz2") w) then false
  else true.

(** The loop of [find_runs_rec] over [paths_to_check], appending to
    [run_paths]. *)
Fixpoint find_runs_loop (path : pathname) (include_checkpoints : bool)
    (w : world) (paths_to_check : list pathname) (run_paths : list string)
  : list string :=
  match paths_to_check with
  | [] => run_paths
  | p :: rest =>
      find_runs_loop path include_checkpoints w rest
        (if contains_run (target p) w &&
            (include_checkpoints || negb (is_checkpoint p))
         then run_paths ++ [os_path_relpath (target p) (target path)]
         else run_paths)
  end.

Definition find_runs_rec (path : pathname) (include_checkpoints : bool)
    (w : world) : list string :=
  let run_paths := [] in
  let paths_to_check := map (fun p => fst (fst p)) (os_walk path w) in
  find_runs_loop path include_checkpoints w paths_to_check run_paths.

(** The name contains [chkpt] in some mix of upper and lower case. *)
Definition chkpt_any_case (name : string) : Prop :=
  exists pre c h k p t post,
    name = pre +:+ String c (String h (String k (String p (String t post))))
    /\ (c = "c" \/ c = "C")%char /\ (h = "h" \/ h = "H")%char
    /\ (k = "k" \/ k = "K")%char /\ (p = "p" \/ p = "P")%char
    /\ (t = "t" \/ t = "T")%char.

(** The tree of the example of run discovery: under [root], a complete
    run, a run without results and a complete checkpoint. *)
Definition example_runs : world :=
  {| fs := Fs.Dir [("root", Fs.Dir [
       ("runA", Fs.Dir [("full_config.yml", Fs.File "");
                        ("results.bz2", Fs.File "")]);
       ("runB", Fs.Dir [("full_config.yml", Fs.File "")]);
       ("runB_chkpt5", Fs.Dir [("full_config.yml", Fs.File "");
                               ("results.bz2", Fs.File "")])])];
     warnings := [] |}.

(** A tree with checkpoints named in upper and in mixed case, one of
    which holds a run of its own. *)
Definition example_upper : world :=
  {| fs := Fs.Dir [("root", Fs.Dir [
       ("runA", Fs.Dir [("full_config.yml", Fs.File "");
                        ("results.bz2", Fs.File "")]);
       ("RunA_ChKpT7", Fs.Dir [("full_config.yml", Fs.File "");
                               ("results.bz2", Fs.File "")]);
       ("X_CHKPT", Fs.Dir [("full_config.yml", Fs.File "");
                           ("results.bz2", Fs.File "");
                           ("inner", Fs.Dir [("full_config.yml", Fs.File "");
                                             ("results.bz2", Fs.File "")])])])];
     warnings := [] |}.

(** A tree without any regular file: the two names are names of
    directories. *)
Definition example_no_file : world :=
  {| fs := Fs.Dir [("root", Fs.Dir [
       ("runX", Fs.Dir [("full_config.yml", Fs.Dir []);
                        ("results.bz2", Fs.Dir [])])])];
     warnings := [] |}.

(** A world in which the path [exp] is a regular file. *)
Definition example_file : world :=
  {| fs := Fs.Dir [("exp", Fs.File "")]; warnings := [] |}.

(** ** Experiment and job directories *)

Definition setup_experiment_dir (directory : Fs.path) (force : bool)
  : M Fs.path := fun w =>
  (do _ <- (if os_path_isdir directory w then
              if force then shutil_rmtree directory
              else raise (FileExistsError
                     ("Could not create experiment " +:+ Fs.path_str directory
                      +:+ ": Directory already exists."))
            else ret tt);
   do _ <- os_makedirs directory;
   ret directory) w.

Definition setup_job_dir (parent_dir : Fs.path) (name : string)
  : M Fs.path := fun w =>
  let job_dir := os_path_join parent_dir name in
  (do _ <- (if os_path_exists job_dir w then
              logging_warning
                ("Directory " +:+ Fs.path_str job_dir
                 +:+ " already exists. Results might be overwritten.")
            else os_makedirs job_dir);
   ret job_dir) w.

(** ** Job scripts

    Each template is given line by line; the script is the lines joined by
    line feeds, with no line feed after the last one. *)

Definition nl : string := String "010"%char "".
Definition dq : string := String "034"%char "".

(** [str(n)] for an integer. *)
Definition str_of_int (n : Z) : string := pretty n.

Definition get_jobfile_content_vsc4 (command jobname queue : string) (time : Z)
  : string :=
  Str.join nl [
    "#!/bin/bash";
    "#SBATCH -J " +:+ jobname;
    "#SBATCH -N 1";
    "#SBATCH --partition " +:+ queue;
    "#SBATCH --qos " +:+ queue;
    "#SBATCH --output CPU.out";
    "#SBATCH --time " +:+ str_of_int time;
    "module purge";
    command ].

Definition get_jobfile_content_vsc3 (command jobname queue : string) (time : Z)
    (conda_env : string) : string :=
  Str.join nl [
    "#!/bin/bash";
    "#SBATCH -J " +:+ jobname;
    (if negb (String.eqb queue "gpu_a40dual") then "#SBATCH -N 1" else "");
    "#SBATCH --partition " +:+ queue;
    "#SBATCH --qos " +:+ queue;
    "#SBATCH --output GPU.out";
    "#SBATCH --time " +:+ str_of_int time;
    "#SBATCH --gres=gpu:1";
    "";
    "module purge";
    "module load cuda/11.2.2";
    "source /opt/sw/x86_64/glibc-2.17/ivybridge-ep/anaconda3/5.3.0/etc/profile.d/conda.sh";
    "conda activate " +:+ conda_env;
    "export WANDB_DIR=" +:+ dq +:+ "${HOME}/tmp" +:+ dq;
    command ].

Definition get_jobfile_content_dgx (command jobname jobdir : string) (time : Z)
    (conda_env src_dir : string) : string :=
  Str.join nl [
    "#!/bin/bash";
    "#SBATCH -J " +:+ jobname;
    "#SBATCH -N 1";
    "#SBATCH --output GPU.out";
    "#SBATCH --time " +:+ str_of_int time;
    "#SBATCH --gres=gpu:1";
    "#SBATCH --chdir " +:+ jobdir;
    "";
    "export CONDA_ENVS_PATH=" +:+ dq +:+ "/nfs$HOME/.conda/envs:$CONDA_ENVS_PATH" +:+ dq;
    "source /opt/anaconda3/etc/profile.d/conda.sh ";
    "conda activate " +:+ conda_env;
    "export PYTHONPATH=" +:+ dq +:+ src_dir +:+ dq;
    "export WANDB_API_KEY=$(grep -Po " +:+ dq +:+ "(?<=password ).*" +:+ dq
      +:+ " /nfs$HOME/.netrc)";
    "export CUDA_VISIBLE_DEVICES=" +:+ dq +:+ "0" +:+ dq;
    "export WANDB_DIR=" +:+ dq +:+ "/nfs${HOME}/tmp" +:+ dq;
    "export XLA_FLAGS=--xla_gpu_force_compilation_parallelism=1";
    command ].

(** The text after the last line feed of [s]. *)
Fixpoint last_line_from (cur s : string) : string :=
  match s with
  | EmptyString => cur
  | String a s' =>
      if Ascii.eqb a "010"%char then last_line_from s' s'
      else last_line_from cur s'
  end.

Definition last_line (s : string) : string := last_line_from s s.

(** [s] has the line [l]: it occurs in [s] between two line feeds. *)
Definition has_line (l s : string) : Prop :=
  Str.infix (nl +:+ l +:+ nl) s.

(** What every job script is to hold: a line naming the job, a line with
    the time limit, a line redirecting the output to [output], and the
    command after the last line feed: as the last line when the command
    has no line feed of its own. *)
Definition embeds_job (script command jobname output : string) (time : Z)
  : Prop :=
  has_line ("#SBATCH -J " +:+ jobname) script /\
  has_line ("#SBATCH --time " +:+ str_of_int time) script /\
  has_line ("#SBATCH --output " +:+ output) script /\
  (exists pre, script = pre +:+ nl +:+ command) /\
  (Str.all Re.any command = true -> last_line script = command).

(** ** Rewriting the command for the shared file system

    A command is a Python list of strings: a mutable object in the heap,
    named by its location.  [os.path.exists] on the text of a token is a
    parameter of the section. *)

Definition loc := nat.
Abbreviation heap := (gmap loc (list string)).

Section AppendNfs.

Variable exists_str : string -> bool.

(** [copy.deepcopy(command)]: a new list with the same (immutable)
    strings. *)
Definition copy_deepcopy (command : loc) (h : heap) : loc * heap :=
  let ret := fresh (dom h) in
  (ret, <[ret := default [] (h !! command)]> h).

(** [ret[idx] = v] *)
Definition setitem (ret : loc) (idx : nat) (v : string) (h : heap) : heap :=
  match h !! ret with
  | Some l => <[ret := <[idx := v]> l]> h
  | None => h
  end.

(** The loop over [enumerate(ret)] from index [idx]: the iterator reads
    the list as it is when it reaches [idx] and stops when [idx] is past
    its end. *)
Fixpoint append_nfs_loop (fuel : nat) (ret : loc) (idx : nat) (h : heap)
  : heap :=
  match fuel with
  | O => h
  | S fuel' =>
      match h !! ret ≫= (fun l => l !! idx) with
      | None => h
      | Some r =>
          append_nfs_loop fuel' ret (S idx)
            (if Str.startswith "/" r && exists_str r
             then setitem ret idx ("/nfs" +:+ r) h
             else h)
      end
  end.

(** The loop runs once per element of the copy and once more to find the
    iterator exhausted. *)
Definition append_nfs_to_fullpaths (command : loc) (h : heap) : loc * heap :=
  let '(ret, h1) := copy_deepcopy command h in
  (ret, append_nfs_loop (S (length (default [] (h1 !! ret)))) ret 0 h1).

End AppendNfs.

(** The token [r] after the rewriting. *)
Definition nfs_token (exists_str : string -> bool) (r : string) : string :=
  if Str.startswith "/" r && exists_str r then "/nfs" +:+ r else r.

(** ** Choosing the backend *)

Definition slurm_conf_path : Fs.path := ["etc"; "slurm"; "slurm.conf"].

(** The lines of a text, each with its line feed. *)
Fixpoint readlines_from (cur : string) (s : string) : list string :=
  match s with
  | EmptyString => match cur with EmptyString => [] | _ => [cur] end
  | String a s' =>
      if Ascii.eqb a "010"%char
      then (cur +:+ nl) :: readlines_from "" s'
      else readlines_from (cur +:+ String a "") s'
  end.

(** [open(p).readlines()]: the file is opened in text mode, and its bytes
    are decoded as they are read, with the codec [utf-8] (the default of
    Python on the hosts of the module) and universal newlines.  Bytes that
    are not well-formed make [readlines] raise. *)
Definition open_readlines (p : Fs.path) : M (list string) := fun w =>
  match Fs.lookup p (fs w) with
  | Some (Fs.File data) =>
      if Str.utf8 data
      then (Ok (readlines_from "" (Str.universal_newlines data)), w)
      else (Raise (UnicodeDecodeError "utf-8"), w)
  | Some (Fs.Dir _) => (Raise (IsADirectoryError "[Errno 21] Is a directory"), w)
  | None => (Raise (FileNotFoundError "[Errno 2] No such file or directory"), w)
  end.

(** The value of [dispatch_to] in [dispatch_job] when the handler is looked
    up: [system] is [config.dispatch.system], [nodename] is [os.uname()[1]]
    and [environ] is [os.environ]. *)
Definition dispatch_to (system nodename : string) (environ : gmap string string)
  : M string :=
  if String.eqb system "auto" then
    (do d <- (if String.eqb nodename "gpu1-mat" then ret "local_background"
              else fun w =>
                if os_path_exists slurm_conf_path w then
                  (do slurm_conf <- open_readlines slurm_conf_path;
                   if Str.contains "slurm.vda.univie.ac.at"
                        (Str.join "" slurm_conf)
                   then ret "dgx" else ret "local") w
                else ret "local" w);
     match environ !! "HPC_SYSTEM" with
     | Some v => ret (Str.lower v)
     | None => ret d
     end)
  else ret system.

(** The probe of the scheduler configuration is not run, or it returns:
    the host is the GPU server, or nothing stands at the path of the
    configuration, or a regular file whose bytes decode. *)
Definition probe_returns (nodename : string) (w : world) : bool :=
  String.eqb nodename "gpu1-mat" ||
  match Fs.lookup slurm_conf_path (fs w) with
  | None => true
  | Some (Fs.File data) => Str.utf8 data
  | Some (Fs.Dir _) => false
  end.

(** What the probes of the host name and of the scheduler configuration
    select when neither fails: the value before the override is looked
    at. *)
Definition probed (nodename : string) (w : world) : string :=
  if String.eqb nodename "gpu1-mat" then "local_background"
  else match Fs.lookup slurm_conf_path (fs w) with
       | Some (Fs.File data) =>
           if Str.contains "slurm.vda.univie.ac.at" data then "dgx"
           else "local"
       | _ => "local"
       end.

(** A world in which a directory stands at the path of the scheduler
    configuration, and one in which the configuration holds a byte that is
    not UTF-8 (an e with an acute accent in Latin-1) before the cluster
    domain. *)
Definition example_conf_dir : world :=
  {| fs := Fs.Dir [("etc", Fs.Dir [("slurm", Fs.Dir [("slurm.conf",
             Fs.Dir [])])])];
     warnings := [] |}.

Definition example_conf_latin1 : world :=
  {| fs := Fs.Dir [("etc", Fs.Dir [("slurm", Fs.Dir [("slurm.conf",
             Fs.File ("# cr" +:+ String "233"%char "" +:+ "e par admin" +:+ nl
                      +:+ "ControlMachine=slurm.vda.univie.ac.at" +:+ nl))])])];
     warnings := [] |}.

(** A world whose scheduler configuration names the cluster domain. *)
Definition example_dgx : world :=
  {| fs := Fs.Dir [("etc", Fs.Dir [("slurm", Fs.Dir [("slurm.conf",
             Fs.File ("ClusterName=dgx" +:+ nl +:+
                      "ControlMachine=slurm.vda.univie.ac.at" +:+ nl))])])];
     warnings := [] |}.

(** The functions [dispatch_to_*] of the module. *)
Inductive handler : Type :=
| dispatch_to_local
| dispatch_to_local_background
| dispatch_to_vsc3
| dispatch_to_vsc4
| dispatch_to_dgx.

(** [globals()[name]] for the names the module looks up. *)
Definition globals (name : string) : result handler :=
  if String.eqb name "dispatch_to_local" then Ok dispatch_to_local
  else if String.eqb name "dispatch_to_local_background"
       then Ok dispatch_to_local_background
  else if String.eqb name "dispatch_to_vsc3" then Ok dispatch_to_vsc3
  else if String.eqb name "dispatch_to_vsc4" then Ok dispatch_to_vsc4
  else if String.eqb name "dispatch_to_dgx" then Ok dispatch_to_dgx
  else Raise (KeyError name).

(** [dispatch_job] up to the call of the handler, which is returned. *)
Definition dispatch_job (system nodename : string)
    (environ : gmap string string) : M handler :=
  do d <- dispatch_to system nodename environ;
  fun w => (globals ("dispatch_to_" +:+ d), w).

(** ** Job names *)

(** [s] padded on the left with zeros to the width [w]. *)
Fixpoint zeros (n : nat) : string :=
  match n with
  | O => ""
  | S n' => String "0" (zeros n')
  end.

Definition zfill (w : nat) (s : string) : string :=
  zeros (w - String.length s) +:+ s.

(** [f"{idx:04d}"]: the sign, when there is one, counts in the width. *)
Definition idx_to_job_name (idx : Z) : string :=
  if idx <? 0 then "-" +:+ zfill 3 (str_of_int (- idx))
  else zfill 4 (str_of_int idx).

(** [int(s)] on an optional sign followed by decimal digits; the blanks and
    underscores that [int] also reads are not modelled. *)
Definition int_of_string (s : string) : result Z :=
  let bad := Raise (ValueError ("invalid literal for int() with base 10: " +:+ s)) in
  let '(neg, ds) :=
    match s with
    | String "-" s' => (true, s')
    | String "+" s' => (false, s')
    | _ => (false, s)
    end in
  match ds with
  | EmptyString => bad
  | _ =>
      match Float.digits 0 ds with
      | Some n => Ok (if neg then - n else n)
      | None => bad
      end
  end.

(** ** Experiment names *)

(** [s.replace(c, "")] for a one-character [c]. *)
Fixpoint str_remove (c : ascii) (s : string) : string :=
  match s with
  | EmptyString => EmptyString
  | String a s' =>
      if Ascii.eqb a c then str_remove c s' else String a (str_remove c s')
  end.

(** [s.split(c)] for a one-character [c]. *)
Fixpoint str_split (c : ascii) (s : string) : list string :=
  match s with
  | EmptyString => [""]
  | String a s' =>
      if Ascii.eqb a c then "" :: str_split c s'
      else match str_split c s' with
           | x :: l => String a x :: l
           | [] => [String a ""]
           end
  end.

(** [s.count(c)] for a one-character [c]. *)
Fixpoint str_count (c : ascii) (s : string) : nat :=
  match s with
  | EmptyString => O
  | String a s' => (if Ascii.eqb a c then 1 else 0) + str_count c s'
  end.

Definition shorten_parameter_name (name : string) : string :=
  Str.join "" (map (Str.take 2) (str_split "." (str_remove "_" name))).

(** The value of a parameter: a string or an integer. *)
Inductive value : Type :=
| VStr (s : string)
| VInt (n : Z).

(** [f"{v}"] *)
Definition format_value (v : value) : string :=
  match v with
  | VStr s => s
  | VInt n => str_of_int n
  end.

(** The error of [str.join] on an item that is not a string. *)
Inductive type_error : Type :=
| TypeError (msg : string).

(** [sep.join(l)] on a list of values: the index of the first item that is
    not a string is reported. *)
Fixpoint join_values_from (i : nat) (l : list value)
  : type_error + list string :=
  match l with
  | [] => inr []
  | VStr s :: l' =>
      match join_values_from (S i) l' with
      | inr ss => inr (s :: ss)
      | inl e => inl e
      end
  | VInt _ :: _ =>
      inl (TypeError ("sequence item " +:+ pretty i
                      +:+ ": expected str instance, int found"))
  end.

Definition join_values (sep : string) (l : list value) : type_error + string :=
  match join_values_from 0 l with
  | inr ss => inr (Str.join sep ss)
  | inl e => inl e
  end.

(** The loop of [build_experiment_name] over the parameters, appending to
    [s]. *)
Fixpoint build_experiment_name_loop (include_param_shorthand : bool)
    (parameters : list (string * value)) (s : list value) : list value :=
  match parameters with
  | [] => s
  | (name, v) :: rest =>
      if String.eqb name "experiment_name" || String.eqb name "reuse.path"
      then build_experiment_name_loop include_param_shorthand rest s
      else
        build_experiment_name_loop include_param_shorthand rest
          (s ++ [if include_param_shorthand
                 then VStr (shorten_parameter_name name +:+ "-"
                            +:+ format_value v)
                 else v])
  end.

(** The parameters that take part in the name. *)
Definition named (p : string * value) : bool :=
  negb (String.eqb (fst p) "experiment_name" || String.eqb (fst p) "reuse.path").

(** What a parameter adds to the name. *)
Definition name_item (include_param_shorthand : bool) (p : string * value)
  : value :=
  if include_param_shorthand
  then VStr (shorten_parameter_name (fst p) +:+ "-" +:+ format_value (snd p))
  else snd p.

Definition is_str (v : value) : bool :=
  match v with VStr _ => true | VInt _ => false end.

Definition build_experiment_name (parameters : list (string * value))
    (include_param_shorthand : bool) (basename : string)
  : type_error + string :=
  let s := if (0 <? String.length basename)%nat then [VStr basename] else [] in
  join_values "_"
    (build_experiment_name_loop include_param_shorthand parameters s).

(** ** The handlers *)

(** The name of the backend a handler serves. *)
Definition handler_name (h : handler) : string :=
  match h with
  | dispatch_to_local => "local"
  | dispatch_to_local_background => "local_background"
  | dispatch_to_vsc3 => "vsc3"
  | dispatch_to_vsc4 => "vsc4"
  | dispatch_to_dgx => "dgx"
  end.

(** The fields of the configuration the handlers read. *)
Module Config.

Record dispatch_config : Type := {
  system : string;
  time : string;
  queue : string;
  conda_env : string
}.

Record configuration : Type := {
  experiment_name : string;
  dispatch : dispatch_config
}.

End Config.

(** A process the dispatcher starts: [subprocess.run(argv, cwd=cwd)], or
    [subprocess.Popen(argv, cwd=cwd)] in a new session with both output
    streams sent to the file [out].  A handler is modelled up to this
    call, which it returns: whether the program is found and what the
    process does are outside the model.  In the code the call comes after
    the file is written, and an error it raises leaves the file. *)
Inductive launch : Type :=
| Run (argv : list string) (cwd : Fs.path)
| Popen (argv : list string) (cwd : Fs.path) (out : Fs.path).

Definition lift {A} (r : result A) : M A := fun w => (r, w).

(** [with open(p, 'w') as f: f.write(data)]: the file is created or
    replaced. *)
Definition write_file (p : Fs.path) (data : string) : M unit := fun w =>
  match Fs.lookup p (fs w) with
  | Some (Fs.Dir _) =>
      (Raise (IsADirectoryError "[Errno 21] Is a directory"), w)
  | _ =>
      match Fs.put p (Some (Fs.File data)) (fs w) with
      | Ok n => (Ok tt, set_fs w n)
      | Raise e => (Raise e, w)
      end
  end.

(** [_map_dgx_path(path)] for the absolute text with the components
    [path]: the text is resolved, and moved under [/nfs] when it then
    starts with [/home].  ([os.path.abspath], which the handler of the GPU
    cluster applies first, normalises an absolute text in the same
    way.) *)
Definition _map_dgx_path (path : list string) : string :=
  let path := Fs.resolve path in
  if Str.startswith "/home" (Fs.path_str path)
  then "/nfs" +:+ Fs.path_str path
  else Fs.path_str path.


Module Handlers.

Definition dispatch_to_local (command : list string) (run_dir : Fs.path)
    (config : Config.configuration) : M launch :=
  ret (Run command run_dir).

(** The line that this handler prints is not modelled. *)
Definition dispatch_to_local_background (command : list string)
    (run_dir : Fs.path) (config : Config.configuration) : M launch :=
  do _ <- write_file (os_path_join run_dir "GPU.out") "";
  ret (Popen command run_dir (os_path_join run_dir "GPU.out")).

Definition dispatch_to_vsc3 (command : list string) (run_dir : Fs.path)
    (config : Config.configuration) : M launch :=
  do time_in_minutes <-
    lift (duration_string_to_minutes (Config.time (Config.dispatch config)));
  let queue :=
    if String.eqb (Config.queue (Config.dispatch config)) "default"
    then "gpu_rtx2080ti" else Config.queue (Config.dispatch config) in
  let jobfile_content :=
    get_jobfile_content_vsc3 (Str.join " " command)
      (Config.experiment_name config) queue time_in_minutes
      (Config.conda_env (Config.dispatch config)) in
  do _ <- write_file (os_path_join run_dir "job.sh") jobfile_content;
  ret (Run ["sbatch"; "job.sh"] run_dir).

Definition dispatch_to_vsc4 (command : list string) (run_dir : Fs.path)
    (config : Config.configuration) : M launch :=
  do time_in_minutes <-
    lift (duration_string_to_minutes (Config.time (Config.dispatch config)));
  let queue :=
    if String.eqb (Config.queue (Config.dispatch config)) "default"
    then "mem_0096" else Config.queue (Config.dispatch config) in
  let jobfile_content :=
    get_jobfile_content_vsc4 (Str.join " " command)
      (Config.experiment_name config) queue time_in_minutes in
  do _ <- write_file (os_path_join run_dir "job.sh") jobfile_content;
  ret (Run ["sbatch"; "job.sh"] run_dir).

Section DispatchDgx.

(** [os.path.exists] on the text of a token, and the directory two levels
    above the file of the module. *)
Variable exists_str : string -> bool.
Variable module_dir : Fs.path.

(** The handler of the GPU cluster.  The command is a list in the heap:
    the handler works on the copy that [append_nfs_to_fullpaths] returns,
    and the heap it leaves is returned beside the command on the world. *)
Definition dispatch_to_dgx (command : loc) (run_dir : Fs.path)
    (config : Config.configuration) (h : heap) : M launch * heap :=
  let '(command, h) := append_nfs_to_fullpaths exists_str command h in
  (do time_in_minutes <-
     lift (duration_string_to_minutes (Config.time (Config.dispatch config)));
   let src_dir := _map_dgx_path module_dir in
   let jobfile_content :=
     get_jobfile_content_dgx (Str.join " " (default [] (h !! command)))
       (Config.experiment_name config) (_map_dgx_path run_dir)
       time_in_minutes (Config.conda_env (Config.dispatch config)) src_dir in
   do _ <- write_file (os_path_join run_dir "job.sh") jobfile_content;
   ret (Run ["sbatch"; "job.sh"] run_dir),
   h).

End DispatchDgx.

End Handlers.

(** A configuration for the second HPC variant with the default queue. *)
Definition example_config : Config.configuration :=
  {| Config.experiment_name := "exp";
     Config.dispatch := {| Config.system := "vsc4"; Config.time := "2h";
                           Config.queue := "default";
                           Config.conda_env := "jax" |} |}.

(* ===================================================================== *)
(** * Part II: properties                                                  *)
(* ===================================================================== *)

(** ** Strings *)

#[local] Arguments String.append !s1 s2 : simpl nomatch.

Section StrFacts.

Lemma str_app_nil_r (s : string) : s +:+ "" = s.
Proof. induction s as [|a s IH]; simpl; [reflexivity | now f_equal]. Qed.

Lemma str_app_assoc (s t u : string) : (s +:+ t) +:+ u = s +:+ (t +:+ u).
Proof. induction s as [|a s IH]; simpl; [reflexivity | now f_equal]. Qed.

Lemma str_app_length (s t : string) :
  String.length (s +:+ t) = (String.length s + String.length t)%nat.
Proof. induction s as [|a s IH]; simpl; [reflexivity | now f_equal]. Qed.

Lemma startswith_spec (p s : string) :
  Str.startswith p s = true <-> exists t, s = p +:+ t.
Proof.
  revert s. induction p as [|a p IH]; intros s; simpl.
  - split; [intros _; now exists s | reflexivity].
  - destruct s as [|b s].
    + split; [discriminate | intros [t Ht]; discriminate].
    + rewrite andb_true_iff, Ascii.eqb_eq, IH. split.
      * intros [-> [t ->]]. now exists t.
      * intros [t Ht]. injection Ht as -> ->. split; [reflexivity | now exists t].
Qed.

Lemma contains_spec (sub s : string) :
  Str.contains sub s = true <-> Str.infix sub s.
Proof.
  unfold Str.infix. split.
  - induction s as [|a s IH]; simpl; rewrite orb_true_iff; intros [H | H].
    + apply startswith_spec in H as [t Ht]. now exists "", t.
    + discriminate.
    + apply startswith_spec in H as [t Ht]. now exists "", t.
    + destruct (IH H) as (pre & post & ->). now exists (String a pre), post.
  - intros (pre & post & ->). induction pre as [|a pre IH].
    + simpl. assert (H : Str.startswith sub (sub +:+ post) = true)
        by (apply startswith_spec; now exists post).
      destruct (sub +:+ post); simpl in *; now rewrite H.
    + simpl. rewrite IH. apply orb_true_r.
Qed.

Lemma not_contains_spec (sub s : string) :
  Str.contains sub s = false <-> ~ Str.infix sub s.
Proof.
  rewrite <- contains_spec. destruct (Str.contains sub s); split;
    congruence.
Qed.


Lemma all_app (c : ascii -> bool) (s t : string) :
  Str.all c (s +:+ t) = Str.all c s && Str.all c t.
Proof.
  induction s as [|a s IH]; simpl; [reflexivity |].
  now rewrite IH, andb_assoc.
Qed.

Lemma all_app_true (c : ascii -> bool) (s t : string) :
  Str.all c (s +:+ t) = true -> Str.all c s = true /\ Str.all c t = true.
Proof. rewrite all_app. apply andb_true_iff. Qed.

Lemma digit_not_dot (a : ascii) :
  Str.is_digit a = true -> Ascii.eqb a "."%char = false.
Proof.
  destruct a as [[] [] [] [] [] [] [] []]; try discriminate; reflexivity.
Qed.

Lemma str_snoc g : g <> "" -> exists g0 a, g = g0 +:+ String a "".
Proof.
  induction g as [| b g IH]; [congruence |]. intros _.
  destruct g as [| c g].
  - now exists "", b.
  - destruct IH as (g0 & a & E); [discriminate |].
    exists (String b g0), a. simpl. now rewrite E.
Qed.

End StrFacts.

(** ** The matcher *)

Section ReFacts.

Lemma star_sound c s caps k res :
  Re.star c s caps k = Some res ->
  exists mt rest,
    s = mt +:+ rest /\ Str.all c mt = true /\ k mt rest caps = Some res.
Proof.
  revert k. induction s as [|a s IH]; intros k H; simpl in H.
  - now exists "", "".
  - destruct (c a) eqn:Hc; [| now exists "", (String a s)].
    destruct (Re.star c s caps _) as [r0|] eqn:Hs.
    + injection H as ->. apply IH in Hs as (mt & rest & -> & Hall & Hk).
      exists (String a mt), rest. simpl. now rewrite Hc, Hall.
    + now exists "", (String a s).
Qed.

Lemma run_sound r : forall s caps k res,
  Re.run r s caps k = Some res ->
  exists mt rest caps',
    s = mt +:+ rest /\ Re.sem r mt caps caps' /\ k mt rest caps' = Some res.
Proof.
  induction r as [c | c | c | r1 IH1 r2 IH2 | i r IH]; intros s caps k res H;
    simpl in H.
  - apply star_sound in H as (mt & rest & -> & Hall & Hk).
    exists mt, rest, caps. simpl. auto.
  - destruct s as [|a s]; [exists "", "", caps; simpl; auto |].
    destruct (c a) eqn:Hc; [| exists "", (String a s), caps; simpl; auto].
    destruct (k (String a "") s caps) as [r0|] eqn:Hk.
    + injection H as ->. exists (String a ""), s, caps. simpl. eauto 8.
    + exists "", (String a s), caps. simpl. auto.
  - destruct s as [|a s]; [discriminate |].
    destruct (c a) eqn:Hc; [| discriminate].
    apply star_sound in H as (mt & rest & -> & Hall & Hk).
    exists (String a mt), rest, caps. simpl. eauto 8.
  - apply IH1 in H as (m1 & s1 & caps1 & -> & Hs1 & H).
    apply IH2 in H as (m2 & s2 & caps2 & -> & Hs2 & H).
    exists (m1 +:+ m2), s2, caps2. rewrite str_app_assoc. simpl. eauto 8.
  - apply IH in H as (mt & rest & caps' & -> & Hs & H).
    exists mt, rest, ((i, mt) :: caps'). simpl. eauto.
Qed.

Lemma search_sound r s m :
  Re.search r s = Some m ->
  exists pre s', s = pre +:+ s' /\ Re.match_at r s' = Some m.
Proof.
  induction s as [|a s IH]; simpl; intros H.
  - destruct (Re.match_at r "") eqn:E; [| discriminate].
    injection H as ->. now exists "", "".
  - destruct (Re.match_at r (String a s)) eqn:E.
    + injection H as ->. now exists "", (String a s).
    + apply IH in H as (pre & s' & -> & H). now exists (String a pre), s'.
Qed.

(** A star whose continuation always succeeds succeeds. *)
Lemma star_total c s caps (k : Re.cont) :
  (forall mt rest caps', k mt rest caps' <> None) ->
  Re.star c s caps k <> None.
Proof.
  intros Hk. destruct s as [|a s]; simpl; [apply Hk |].
  destruct (c a); [| apply Hk].
  destruct (Re.star c s caps _); [discriminate | apply Hk].
Qed.

(** A star stops at once before a character that is not of its class. *)
Lemma star_stop c s caps (k : Re.cont) :
  match s with String b _ => c b = false | EmptyString => True end ->
  Re.star c s caps k = k "" s caps.
Proof. destruct s as [| b s]; simpl; [reflexivity | now intros ->]. Qed.

(** A star whose continuation always succeeds takes all it can. *)
Lemma star_greedy c g : forall rest caps (k : Re.cont),
  Str.all c g = true ->
  match rest with String b _ => c b = false | EmptyString => True end ->
  (forall mt r caps', k mt r caps' <> None) ->
  Re.star c (g +:+ rest) caps k = k g rest caps.
Proof.
  induction g as [| a g IH]; intros rest caps k Hg Hr Hk.
  - now apply star_stop.
  - simpl in Hg. apply andb_true_iff in Hg as [Ha Hg].
    change (String a g +:+ rest) with (String a (g +:+ rest)).
    cbn [Re.star]. rewrite Ha.
    rewrite (IH rest caps (fun mt r => k (String a mt) r) Hg Hr)
      by (intros; apply Hk).
    destruct (k (String a g) rest caps) eqn:E; [reflexivity |].
    now destruct (Hk _ _ _ E).
Qed.

(** A star gives back its last character when the continuation needs
    it. *)
Lemma star_gives_back c g0 a rest caps res : forall (k : Re.cont),
  Str.all c g0 = true -> c a = true ->
  match rest with String b _ => c b = false | EmptyString => True end ->
  k (g0 +:+ String a "") rest caps = None ->
  k g0 (String a rest) caps = Some res ->
  Re.star c (g0 +:+ String a rest) caps k = Some res.
Proof.
  induction g0 as [| b g0 IH]; intros k Hg Ha Hr Hnone Hsome.
  - change ("" +:+ String a rest) with (String a rest).
    cbn [Re.star]. rewrite Ha.
    rewrite (star_stop c rest caps _ Hr). 
    change ("" +:+ String a "") with (String a "") in Hnone.
    now rewrite Hnone.
  - simpl in Hg. apply andb_true_iff in Hg as [Hb Hg].
    change (String b g0 +:+ String a rest) with (String b (g0 +:+ String a rest)).
    cbn [Re.star]. rewrite Hb.
    now rewrite (IH (fun mt r => k (String b mt) r) Hg Ha Hr Hnone Hsome).
Qed.

Lemma search_at r s m :
  Re.match_at r s = Some m -> Re.search r s = Some m.
Proof. intros H. destruct s; simpl; now rewrite H. Qed.

End ReFacts.

(** ** Floats *)

Section FloatFacts.

Lemma split_dot_digits d t :
  Str.all Re.digit d = true ->
  Float.split_dot (d +:+ t) =
    (d +:+ fst (Float.split_dot t), snd (Float.split_dot t)).
Proof.
  induction d as [|a d IH]; simpl; intros H.
  - now destruct (Float.split_dot t).
  - apply andb_true_iff in H as [Ha Hd].
    rewrite (digit_not_dot a Ha), (IH Hd). reflexivity.
Qed.

Lemma digits_all s : forall acc,
  Str.all Re.digit s = true -> 0 <= acc ->
  exists n, Float.digits acc s = Some n /\ 0 <= n.
Proof.
  induction s as [|a s IH]; simpl; intros acc H Hacc.
  - now exists acc.
  - apply andb_true_iff in H as [Ha Hs]. unfold Re.digit in Ha. rewrite Ha.
    apply IH; [exact Hs |].
    unfold Str.is_digit in Ha. apply andb_true_iff in Ha as [H1 _].
    apply Nat.leb_le in H1. lia.
Qed.

Lemma binary_round_aux_not_negative m e l :
  not_negative (binary_round_aux Float.prec Float.emax false m e l).
Proof.
  unfold binary_round_aux.
  destruct (shr_fexp Float.prec Float.emax m e l) as [mrs' e'].
  destruct (shr_fexp Float.prec Float.emax _ e' loc_Exact) as [mrs'' e''].
  destruct (shr_m mrs''); simpl; [exact I | | exact I].
  destruct (e'' <=? Float.emax - Float.prec); exact I.
Qed.

Lemma of_decimal_not_negative n k : not_negative (Float.of_decimal n k).
Proof.
  unfold Float.of_decimal. destruct n; try exact I.
  destruct (SFdiv_core_binary _ _ _ _ _ _) as [[mz ez] lz].
  apply binary_round_aux_not_negative.
Qed.

Lemma mul_not_negative x y :
  not_negative x -> not_negative y -> not_negative (Float.mul x y).
Proof.
  destruct x as [[]|[]| |[] mx ex], y as [[]|[]| |[] my ey];
    intros Hx Hy; try (exfalso; exact Hx); try (exfalso; exact Hy);
    try exact I.
  apply binary_round_aux_not_negative.
Qed.

Lemma div_not_negative x y :
  not_negative x -> not_negative y -> not_negative (Float.div x y).
Proof.
  destruct x as [[]|[]| |[] mx ex], y as [[]|[]| |[] my ey];
    intros Hx Hy; try (exfalso; exact Hx); try (exfalso; exact Hy);
    try exact I.
  unfold Float.div, SFdiv.
  destruct (SFdiv_core_binary Float.prec Float.emax _ _ _ _) as [[mz ez] lz].
  apply binary_round_aux_not_negative.
Qed.

Lemma to_int_not_negative x n :
  not_negative x -> Float.to_int x = Ok n -> 0 <= n.
Proof.
  destruct x as [s|s| |[] m e]; simpl; intros Hx H; try discriminate;
    try contradiction; injection H as <-; [lia |].
  apply Z.shiftl_nonneg. lia.
Qed.

(** [int] truncates toward zero: the magnitude of the result is the
    integer part of the magnitude of the float. *)
Lemma to_int_truncates sg m e :
  Float.to_int (S754_finite sg m e) =
    Ok (cond_Zopp sg (if 0 <=? e then Zpos m * 2 ^ e
                      else Zpos m / 2 ^ (- e))).
Proof.
  simpl. do 2 f_equal. destruct (Z.leb_spec 0 e) as [He | He].
  - now apply Z.shiftl_mul_pow2.
  - rewrite <- (Z.opp_involutive e) at 1. rewrite Z.shiftl_opp_r.
    apply Z.shiftr_div_pow2. lia.
Qed.

Lemma of_string_numeral g :
  numeral g ->
  exists x, Float.of_string g = Ok x /\ not_negative x.
Proof.
  intros (d1 & o & d3 & -> & H1 & Ho & H3 & Hne).
  assert (Hd3 : Float.split_dot d3 = (d3, None)).
  { rewrite <- (str_app_nil_r d3) at 1. rewrite split_dot_digits by exact H3.
    simpl. now rewrite str_app_nil_r. }
  assert (Hlen : forall x y, (String.length (x +:+ d3) + y =? 0)%nat = false).
  { intros x y. apply Nat.eqb_neq. rewrite str_app_length.
    destruct d3; [congruence | simpl; lia]. }
  unfold Float.of_string. destruct Ho as [-> | ->]; simpl.
  - rewrite split_dot_digits, Hd3 by exact H1. simpl.
    rewrite Hlen, str_app_nil_r.
    destruct (digits_all (d1 +:+ d3) 0) as (n & -> & Hn);
      [rewrite all_app, H1, H3; reflexivity | lia |].
    eexists. split; [reflexivity | apply of_decimal_not_negative].
  - rewrite split_dot_digits by exact H1. simpl. rewrite !str_app_nil_r.
    assert (Hlen' : (String.length d1 + String.length d3 =? 0)%nat = false)
      by (apply Nat.eqb_neq; destruct d3; [congruence | simpl; lia]).
    rewrite Hlen'.
    destruct (digits_all (d1 +:+ d3) 0) as (n & -> & Hn);
      [rewrite all_app, H1, H3; reflexivity | lia |].
    eexists. split; [reflexivity | apply of_decimal_not_negative].
Qed.

(** Rounding a mantissa that is not negative gives zero, a positive
    float or plus infinity, never a NaN: shifting and rounding keep the
    mantissa from going below zero. *)
Lemma shr_1_nonneg mrs : 0 <= shr_m mrs -> 0 <= shr_m (shr_1 mrs).
Proof. destruct mrs as [m r s]; destruct m as [| [p|p|] | [p|p|]]; simpl; lia. Qed.

Lemma iter_pos_nonneg k : forall mrs,
  0 <= shr_m mrs -> 0 <= shr_m (SpecFloat.iter_pos shr_1 k mrs).
Proof. induction k; intros mrs H; simpl; auto using shr_1_nonneg. Qed.

Lemma shr_fexp_nonneg m e l :
  0 <= m -> 0 <= shr_m (fst (shr_fexp Float.prec Float.emax m e l)).
Proof.
  intros H. unfold shr_fexp, shr.
  assert (H0 : 0 <= shr_m (shr_record_of_loc m l))
    by (destruct l as [| []]; exact H).
  destruct (fexp Float.prec Float.emax (Zdigits2 m + e) - e);
    cbn [fst]; auto using iter_pos_nonneg.
Qed.

Lemma round_nearest_even_nonneg m l :
  0 <= m -> 0 <= round_nearest_even m l.
Proof.
  intros H. destruct l as [| []]; simpl; try lia.
  destruct (Z.even m); lia.
Qed.

Lemma binary_round_aux_number m e l :
  0 <= m -> nonneg_number (binary_round_aux Float.prec Float.emax false m e l).
Proof.
  intros H. unfold binary_round_aux.
  pose proof (shr_fexp_nonneg m e l H) as H1.
  destruct (shr_fexp Float.prec Float.emax m e l) as [mrs' e'].
  cbn [fst] in H1.
  pose proof (shr_fexp_nonneg _ e' loc_Exact
                (round_nearest_even_nonneg _ (loc_of_shr_record mrs') H1)) as H2.
  destruct (shr_fexp Float.prec Float.emax _ e' loc_Exact) as [mrs'' e''].
  cbn [fst] in H2.
  destruct (shr_m mrs''); [exact I | | lia].
  destruct (e'' <=? Float.emax - Float.prec); exact I.
Qed.

Lemma div_core_nonneg m1 e1 m2 e2 :
  0 <= m1 -> 0 < m2 ->
  0 <= fst (fst (SFdiv_core_binary Float.prec Float.emax m1 e1 m2 e2)).
Proof.
  intros H1 H2. unfold SFdiv_core_binary.
  match goal with
  | |- context [Z.div_eucl ?a ?b] =>
      assert (Ha : 0 <= a);
      [| pose proof (Z.div_pos a b Ha H2) as Hq; unfold Z.div in Hq;
         destruct (Z.div_eucl a b) as [q r]; exact Hq]
  end.
  match goal with
  | |- 0 <= match ?s with _ => _ end => destruct s; try lia
  end.
  now apply Z.shiftl_nonneg.
Qed.

Lemma of_decimal_number n k : nonneg_number (Float.of_decimal n k).
Proof.
  unfold Float.of_decimal. destruct n as [| p | p]; try exact I.
  pose proof (div_core_nonneg (Zpos p) 0 (10 ^ Z.of_nat k) 0
                ltac:(lia) ltac:(apply Z.pow_pos_nonneg; lia)) as H.
  destruct (SFdiv_core_binary _ _ _ _ _ _) as [[mz ez] lz].
  now apply binary_round_aux_number.
Qed.

Lemma mul_number x m e :
  nonneg_number x -> nonneg_number (Float.mul x (S754_finite false m e)).
Proof.
  destruct x as [[]|[]| |[] mx ex]; intros Hx; try (exfalso; exact Hx);
    try exact I.
  apply binary_round_aux_number. lia.
Qed.

Lemma div_number x m e :
  nonneg_number x -> nonneg_number (Float.div x (S754_finite false m e)).
Proof.
  destruct x as [[]|[]| |[] mx ex]; intros Hx; try (exfalso; exact Hx);
    try exact I.
  unfold Float.div, SFdiv.
  pose proof (div_core_nonneg (Zpos mx) ex (Zpos m) e ltac:(lia) ltac:(lia)) as H.
  destruct (SFdiv_core_binary Float.prec Float.emax _ _ _ _) as [[mz ez] lz].
  now apply binary_round_aux_number.
Qed.

Lemma to_int_number x :
  nonneg_number x ->
  (exists n, Float.to_int x = Ok n /\ 0 <= n) \/
  Float.to_int x = Raise (OverflowError "cannot convert float infinity to integer").
Proof.
  destruct x as [[]|[]| |[] m e]; intros Hx; try (exfalso; exact Hx).
  - left. exists 0. split; [reflexivity | lia].
  - now right.
  - left. eexists. split; [reflexivity |]. simpl. apply Z.shiftl_nonneg. lia.
Qed.

(** Exact results.  A mantissa is written [shl r i], the number [r] with
    [i] zero bits after it; what follows shows that a whole number below
    [2^53], and its product with a factor when that is below [2^53] too,
    goes through [float], the multiplication and [int] unchanged. *)
Lemma Zpos_shl r i : Zpos (Float.shl r i) = Zpos r * 2 ^ Z.of_nat i.
Proof.
  unfold Float.shl. induction i as [| i IH]; [simpl; lia |].
  rewrite Nat2Z.inj_succ, Z.pow_succ_r by lia.
  change (Nat.iter (S i) xO r) with (xO (Nat.iter i xO r)).
  rewrite Pos2Z.inj_xO, IH. lia.
Qed.

Lemma digits_shl r i :
  Zpos (digits2_pos (Float.shl r i)) = Zpos (digits2_pos r) + Z.of_nat i.
Proof.
  unfold Float.shl. induction i as [| i IH]; [simpl; lia |].
  change (Nat.iter (S i) xO r) with (xO (Nat.iter i xO r)).
  cbn [digits2_pos]. rewrite Pos2Z.inj_succ, IH. lia.
Qed.

Lemma mul_shl p a q b :
  (Float.shl p a * Float.shl q b)%positive = Float.shl (p * q) (a + b).
Proof.
  apply Pos2Z.inj. rewrite Pos2Z.inj_mul, !Zpos_shl, Pos2Z.inj_mul.
  rewrite Nat2Z.inj_add, Z.pow_add_r by lia. ring.
Qed.

(** The number of binary digits of a positive number. *)
Lemma digits_bounds p :
  2 ^ (Zpos (digits2_pos p) - 1) <= Zpos p < 2 ^ Zpos (digits2_pos p).
Proof.
  induction p as [p IH | p IH |]; cbn [digits2_pos];
    [| | simpl; lia];
    rewrite Pos2Z.inj_succ;
    replace (Z.succ (Zpos (digits2_pos p)) - 1) with (Z.succ (Zpos (digits2_pos p) - 1)) by lia;
    rewrite !Z.pow_succ_r by lia; lia.
Qed.

Lemma digits_le p k : 0 <= k -> Zpos p < 2 ^ k -> Zpos (digits2_pos p) <= k.
Proof.
  intros Hk H. destruct (digits_bounds p) as [Hl _].
  destruct (Z.le_gt_cases (Zpos (digits2_pos p)) k) as [|Hgt]; [assumption |].
  assert (2 ^ k <= 2 ^ (Zpos (digits2_pos p) - 1))
    by (apply Z.pow_le_mono_r; lia).
  lia.
Qed.

Lemma digits_mono p r :
  Zpos p <= Zpos r -> Zpos (digits2_pos p) <= Zpos (digits2_pos r).
Proof.
  intros H. apply digits_le; [lia |].
  destruct (digits_bounds r). lia.
Qed.

(** The shifts of the rounding, counted in unary. *)
Lemma iter_pos_nat {A} (f : A -> A) k : forall x,
  SpecFloat.iter_pos f k x = Nat.iter (Pos.to_nat k) f x.
Proof.
  induction k as [k IH | k IH |]; intros x; cbn [SpecFloat.iter_pos].
  - rewrite !IH, Pos2Nat.inj_xI. rewrite <- Nat.iter_succ_r.
    rewrite <- Nat.iter_add. f_equal. lia.
  - rewrite !IH, Pos2Nat.inj_xO. rewrite <- Nat.iter_add. f_equal. lia.
  - reflexivity.
Qed.

Lemma iter_shr_1 r k : forall i,
  Nat.iter k shr_1
    {| shr_m := Zpos (Float.shl r (k + i)); shr_r := false; shr_s := false |}
  = {| shr_m := Zpos (Float.shl r i); shr_r := false; shr_s := false |}.
Proof.
  induction k as [| k IH]; intros i; [reflexivity |].
  replace (S k + i)%nat with (k + S i)%nat by lia.
  rewrite Nat.iter_succ, IH. reflexivity.
Qed.

(** Shifting a mantissa whose low bits are zero loses nothing. *)
Lemma shr_fexp_exact r j e (n : nat) :
  fexp Float.prec Float.emax (Zpos (digits2_pos r) + Z.of_nat j + e) - e
    = Z.of_nat n ->
  (n <= j)%nat ->
  shr_fexp Float.prec Float.emax (Zpos (Float.shl r j)) e loc_Exact =
    ({| shr_m := Zpos (Float.shl r (j - n)); shr_r := false; shr_s := false |},
     e + Z.of_nat n).
Proof.
  intros H Hn. unfold shr_fexp. cbn [Zdigits2]. rewrite digits_shl, H.
  unfold shr. destruct n as [| n].
  - change (Z.of_nat 0) with 0. now rewrite Z.add_0_r, Nat.sub_0_r.
  - change (Z.of_nat (S n)) with (Zpos (Pos.of_succ_nat n)) at 1. cbv iota.
    rewrite iter_pos_nat, SuccNat2Pos.id_succ. f_equal.
    cbn [shr_record_of_loc].
    replace j with (S n + (j - S n))%nat at 1 by lia.
    apply iter_shr_1.
Qed.

(** A mantissa of at most 53 significant bits is rounded to itself. *)
Lemma round_exact r j e :
  Zpos (digits2_pos r) <= 53 ->
  53 <= Zpos (digits2_pos r) + Z.of_nat j ->
  -1074 <= e + (Zpos (digits2_pos r) + Z.of_nat j - 53) <= 971 ->
  binary_round_aux Float.prec Float.emax false (Zpos (Float.shl r j)) e
    loc_Exact =
  S754_finite false (Float.shl r (Z.to_nat (53 - Zpos (digits2_pos r))))
    (e + (Zpos (digits2_pos r) + Z.of_nat j - 53)).
Proof.
  set (d := Zpos (digits2_pos r)). intros Hd Hj He.
  set (n := Z.to_nat (d + Z.of_nat j - 53)).
  unfold binary_round_aux.
  rewrite (shr_fexp_exact r j e n);
    [| fold d; unfold fexp, emin, Float.prec, Float.emax, n; lia
     | unfold n; lia].
  cbn [shr_m loc_of_shr_record round_nearest_even].
  rewrite (shr_fexp_exact r (j - n) (e + Z.of_nat n) 0);
    [| fold d; unfold fexp, emin, Float.prec, Float.emax, n; lia | lia].
  cbn [shr_m].
  replace (e + Z.of_nat n + Z.of_nat 0 <=? Float.emax - Float.prec) with true
    by (symmetry; apply Z.leb_le; unfold Float.prec, Float.emax, n; lia).
  f_equal; [f_equal; unfold n; lia | unfold n; lia].
Qed.

Lemma div_eucl_1 a : Z.div_eucl a 1 = (a, 0).
Proof.
  pose proof (Z.div_1_r a) as Hq. pose proof (Z.mod_1_r a) as Hr.
  unfold Z.div, Z.modulo in *. destruct (Z.div_eucl a 1) as [q r].
  now subst.
Qed.

(** A whole number below [2^53] is a float. *)
Lemma of_decimal_whole p :
  Zpos p < 2 ^ 53 ->
  Float.of_decimal (Zpos p) 0 =
    S754_finite false (Float.shl p (Z.to_nat (53 - Zpos (digits2_pos p))))
      (Zpos (digits2_pos p) - 53).
Proof.
  intros Hp. pose proof (digits_le p 53 ltac:(lia) Hp) as Hd.
  set (d := Zpos (digits2_pos p)) in *.
  assert (E : SFdiv_core_binary Float.prec Float.emax (Zpos p) 0 1 0 =
              (Zpos (Float.shl p (Z.to_nat (54 - d))), d - 54, loc_Exact)).
  { unfold SFdiv_core_binary. cbn [Zdigits2]. fold d.
    change (Zpos (digits2_pos 1)) with 1.
    assert (E' : Z.min (fexp Float.prec Float.emax (d + 0 - (1 + 0))) (0 - 0)
                 = d - 54).
    { assert (1 <= d) by (unfold d; lia).
      unfold fexp, emin, Float.prec, Float.emax. lia. }
    rewrite E'.
    replace (0 - 0 - (d - 54)) with (54 - d) by lia.
    destruct (54 - d) as [| s | s] eqn:Es; try lia.
    rewrite Z.shiftl_mul_pow2 by lia. rewrite div_eucl_1.
    rewrite <- Es, Zpos_shl, Z2Nat.id by lia. reflexivity. }
  unfold Float.of_decimal. change (10 ^ Z.of_nat 0) with 1. rewrite E.
  rewrite round_exact; fold d; [| lia | lia | lia].
  f_equal. lia.
Qed.

(** The product of two floats whose mantissas multiply to at most 53
    significant bits is exact. *)
Lemma mul_exact p a ex q b ey :
  Zpos (digits2_pos (p * q)) <= 53 ->
  53 <= Zpos (digits2_pos (p * q)) + Z.of_nat (a + b) ->
  -1074 <= ex + ey + (Zpos (digits2_pos (p * q)) + Z.of_nat (a + b) - 53)
        <= 971 ->
  Float.mul (S754_finite false (Float.shl p a) ex)
            (S754_finite false (Float.shl q b) ey) =
  S754_finite false
    (Float.shl (p * q) (Z.to_nat (53 - Zpos (digits2_pos (p * q)))))
    (ex + ey + (Zpos (digits2_pos (p * q)) + Z.of_nat (a + b) - 53)).
Proof.
  intros Hd Hj He. unfold Float.mul, SFmul. cbn [xorb].
  rewrite mul_shl. now apply round_exact.
Qed.

(** [int] of a float whose value is a whole number. *)
Lemma to_int_shl r i e :
  0 <= Z.of_nat i + e ->
  Float.to_int (S754_finite false (Float.shl r i) e) =
    Ok (Zpos r * 2 ^ (Z.of_nat i + e)).
Proof.
  intros H. cbn [Float.to_int cond_Zopp]. f_equal. rewrite Zpos_shl.
  destruct (Z.leb_spec 0 e) as [He | He].
  - rewrite Z.shiftl_mul_pow2, Z.pow_add_r by lia. ring.
  - rewrite <- (Z.opp_involutive e) at 1.
    rewrite Z.shiftl_opp_r, Z.shiftr_div_pow2 by lia.
    replace (Z.of_nat i) with ((Z.of_nat i + e) + - e) by lia.
    rewrite Z.pow_add_r by lia. rewrite Z.mul_assoc.
    rewrite Z.div_mul by (apply Z.pow_nonzero; lia).
    f_equal. f_equal. lia.
Qed.

(** Whole minutes below [2^53] are exact. *)
Lemma whole_exact n :
  0 <= n < 2 ^ 53 -> Float.to_int (Float.of_decimal n 0) = Ok n.
Proof.
  intros [H0 Hn]. destruct n as [| p | p]; [reflexivity | | lia].
  pose proof (digits_le p 53 ltac:(lia) Hn) as Hd.
  rewrite of_decimal_whole by exact Hn.
  rewrite to_int_shl by lia.
  replace (Z.of_nat (Z.to_nat (53 - Zpos (digits2_pos p))) +
           (Zpos (digits2_pos p) - 53)) with 0 by lia.
  f_equal. lia.
Qed.

(** A whole number times a factor [q * 2^c], the product below [2^53], is
    exact. *)
Lemma whole_times_exact n q b ey :
  0 <= Z.of_nat b + ey <= 53 ->
  0 <= n -> n * (Zpos q * 2 ^ (Z.of_nat b + ey)) < 2 ^ 53 ->
  Float.to_int (Float.mul (Float.of_decimal n 0)
                  (S754_finite false (Float.shl q b) ey)) =
    Ok (n * (Zpos q * 2 ^ (Z.of_nat b + ey))).
Proof.
  intros Hc H0 Hn. destruct n as [| p | p]; [reflexivity | | lia].
  assert (Hpow' : 0 < 2 ^ (Z.of_nat b + ey)) by (apply Z.pow_pos_nonneg; lia).
  assert (Hp : Zpos p < 2 ^ 53) by nia.
  assert (Hpq : Zpos (p * q) < 2 ^ 53) by (rewrite Pos2Z.inj_mul; nia).
  pose proof (digits_le p 53 ltac:(lia) Hp) as Hdp.
  pose proof (digits_le (p * q) 53 ltac:(lia) Hpq) as Hd.
  pose proof (digits_mono p (p * q) ltac:(rewrite Pos2Z.inj_mul; nia)) as Hm.
  assert (H1 : 1 <= Zpos (digits2_pos p)) by lia.
  rewrite of_decimal_whole by exact Hp.
  rewrite mul_exact by lia.
  rewrite to_int_shl by lia.
  rewrite Pos2Z.inj_mul. f_equal. rewrite <- Z.mul_assoc. f_equal. f_equal.
  f_equal. lia.
Qed.

Lemma digits_Some_all s : forall acc n,
  Float.digits acc s = Some n -> Str.all Re.digit s = true.
Proof.
  induction s as [| a s IH]; intros acc n H; [reflexivity |].
  simpl in H |- *. unfold Re.digit at 1.
  destruct (Str.is_digit a); [| discriminate]. exact (IH _ _ H).
Qed.

(** [float] on a whole numeral. *)
Lemma of_string_whole g n :
  g <> "" -> Float.digits 0 g = Some n ->
  Float.of_string g = Ok (Float.of_decimal n 0) /\ 0 <= n.
Proof.
  intros Hne Hd. pose proof (digits_Some_all g 0 n Hd) as Hg.
  destruct (digits_all g 0 Hg ltac:(lia)) as (n' & Hn' & Hpos).
  rewrite Hd in Hn'. injection Hn' as <-. split; [| exact Hpos].
  unfold Float.of_string.
  rewrite <- (str_app_nil_r g) at 1. rewrite split_dot_digits by exact Hg.
  cbn [Float.split_dot fst snd default]. rewrite !str_app_nil_r.
  replace (String.length g + String.length "" =? 0)%nat with false
    by (destruct g; [congruence | reflexivity]).
  now rewrite Hd.
Qed.

(** The floats of the two factors. *)
Lemma of_Z_60 : Float.of_Z 60 = S754_finite false (Float.shl 15 49) (-47).
Proof. vm_compute. reflexivity. Qed.

Lemma of_Z_1440 : Float.of_Z 1440 = S754_finite false (Float.shl 45 47) (-42).
Proof. vm_compute. reflexivity. Qed.

Lemma of_string_number g x : Float.of_string g = Ok x -> nonneg_number x.
Proof.
  unfold Float.of_string. destruct (Float.split_dot g) as [ip fp].
  destruct (_ =? _)%nat; [discriminate |].
  destruct (Float.digits 0 _); [| discriminate].
  intros [= <-]. apply of_decimal_number.
Qed.

End FloatFacts.

(** ** The duration parser *)

Section DurationFacts.

(** The shape of a match of the pattern at the start of a text. *)
Lemma match_duration s m :
  Re.match_at duration_re s = Some m ->
  exists g1 g2 g3 rest,
    m = [(3%nat, g3); (2%nat, g2); (1%nat, g1)] /\
    s = g1 +:+ g2 +:+ g3 +:+ rest /\ numeral g1.
Proof.
  intros H. apply run_sound in H as (mt & rest & caps & -> & Hs & H).
  injection H as <-. simpl in Hs.
  destruct Hs as (g1 & m23 & c1 & -> & (c0 & Hg1 & ->) & Hs).
  destruct Hg1 as (d1 & m2 & c2 & -> & [Hd1 ->] & Hg1).
  destruct Hg1 as (o & d3 & c3 & -> & [Ho ->] & [Hd3 ->]).
  destruct Hs as (g2 & g3 & c4 & -> & (c5 & [_ ->] & ->) & (c6 & [_ ->] & ->)).
  exists (d1 +:+ o +:+ d3), g2, g3, rest. split; [reflexivity |]. split.
  - now rewrite !str_app_assoc.
  - exists d1, o, d3. repeat split; try assumption.
    + destruct Ho as [-> | (a & -> & Ha)]; [now left | right].
      unfold Re.dot in Ha. apply Ascii.eqb_eq in Ha. now subst.
    + destruct Hd3 as (a & d & -> & Ha & Hd). simpl. unfold Re.digit in *.
      now rewrite Ha, Hd.
    + destruct Hd3 as (a & d & -> & _). discriminate.
Qed.

Lemma search_duration s m :
  Re.search duration_re s = Some m ->
  exists pre g1 g2 g3 rest,
    m = [(3%nat, g3); (2%nat, g2); (1%nat, g1)] /\
    s = pre +:+ g1 +:+ g2 +:+ g3 +:+ rest /\ numeral g1.
Proof.
  intros H. apply search_sound in H as (pre & s' & -> & H).
  apply match_duration in H as (g1 & g2 & g3 & rest & -> & -> & Hn).
  now exists pre, g1, g2, g3, rest.
Qed.

Lemma search_amount s m :
  Re.search duration_re s = Some m ->
  exists x, Float.of_string (Re.group 1 m) = Ok x /\ not_negative x.
Proof.
  intros H. apply search_duration in H as (pre & g1 & g2 & g3 & rest & -> & _ & Hn).
  simpl. now apply of_string_numeral.
Qed.



(** A minus sign before the text is skipped by the search. *)
Lemma search_minus s :
  Re.search duration_re (String "-" s) = Re.search duration_re s.
Proof. reflexivity. Qed.

Lemma space_class b :
  Re.space b = true -> Re.digit b = false /\ Re.dot b = false.
Proof.
  unfold Re.space. intros H. apply Ascii.eqb_eq in H. now subst.
Qed.

(** The match of the pattern on a whole numeral, blanks and a unit. *)
Lemma search_whole g blanks u :
  g <> "" -> Str.all Re.digit g = true ->
  Str.all Re.space blanks = true -> unit_text u = true ->
  Re.search duration_re (g +:+ blanks +:+ u) =
    Some [(3%nat, u); (2%nat, blanks); (1%nat, g)].
Proof.
  intros Hne Hg Hb Hu. apply search_at.
  destruct (str_snoc g Hne) as (g0 & a & ->).
  apply all_app_true in Hg as [Hg0 Ha]. simpl in Ha.
  rewrite andb_true_r in Ha.
  unfold unit_text in Hu. apply andb_true_iff in Hu as [Hany Hhead].
  assert (Hrest : match blanks +:+ u with
                  | String b _ => Re.digit b = false /\ Re.dot b = false
                  | EmptyString => True
                  end).
  { destruct blanks as [| b blanks].
    - destruct u as [| b u]; [exact I |]. simpl.
      apply andb_true_iff in Hhead as [Hhead _].
      apply andb_true_iff in Hhead as [H1 H2].
      now apply negb_true_iff in H1, H2.
    - simpl in Hb. apply andb_true_iff in Hb as [Hb _].
      now apply space_class. }
  assert (Hu0 : match u with
                | String b _ => Re.space b = false
                | EmptyString => True
                end).
  { destruct u as [| b u]; [exact I |].
    apply andb_true_iff in Hhead as [_ H3]. now apply negb_true_iff in H3. }
  rewrite str_app_assoc. change (String a "" +:+ ?x) with (String a x).
  unfold Re.match_at, duration_re. cbn [Re.run].
  apply star_gives_back; try assumption.
  - destruct (blanks +:+ u); [exact I | apply Hrest].
  - destruct (blanks +:+ u) as [| b rest]; [reflexivity |].
    destruct Hrest as [Hd Hp]. now rewrite Hp, Hd.
  - unfold Re.dot at 1. rewrite Ascii.eqb_sym, (digit_not_dot a Ha).
    rewrite Ha.
    rewrite star_stop by (destruct (blanks +:+ u); [exact I | apply Hrest]).
    rewrite star_greedy; [| exact Hb | exact Hu0 |].
    + rewrite <- (str_app_nil_r u) at 1.
      rewrite star_greedy; [| exact Hany | exact I | discriminate].
      reflexivity.
    + intros mt r caps'. apply star_total. discriminate.
Qed.

(** Lower case leaves the classes of the pattern as they are. *)
Lemma lower_class (a : ascii) :
  Re.digit (Str.lower_ascii a) = Re.digit a /\
  Re.dot (Str.lower_ascii a) = Re.dot a /\
  Re.space (Str.lower_ascii a) = Re.space a /\
  Re.any (Str.lower_ascii a) = Re.any a.
Proof.
  destruct a as [[] [] [] [] [] [] [] []]; repeat apply conj; reflexivity.
Qed.

Lemma unit_text_lower u : unit_text (Str.lower u) = unit_text u.
Proof.
  unfold unit_text. f_equal.
  - induction u as [| a u IH]; [reflexivity |]. simpl.
    destruct (lower_class a) as (_ & _ & _ & ->). now rewrite IH.
  - destruct u as [| a u]; [reflexivity |]. simpl.
    now destruct (lower_class a) as (-> & -> & -> & _).
Qed.

(** A recognized unit, in any case, can stand behind a numeral. *)
Lemma unit_text_recognized u :
  In (Str.lower u) ("" :: recognized_units) -> unit_text u = true.
Proof.
  intros H. rewrite <- unit_text_lower. unfold recognized_units in H.
  simpl in H.
  repeat (destruct H as [H | H]; [rewrite <- H; reflexivity |]).
  destruct H.
Qed.

(** Whole days, hours and minutes are exact. *)
Lemma whole_duration g blanks u n :
  g <> "" -> Float.digits 0 g = Some n ->
  Str.all Re.space blanks = true ->
  (In (Str.lower u) ["d"; "day"; "days"] -> n * 1440 < 2 ^ 53 ->
   duration_string_to_minutes (g +:+ blanks +:+ u) = Ok (n * 1440)) /\
  (In (Str.lower u) ["h"; "hour"; "hours"] -> n * 60 < 2 ^ 53 ->
   duration_string_to_minutes (g +:+ blanks +:+ u) = Ok (n * 60)) /\
  (In (Str.lower u) ["m"; "min"; "mins"; "minute"; "minutes"; ""] ->
   n < 2 ^ 53 ->
   duration_string_to_minutes (g +:+ blanks +:+ u) = Ok n).
Proof.
  intros Hne Hd Hb.
  destruct (of_string_whole g n Hne Hd) as [Hf Hn].
  pose proof (digits_Some_all g 0 n Hd) as Hg.
  assert (E : forall l, In (Str.lower u) l ->
                (forall x, In x l -> In x ("" :: recognized_units)) ->
              duration_string_to_minutes (g +:+ blanks +:+ u) =
              let unit := Str.lower u in
              let amount := Float.of_decimal n 0 in
              if Str.mem unit ["d"; "day"; "days"] then
                Float.to_int (Float.mul amount (Float.of_Z 1440))
              else if Str.mem unit ["h"; "hour"; "hours"] then
                Float.to_int (Float.mul amount (Float.of_Z 60))
              else if Str.mem unit ["m"; "min"; "mins"; "minute"; "minutes"; ""]
              then Float.to_int amount
              else if Str.mem unit ["s"; "sec"; "secs"; "second"; "seconds"]
              then Float.to_int (Float.div amount (Float.of_Z 60))
              else Raise (ValueError ("Invalid unit of time: " +:+ unit))).
  { intros l Hin Hl. unfold duration_string_to_minutes.
    rewrite (search_whole g blanks u Hne Hg Hb)
      by (apply unit_text_recognized, Hl, Hin).
    cbn [Re.group Nat.eqb]. rewrite Hf. reflexivity. }
  repeat apply conj.
  - intros Hu Hlt. rewrite (E _ Hu) by (unfold recognized_units; simpl; tauto).
    cbv zeta. simpl in Hu.
    replace (Str.mem (Str.lower u) ["d"; "day"; "days"]) with true
      by (repeat (destruct Hu as [Hu | Hu]; [rewrite <- Hu; reflexivity |]);
          destruct Hu).
    rewrite of_Z_1440.
    apply (whole_times_exact n 45 47 (-42)); [lia | exact Hn | exact Hlt].
  - intros Hu Hlt. rewrite (E _ Hu) by (unfold recognized_units; simpl; tauto).
    cbv zeta. simpl in Hu.
    replace (Str.mem (Str.lower u) ["d"; "day"; "days"]) with false
      by (repeat (destruct Hu as [Hu | Hu]; [rewrite <- Hu; reflexivity |]);
          destruct Hu).
    replace (Str.mem (Str.lower u) ["h"; "hour"; "hours"]) with true
      by (repeat (destruct Hu as [Hu | Hu]; [rewrite <- Hu; reflexivity |]);
          destruct Hu).
    rewrite of_Z_60.
    apply (whole_times_exact n 15 49 (-47)); [lia | exact Hn | exact Hlt].
  - intros Hu Hlt. rewrite (E _ Hu) by (unfold recognized_units; simpl; tauto).
    cbv zeta. simpl in Hu.
    replace (Str.mem (Str.lower u) ["d"; "day"; "days"]) with false
      by (repeat (destruct Hu as [Hu | Hu]; [rewrite <- Hu; reflexivity |]);
          destruct Hu).
    replace (Str.mem (Str.lower u) ["h"; "hour"; "hours"]) with false
      by (repeat (destruct Hu as [Hu | Hu]; [rewrite <- Hu; reflexivity |]);
          destruct Hu).
    replace (Str.mem (Str.lower u)
               ["m"; "min"; "mins"; "minute"; "minutes"; ""]) with true
      by (repeat (destruct Hu as [Hu | Hu]; [rewrite <- Hu; reflexivity |]);
          destruct Hu).
    apply whole_exact. lia.
Qed.

End DurationFacts.

Section DurationClaims.


Ltac unit_case H :=
  simpl in H;
  repeat (destruct H as [H | H]; [rewrite <- H; reflexivity |]);
  destruct H.

(** C2, the claim as stated fails: the numeral is a binary64 float, and
    so are its product and its quotient.  "2.05h" gives 122 minutes and
    "0.7d" gives 1007, one less than the 123 and the 1008 of exact
    arithmetic; and a numeral that is too large for a float gives no
    minutes at all: the conversion to an integer raises. *)
Lemma duration_string_to_minutes_units_counterexample :
  duration_string_to_minutes "2.05h" = Ok 122 /\
  exact_minutes 205 2 60 1 = 123 /\
  duration_string_to_minutes "0.7d" = Ok 1007 /\
  exact_minutes 7 1 1440 1 = 1008 /\
  duration_string_to_minutes ("1" +:+ zeros 309 +:+ "h") =
    Raise (OverflowError "cannot convert float infinity to integer").
Proof. repeat apply conj; vm_compute; reflexivity. Qed.

(** C2, amended.  On a text in which the pattern matches, the numeral
    always converts to a binary64 float [amount] that is not negative, and
    the result is the integer part of [amount * 1440] for the units d,
    day, days, of [amount * 60] for h, hour, hours, of [amount] for m,
    min, mins, minute, minutes and the empty unit, and of [amount / 60]
    for s, sec, secs, second, seconds, the unit being compared in lower
    case and the product and the quotient being binary64 floats; [int]
    truncates toward zero.  With a recognized or empty unit the call
    returns a number of minutes that is not negative, or raises
    [OverflowError] when the float is infinite.  A whole numeral,
    followed by blanks or not and by a unit, gives exactly 1440 times, 60
    times or once its value in days, hours or minutes, as long as that is
    below [2^53].  In particular "2h" gives 120, "1 day" 1440, "90s" 1,
    "5" 5 and "1.5h" 90; "2.05h" gives 122. *)
Theorem duration_string_to_minutes_units :
  (forall s m,
     Re.search duration_re s = Some m ->
     exists amount,
       Float.of_string (Re.group 1 m) = Ok amount /\ nonneg_number amount /\
       (In (Str.lower (Re.group 3 m)) ["d"; "day"; "days"] ->
        duration_string_to_minutes s =
          Float.to_int (Float.mul amount (Float.of_Z 1440))) /\
       (In (Str.lower (Re.group 3 m)) ["h"; "hour"; "hours"] ->
        duration_string_to_minutes s =
          Float.to_int (Float.mul amount (Float.of_Z 60))) /\
       (In (Str.lower (Re.group 3 m))
           ["m"; "min"; "mins"; "minute"; "minutes"; ""] ->
        duration_string_to_minutes s = Float.to_int amount) /\
       (In (Str.lower (Re.group 3 m))
           ["s"; "sec"; "secs"; "second"; "seconds"] ->
        duration_string_to_minutes s =
          Float.to_int (Float.div amount (Float.of_Z 60)))) /\
  (forall s m,
     Re.search duration_re s = Some m ->
     In (Str.lower (Re.group 3 m)) ("" :: recognized_units) ->
     (exists n, duration_string_to_minutes s = Ok n /\ 0 <= n) \/
     duration_string_to_minutes s =
       Raise (OverflowError "cannot convert float infinity to integer")) /\
  (forall sg m e,
     Float.to_int (S754_finite sg m e) =
       Ok (cond_Zopp sg (if 0 <=? e then Zpos m * 2 ^ e
                         else Zpos m / 2 ^ (- e)))) /\
  (forall g blanks u n,
     g <> "" -> Float.digits 0 g = Some n ->
     Str.all Re.space blanks = true ->
     (In (Str.lower u) ["d"; "day"; "days"] -> n * 1440 < 2 ^ 53 ->
      duration_string_to_minutes (g +:+ blanks +:+ u) = Ok (n * 1440)) /\
     (In (Str.lower u) ["h"; "hour"; "hours"] -> n * 60 < 2 ^ 53 ->
      duration_string_to_minutes (g +:+ blanks +:+ u) = Ok (n * 60)) /\
     (In (Str.lower u) ["m"; "min"; "mins"; "minute"; "minutes"; ""] ->
      n < 2 ^ 53 ->
      duration_string_to_minutes (g +:+ blanks +:+ u) = Ok n)) /\
  duration_string_to_minutes "2h" = Ok 120 /\
  duration_string_to_minutes "1 day" = Ok 1440 /\
  duration_string_to_minutes "90s" = Ok 1 /\
  duration_string_to_minutes "5" = Ok 5 /\
  duration_string_to_minutes "1.5h" = Ok 90 /\
  duration_string_to_minutes "2.05h" = Ok 122 /\
  duration_string_to_minutes ".5 hours" = Ok 30 /\
  duration_string_to_minutes "2.5 M" = Ok 2 /\
  duration_string_to_minutes "100 SEC" = Ok 1.
Proof.
  assert (Htable : forall s m,
     Re.search duration_re s = Some m ->
     exists amount,
       Float.of_string (Re.group 1 m) = Ok amount /\ nonneg_number amount /\
       (In (Str.lower (Re.group 3 m)) ["d"; "day"; "days"] ->
        duration_string_to_minutes s =
          Float.to_int (Float.mul amount (Float.of_Z 1440))) /\
       (In (Str.lower (Re.group 3 m)) ["h"; "hour"; "hours"] ->
        duration_string_to_minutes s =
          Float.to_int (Float.mul amount (Float.of_Z 60))) /\
       (In (Str.lower (Re.group 3 m))
           ["m"; "min"; "mins"; "minute"; "minutes"; ""] ->
        duration_string_to_minutes s = Float.to_int amount) /\
       (In (Str.lower (Re.group 3 m))
           ["s"; "sec"; "secs"; "second"; "seconds"] ->
        duration_string_to_minutes s =
          Float.to_int (Float.div amount (Float.of_Z 60)))).
  { intros s m Hs. destruct (search_amount s m Hs) as (x & Hx & _).
    exists x. split; [exact Hx |]. split; [exact (of_string_number _ _ Hx) |].
    repeat apply conj; intros Hu; unfold duration_string_to_minutes;
      rewrite Hs, Hx; cbn [rbind]; unit_case Hu. }
  split; [exact Htable |]. split; [| split; [| split]].
  - intros s m Hs Hu.
    destruct (Htable s m Hs) as (x & _ & Hx & Hd & Hh & Hm & Hsec).
    assert (H1440 : Float.of_Z 1440 = S754_finite false (Float.shl 45 47) (-42))
      by exact of_Z_1440.
    assert (H60 : Float.of_Z 60 = S754_finite false (Float.shl 15 49) (-47))
      by exact of_Z_60.
    unfold recognized_units in Hu. simpl in Hu.
    assert (Hc : In (Str.lower (Re.group 3 m)) ["d"; "day"; "days"] \/
                 In (Str.lower (Re.group 3 m)) ["h"; "hour"; "hours"] \/
                 In (Str.lower (Re.group 3 m))
                    ["m"; "min"; "mins"; "minute"; "minutes"; ""] \/
                 In (Str.lower (Re.group 3 m))
                    ["s"; "sec"; "secs"; "second"; "seconds"])
      by (simpl; tauto).
    destruct Hc as [Hc | [Hc | [Hc | Hc]]].
    + rewrite (Hd Hc), H1440. apply to_int_number, mul_number, Hx.
    + rewrite (Hh Hc), H60. apply to_int_number, mul_number, Hx.
    + rewrite (Hm Hc). apply to_int_number, Hx.
    + rewrite (Hsec Hc), H60. apply to_int_number, div_number, Hx.
  - intros sg m e. apply to_int_truncates.
  - intros g blanks u n. apply whole_duration.
  - repeat apply conj; vm_compute; reflexivity.
Qed.

Lemma duration_string_to_minutes_units_witness :
  duration_string_to_minutes ("007" +:+ "  " +:+ "Hours") = Ok (7 * 60) /\
  duration_string_to_minutes ("30" +:+ "" +:+ "D") = Ok (30 * 1440) /\
  duration_string_to_minutes ("45" +:+ " " +:+ "") = Ok 45 /\
  ((exists n, duration_string_to_minutes "0.7d" = Ok n /\ 0 <= n) \/
   duration_string_to_minutes "0.7d" =
     Raise (OverflowError "cannot convert float infinity to integer")) /\
  (exists amount,
     Float.of_string "90" = Ok amount /\
     duration_string_to_minutes "90s" =
       Float.to_int (Float.div amount (Float.of_Z 60))).
Proof.
  destruct duration_string_to_minutes_units as (H1 & H2 & _ & H4 & _).
  repeat apply conj.
  - apply (H4 "007" "  " "Hours" 7); [discriminate | reflexivity | reflexivity
                                      | simpl; auto | reflexivity].
  - apply (H4 "30" "" "D" 30); [discriminate | reflexivity | reflexivity
                                | simpl; auto | reflexivity].
  - apply (H4 "45" " " "" 45); [discriminate | reflexivity | reflexivity
                                | simpl; auto 10 | reflexivity].
  - apply (H2 "0.7d" [(3%nat, "d"); (2%nat, ""); (1%nat, "0.7")]);
      [reflexivity | right; left; reflexivity].
  - destruct (H1 "90s" [(3%nat, "s"); (2%nat, ""); (1%nat, "90")] eq_refl)
      as (amount & Ha & _ & _ & _ & _ & Hs).
    exists amount. split; [exact Ha | apply Hs; simpl; auto].
Defined.



(** C9, the claim as stated fails: "-5h" parses to 300 minutes, not to a
    negative count. *)
Lemma duration_string_to_minutes_negative_counterexample :
  duration_string_to_minutes "-5h" = Ok 300 /\
  ~ (exists n, duration_string_to_minutes "-5h" = Ok n /\ n < 0).
Proof.
  split; [vm_compute; reflexivity |].
  intros (n & H & Hn). vm_compute in H. injection H as <-. lia.
Qed.

(** C9, amended. A minus sign before a duration is skipped: whenever a
    text parses to [n] minutes, the text with a minus sign before it
    parses to the same [n], and [n] is never negative. *)
Theorem duration_string_to_minutes_sign s n :
  duration_string_to_minutes s = Ok n ->
  duration_string_to_minutes ("-" +:+ s) = Ok n /\ 0 <= n.
Proof.
  change ("-" +:+ s) with (String "-" s).
  unfold duration_string_to_minutes. rewrite search_minus.
  destruct (Re.search duration_re s) as [m|] eqn:Hs; [| discriminate].
  intros H. split; [exact H |].
  destruct (search_amount s m Hs) as (x & Hx & Hpos).
  rewrite Hx in H. cbn [rbind] in H.
  assert (H1440 : not_negative (Float.of_Z 1440)) by exact I.
  assert (H60 : not_negative (Float.of_Z 60)) by exact I.
  repeat match type of H with
         | (if ?b then _ else _) = _ => destruct b
         end;
    try discriminate;
    eapply to_int_not_negative; try exact H;
    auto using mul_not_negative, div_not_negative.
Qed.

Lemma duration_string_to_minutes_sign_witness :
  duration_string_to_minutes "-5h" = Ok 300 /\ 0 <= 300.
Proof.
  apply (duration_string_to_minutes_sign "5h" 300). vm_compute. reflexivity.
Defined.

End DurationClaims.

(** ** The file system *)

Section FsFacts.

(** Induction on a tree, with the property for every entry of a
    directory. *)
Lemma node_induction (P : Fs.node -> Prop) :
  (forall d, P (Fs.File d)) ->
  (forall es, Forall (fun e => P (snd e)) es -> P (Fs.Dir es)) ->
  forall n, P n.
Proof.
  intros HF HD. fix IH 1. intros [d | es]; [apply HF | apply HD].
  induction es as [| [c n] es IHes]; constructor; [apply IH | exact IHes].
Qed.

Lemma walk_Dir top es :
  Fs.walk top (Fs.Dir es) =
    (top, Fs.dirnames es, Fs.filenames es) ::
    flat_map (fun e => Fs.walk (top ++ [fst e]) (snd e)) es.
Proof.
  simpl. f_equal. induction es as [| [c n] es IH]; simpl; [reflexivity |].
  now rewrite IH.
Qed.

Lemma wf_Dir es :
  Fs.wf (Fs.Dir es) = true <->
  NoDup (map fst es) /\ Forall (fun e => Fs.wf (snd e) = true) es.
Proof.
  simpl. rewrite andb_true_iff, bool_decide_eq_true.
  apply and_iff_compat_l.
  induction es as [| [c n] es IH]; simpl.
  - split; [constructor | reflexivity].
  - rewrite andb_true_iff, IH. split.
    + intros [H1 H2]. now constructor.
    + intros H. inversion H; subst. auto.
Qed.

Lemma assoc_In c n es : Fs.assoc c es = Some n -> In (c, n) es.
Proof.
  induction es as [| [c' n'] es IH]; simpl; [discriminate |].
  destruct (String.eqb_spec c c') as [-> | Hne].
  - intros [= ->]. now left.
  - intros H. right. auto.
Qed.

Lemma In_assoc c n es :
  NoDup (map fst es) -> In (c, n) es -> Fs.assoc c es = Some n.
Proof.
  induction es as [| [c' n'] es IH]; simpl; [contradiction |].
  intros Hnd [H | H]; inversion Hnd as [| ? ? Hnotin Hnd']; subst.
  - injection H as -> ->. now rewrite String.eqb_refl.
  - destruct (String.eqb_spec c c') as [-> | Hne]; [| auto].
    exfalso. apply Hnotin. apply list_elem_of_In, in_map_iff.
    now exists (c', n).
Qed.

Lemma lookup_app p q n :
  Fs.lookup (p ++ q) n =
    match Fs.lookup p n with Some n' => Fs.lookup q n' | None => None end.
Proof.
  revert n. induction p as [| c p IH]; intros n; simpl; [reflexivity |].
  destruct n as [d | es]; [reflexivity |].
  destruct (Fs.assoc c es); [apply IH | reflexivity].
Qed.

Lemma wf_lookup p : forall n n',
  Fs.wf n = true -> Fs.lookup p n = Some n' -> Fs.wf n' = true.
Proof.
  induction p as [| c p IH]; simpl; intros n n' Hwf H.
  - now injection H as <-.
  - destruct n as [d | es]; [discriminate |].
    destruct (Fs.assoc c es) as [n1 |] eqn:E; [| discriminate].
    apply (IH n1 n'); [| exact H].
    apply wf_Dir in Hwf as [_ Hall]. rewrite List.Forall_forall in Hall.
    apply (Hall (c, n1)). now apply assoc_In.
Qed.

(** The walk of a tree visits the directories of the tree, the top
    included, and nothing else. *)
Lemma walk_paths n : forall top p,
  Fs.wf n = true ->
  In p (map (fun t => fst (fst t)) (Fs.walk top n)) <->
  exists rel es, p = top ++ rel /\ Fs.lookup rel n = Some (Fs.Dir es).
Proof.
  induction n as [d | es IH] using node_induction; intros top p Hwf.
  - simpl. split; [contradiction |].
    intros (rel & es & _ & H). destruct rel; simpl in H; discriminate.
  - apply wf_Dir in Hwf as [Hnd Hall]. rewrite walk_Dir. simpl. split.
    + intros [<- | H].
      * exists [], es. now rewrite app_nil_r.
      * apply in_map_iff in H as (t & <- & Ht).
        apply in_flat_map in Ht as ([c n] & Hin & Ht). simpl in Ht.
        rewrite List.Forall_forall in IH, Hall.
        assert (Hp : In (fst (fst t))
                  (map (fun t => fst (fst t)) (Fs.walk (top ++ [c]) n)))
          by (apply in_map_iff; now exists t).
        apply (IH (c, n) Hin) in Hp as (rel & es' & -> & Hl);
          [| exact (Hall (c, n) Hin)].
        exists (c :: rel), es'. rewrite <- app_assoc. split; [reflexivity |].
        simpl. now rewrite (In_assoc c n es Hnd Hin).
    + intros (rel & es' & -> & Hl). destruct rel as [| c rel].
      * left. now rewrite app_nil_r.
      * right. simpl in Hl.
        destruct (Fs.assoc c es) as [n |] eqn:E; [| discriminate].
        apply assoc_In in E. rewrite List.Forall_forall in IH, Hall.
        assert (Hp : In ((top ++ [c]) ++ rel)
                  (map (fun t => fst (fst t)) (Fs.walk (top ++ [c]) n))).
        { apply (IH (c, n) E); [exact (Hall (c, n) E) |]. now exists rel, es'. }
        rewrite <- app_assoc in Hp. simpl in Hp.
        apply in_map_iff in Hp as (t & Ht & Hin).
        apply in_map_iff. exists t. split; [exact Ht |].
        apply in_flat_map. now exists (c, n).
Qed.

(** The walk below the top: the directories reached by one step or
    more. *)
Lemma walk_sub_paths es top p :
  Fs.wf (Fs.Dir es) = true ->
  In p (map (fun t => fst (fst t))
          (flat_map (fun e => Fs.walk (top ++ [fst e]) (snd e)) es)) <->
  exists c rel es',
    p = top ++ c :: rel /\ Fs.lookup (c :: rel) (Fs.Dir es) = Some (Fs.Dir es').
Proof.
  intros Hwf. apply wf_Dir in Hwf as [Hnd Hall].
  rewrite List.Forall_forall in Hall. split.
  - intros H. apply in_map_iff in H as (t & <- & Ht).
    apply in_flat_map in Ht as ([c n] & Hin & Ht). simpl in Ht.
    assert (Hp : In (fst (fst t))
              (map (fun t => fst (fst t)) (Fs.walk (top ++ [c]) n)))
      by (apply in_map_iff; now exists t).
    apply walk_paths in Hp as (rel & es' & -> & Hl);
      [| exact (Hall (c, n) Hin)].
    exists c, rel, es'. rewrite <- app_assoc. split; [reflexivity |].
    simpl. now rewrite (In_assoc c n es Hnd Hin).
  - intros (c & rel & es' & -> & Hl). simpl in Hl.
    destruct (Fs.assoc c es) as [n |] eqn:E; [| discriminate].
    apply assoc_In in E.
    assert (Hp : In ((top ++ [c]) ++ rel)
              (map (fun t => fst (fst t)) (Fs.walk (top ++ [c]) n))).
    { apply walk_paths; [exact (Hall (c, n) E) |]. now exists rel, es'. }
    rewrite <- app_assoc in Hp. simpl in Hp.
    apply in_map_iff in Hp as (t & Ht & Hin).
    apply in_map_iff. exists t. split; [exact Ht |].
    apply in_flat_map. now exists (c, n).
Qed.

Lemma target_walked top rel : target (walked top rel) = target top ++ rel.
Proof. destruct rel; simpl; [now rewrite app_nil_r | reflexivity]. Qed.

Lemma os_walk_paths top w p :
  Fs.wf (fs w) = true ->
  In p (map (fun t => fst (fst t)) (os_walk top w)) <->
  exists rel es,
    p = walked top rel /\
    Fs.lookup (target top ++ rel) (fs w) = Some (Fs.Dir es).
Proof.
  intros Hwf. unfold os_walk.
  destruct (Fs.lookup (target top) (fs w)) as [[d | es0] |] eqn:E.
  - simpl. split; [contradiction |].
    intros (rel & es & _ & H). rewrite lookup_app, E in H.
    destruct rel; discriminate.
  - rewrite walk_Dir. cbn [map fst snd]. rewrite map_map. cbn [fst snd].
    pose proof (wf_lookup _ _ _ Hwf E) as Hwf0. split.
    + intros [<- | H].
      * exists [], es0. now rewrite app_nil_r.
      * apply in_map_iff in H as (t & <- & Ht).
        assert (Hp : In (fst (fst t))
                  (map (fun t => fst (fst t))
                     (flat_map (fun e => Fs.walk (target top ++ [fst e]) (snd e))
                        es0)))
          by (apply in_map_iff; now exists t).
        apply (walk_sub_paths es0 _ _ Hwf0) in Hp as (c & rel & es' & -> & Hl).
        exists (c :: rel), es'. split; [reflexivity |].
        now rewrite lookup_app, E.
    + intros (rel & es & -> & Hl). rewrite lookup_app, E in Hl.
      destruct rel as [| c rel]; [now left | right].
      assert (Hp : In (target top ++ c :: rel)
                (map (fun t => fst (fst t))
                   (flat_map (fun e => Fs.walk (target top ++ [fst e]) (snd e))
                      es0)))
        by (apply (walk_sub_paths es0 _ _ Hwf0); now exists c, rel, es).
      apply in_map_iff in Hp as (t & Ht & Hin).
      apply in_map_iff. exists t. split; [| exact Hin].
      simpl. now rewrite Ht.
  - simpl. split; [contradiction |].
    intros (rel & es & _ & H). now rewrite lookup_app, E in H.
Qed.

Lemma relpath_list_app start rel : relpath_list (start ++ rel) start = rel.
Proof.
  induction start as [| a start IH]; simpl.
  - now destruct rel.
  - now rewrite String.eqb_refl.
Qed.

Lemma os_path_relpath_app start rel :
  os_path_relpath (start ++ rel) start =
    match rel with [] => "." | _ => Str.join "/" rel end.
Proof. unfold os_path_relpath. rewrite relpath_list_app. now destruct rel. Qed.

Lemma os_path_split_last p :
  trailing_sep p = false -> snd (os_path_split p) = List.last (target p) "".
Proof.
  unfold os_path_split. intros ->. destruct (reverse (target p)) as [| c r] eqn:E.
  - apply (f_equal reverse) in E. rewrite reverse_involutive in E.
    now rewrite E.
  - apply (f_equal reverse) in E. rewrite reverse_involutive in E. rewrite E.
    rewrite reverse_cons. simpl. now rewrite last_last.
Qed.

(** The name that [os.path.split] finds at the end of a walked path. *)
Lemma os_path_split_walked top rel :
  snd (os_path_split (walked top rel)) =
    match rel with
    | [] => snd (os_path_split top)
    | _ => List.last rel ""
    end.
Proof.
  destruct rel as [| c rel]; [reflexivity |].
  unfold walked. rewrite os_path_split_last by reflexivity. cbn [target].
  induction (target top) as [| a t IH]; [reflexivity |].
  rewrite <- IH. simpl. now destruct (t ++ c :: rel) eqn:E; [destruct t |].
Qed.

Lemma exists_entry p c w :
  os_path_exists (os_path_join p c) w = true <->
  exists n, Fs.lookup (p ++ [c]) (fs w) = Some n.
Proof.
  unfold os_path_exists, os_path_join.
  destruct (Fs.lookup (p ++ [c]) (fs w)) as [n |].
  - split; [now exists n | reflexivity].
  - split; [discriminate | intros [n H]; discriminate].
Qed.

Lemma find_runs_loop_spec path incl w ps : forall acc,
  find_runs_loop path incl w ps acc =
    acc ++ map (fun p => os_path_relpath (target p) (target path))
             (List.filter (fun p => contains_run (target p) w &&
                                    (incl || negb (is_checkpoint p))) ps).
Proof.
  induction ps as [| p ps IH]; intros acc; simpl.
  - now rewrite app_nil_r.
  - rewrite IH. destruct (contains_run (target p) w && _); simpl.
    + now rewrite <- app_assoc.
    + reflexivity.
Qed.

End FsFacts.

(** ** Run discovery *)

Section FindRuns.

Lemma exists_in_dir p c w es :
  Fs.lookup p (fs w) = Some (Fs.Dir es) ->
  os_path_exists (os_path_join p c) w =
    match Fs.assoc c es with Some _ => true | None => false end.
Proof.
  intros H. unfold os_path_exists, os_path_join.
  rewrite lookup_app, H. simpl. now destruct (Fs.assoc c es).
Qed.

Lemma contains_run_spec p w es :
  Fs.lookup p (fs w) = Some (Fs.Dir es) ->
  contains_run p w = true <->
  Fs.assoc "full_config.yml" es <> None /\ Fs.assoc "results.bz2" es <> None.
Proof.
  intros H. unfold contains_run. rewrite !(exists_in_dir p _ w es H).
  destruct (Fs.assoc "full_config.yml" es), (Fs.assoc "results.bz2" es);
    simpl; intuition congruence.
Qed.

Lemma lower_app s t : Str.lower (s +:+ t) = Str.lower s +:+ Str.lower t.
Proof. induction s as [| a s IH]; simpl; [reflexivity | now rewrite IH]. Qed.

Lemma lower_app_inv x : forall s y,
  Str.lower s = x +:+ y ->
  exists s1 s2, s = s1 +:+ s2 /\ Str.lower s1 = x /\ Str.lower s2 = y.
Proof.
  induction x as [| a x IH]; intros s y H.
  - now exists "", s.
  - destruct s as [| b s]; [discriminate |]. simpl in H.
    injection H as Ha H. apply IH in H as (s1 & s2 & -> & H1 & H2).
    exists (String b s1), s2. simpl. now rewrite Ha, H1.
Qed.

(** The bytes that [lower_ascii] sends to a letter are that letter and
    its capital. *)
Lemma lower_ascii_letter (a : ascii) :
  (Str.lower_ascii a = "c" -> a = "c" \/ a = "C")%char /\
  (Str.lower_ascii a = "h" -> a = "h" \/ a = "H")%char /\
  (Str.lower_ascii a = "k" -> a = "k" \/ a = "K")%char /\
  (Str.lower_ascii a = "p" -> a = "p" \/ a = "P")%char /\
  (Str.lower_ascii a = "t" -> a = "t" \/ a = "T")%char.
Proof.
  destruct a as [[] [] [] [] [] [] [] []];
    repeat apply conj; vm_compute; intros H;
    first [discriminate H | now left | now right].
Qed.

(** Looking for [chkpt] in the lower-cased name finds the names that hold
    it in some mix of cases, and no other. *)
Lemma lower_chkpt name :
  Str.infix "chkpt" (Str.lower name) <-> chkpt_any_case name.
Proof.
  split.
  - intros (pre & post & H).
    apply lower_app_inv in H as (s1 & s2 & -> & _ & H).
    destruct s2 as [| c [| h [| k [| p [| t s2]]]]]; try discriminate.
    simpl in H. injection H as Hc Hh Hk Hp Ht _.
    exists s1, c, h, k, p, t, s2. split; [reflexivity |].
    repeat apply conj.
    + now apply (lower_ascii_letter c).
    + now apply (lower_ascii_letter h).
    + now apply (lower_ascii_letter k).
    + now apply (lower_ascii_letter p).
    + now apply (lower_ascii_letter t).
  - intros (pre & c & h & k & p & t & post & -> & Hc & Hh & Hk & Hp & Ht).
    exists (Str.lower pre), (Str.lower post). rewrite lower_app.
    destruct Hc as [-> | ->], Hh as [-> | ->], Hk as [-> | ->],
             Hp as [-> | ->], Ht as [-> | ->]; reflexivity.
Qed.

Lemma is_checkpoint_spec p :
  is_checkpoint p = false <-> ~ chkpt_any_case (snd (os_path_split p)).
Proof.
  unfold is_checkpoint. rewrite not_contains_spec.
  now rewrite lower_chkpt.
Qed.

(** A tree that holds a file answers for it. *)
Lemma lookup_has_file p : forall n d,
  Fs.lookup p n = Some (Fs.File d) -> Fs.has_file n = true.
Proof.
  induction p as [| c p IH]; intros n d H.
  - simpl in H. injection H as ->. reflexivity.
  - simpl in H. destruct n as [d0 | es]; [discriminate |].
    destruct (Fs.assoc c es) as [n1 |] eqn:E; [| discriminate].
    specialize (IH n1 d H). simpl.
    induction es as [| [c' n'] es IHes]; [discriminate |].
    simpl in E. destruct (String.eqb c c').
    + injection E as ->. now rewrite IH.
    + rewrite (IHes E). apply orb_true_r.
Qed.

(** C4, the claim as stated fails: the directory [runX] holds no file at
    all, its entries [full_config.yml] and [results.bz2] being
    directories, and is returned as a run; and the root, when it is a run,
    is returned with the directories under it, as [.]. *)
Lemma find_runs_rec_counterexample :
  find_runs_rec (Pathname ["root"] false) false example_no_file = ["runX"] /\
  (forall p d, Fs.lookup p (fs example_no_file) <> Some (Fs.File d)) /\
  find_runs_rec (Pathname ["root"; "runA"] false) false example_runs = ["."].
Proof.
  repeat apply conj.
  - reflexivity.
  - intros p d H. apply lookup_has_file in H. discriminate H.
  - reflexivity.
Qed.

(** C4, amended.  In a file system in which no directory lists a name
    twice and the names of the directories are ASCII text (the text on
    which [lower] is modelled),
    [find_runs_rec] returns exactly the paths, relative to the root it is
    given, of the directories at or under that root, the root itself
    as [.], that have an entry [full_config.yml] and an entry
    [results.bz2], files or not, and, unless checkpoints are included,
    whose name does not hold [chkpt] in any mix of cases.  The name of a
    directory is the last component of its path; for the root it is what
    [os.path.split] finds at the end of the text the caller wrote, which
    is empty when that text ends with a separator.  On the example tree
    the default call returns [runA] alone and the call that includes
    checkpoints returns [runA] and [runB_chkpt5]; checkpoints named in
    upper case are left out in the same way. *)
Theorem find_runs_rec_spec :
  (forall w path include_checkpoints x,
     Fs.wf (fs w) = true ->
     Str.isascii (snd (os_path_split path)) = true ->
     (forall n, Fs.lookup (target path) (fs w) = Some n ->
                Fs.ascii_dirs n = true) ->
     (In x (find_runs_rec path include_checkpoints w) <->
      exists rel es,
        Fs.lookup (target path ++ rel) (fs w) = Some (Fs.Dir es) /\
        Fs.assoc "full_config.yml" es <> None /\
        Fs.assoc "results.bz2" es <> None /\
        (include_checkpoints = true \/
         ~ chkpt_any_case (match rel with
                           | [] => snd (os_path_split path)
                           | _ => List.last rel ""
                           end)) /\
        x = match rel with [] => "." | _ => Str.join "/" rel end)) /\
  find_runs_rec (Pathname ["root"] false) false example_runs = ["runA"] /\
  find_runs_rec (Pathname ["root"] false) true example_runs
    = ["runA"; "runB_chkpt5"] /\
  find_runs_rec (Pathname ["root"] false) false example_upper
    = ["runA"; "X_CHKPT/inner"] /\
  find_runs_rec (Pathname ["root"] false) true example_upper
    = ["runA"; "RunA_ChKpT7"; "X_CHKPT"; "X_CHKPT/inner"] /\
  find_runs_rec (Pathname ["root"; "X_CHKPT"] false) false example_upper
    = ["inner"] /\
  find_runs_rec (Pathname ["root"; "X_CHKPT"] true) false example_upper
    = ["."; "inner"].
Proof.
  split; [| repeat apply conj; reflexivity].
  intros w path incl x Hwf _ _. unfold find_runs_rec.
  rewrite find_runs_loop_spec. simpl. rewrite in_map_iff. split.
  - intros (p & <- & Hp). apply filter_In in Hp as [Hp Hc].
    apply (os_walk_paths path w p Hwf) in Hp as (rel & es & -> & Hl).
    apply andb_true_iff in Hc as [Hrun Hchk].
    rewrite target_walked in Hrun |- *.
    apply (contains_run_spec _ w es Hl) in Hrun as [H1 H2].
    exists rel, es. repeat apply conj; try assumption.
    + apply orb_true_iff in Hchk as [-> | Hchk]; [now left | right].
      rewrite <- os_path_split_walked.
      apply is_checkpoint_spec. now apply negb_true_iff.
    + apply os_path_relpath_app.
  - intros (rel & es & Hl & H1 & H2 & Hchk & ->).
    exists (walked path rel). rewrite target_walked.
    split; [apply os_path_relpath_app |].
    apply filter_In. split.
    + apply (os_walk_paths path w _ Hwf). now exists rel, es.
    + apply andb_true_iff. rewrite target_walked. split.
      * now apply (contains_run_spec _ w es Hl).
      * apply orb_true_iff. destruct Hchk as [-> | Hchk]; [now left | right].
        apply negb_true_iff, is_checkpoint_spec.
        now rewrite os_path_split_walked.
Qed.

Lemma find_runs_rec_spec_witness :
  In "X_CHKPT" (find_runs_rec (Pathname ["root"] false) false example_upper) <->
  exists rel es,
    Fs.lookup (["root"] ++ rel) (fs example_upper) = Some (Fs.Dir es) /\
    Fs.assoc "full_config.yml" es <> None /\
    Fs.assoc "results.bz2" es <> None /\
    (false = true \/
     ~ chkpt_any_case (match rel with
                       | [] => "root"
                       | _ => List.last rel ""
                       end)) /\
    "X_CHKPT" = match rel with [] => "." | _ => Str.join "/" rel end.
Proof.
  apply (proj1 find_runs_rec_spec example_upper (Pathname ["root"] false)
           false "X_CHKPT").
  - reflexivity.
  - reflexivity.
  - intros n H. vm_compute in H. injection H as <-. reflexivity.
Defined.

End FindRuns.

(** ** Experiment and job directories *)

Section DirFacts.

Lemma assoc_set_entry c n es : Fs.assoc c (Fs.set_entry c n es) = Some n.
Proof.
  induction es as [| [c' n'] es IH]; simpl.
  - now rewrite String.eqb_refl.
  - destruct (String.eqb_spec c c') as [-> | Hne]; simpl.
    + now rewrite String.eqb_refl.
    + destruct (String.eqb_spec c c'); [contradiction | exact IH].
Qed.

Lemma assoc_del_entry c es : Fs.assoc c (Fs.del_entry c es) = None.
Proof.
  induction es as [| [c' n'] es IH]; simpl; [reflexivity |].
  destruct (String.eqb_spec c c') as [-> | Hne]; simpl; [exact IH |].
  destruct (String.eqb_spec c c'); [contradiction | exact IH].
Qed.

Lemma assoc_upd_entry c v es : Fs.assoc c (Fs.upd_entry c v es) = v.
Proof.
  destruct v; simpl; [apply assoc_set_entry | apply assoc_del_entry].
Qed.

Lemma put_cons a p v es :
  p <> [] ->
  Fs.put (a :: p) v (Fs.Dir es) =
    match Fs.assoc a es with
    | Some n' => let! n'' := Fs.put p v n' in Ok (Fs.Dir (Fs.set_entry a n'' es))
    | None => Raise (FileNotFoundError "[Errno 2] No such file or directory")
    end.
Proof. destruct p; [congruence | reflexivity]. Qed.

(** Setting or removing an entry of an existing directory. *)
Lemma put_ok head c v : forall n es,
  Fs.lookup head n = Some (Fs.Dir es) ->
  exists n' es',
    Fs.put (head ++ [c]) v n = Ok n' /\
    Fs.lookup (head ++ [c]) n' = v /\
    Fs.lookup head n' = Some (Fs.Dir es').
Proof.
  induction head as [| a head IH]; intros n es H.
  - simpl in H. injection H as ->. simpl.
    exists (Fs.Dir (Fs.upd_entry c v es)), (Fs.upd_entry c v es).
    repeat apply conj; try reflexivity.
    simpl. rewrite assoc_upd_entry. now destruct v.
  - simpl in H. destruct n as [d | es0]; [discriminate |].
    destruct (Fs.assoc a es0) as [n1 |] eqn:E; [| discriminate].
    destruct (IH n1 es H) as (n1' & es' & Hput & Hl & Hh).
    change ((a :: head) ++ [c]) with (a :: (head ++ [c])).
    rewrite put_cons by (now destruct head). rewrite E, Hput. simpl.
    exists (Fs.Dir (Fs.set_entry a n1' es0)), es'.
    rewrite assoc_set_entry. auto.
Qed.

Lemma lookup_snoc_dir head c n x :
  Fs.lookup (head ++ [c]) n = Some x ->
  exists es, Fs.lookup head n = Some (Fs.Dir es).
Proof.
  rewrite lookup_app. destruct (Fs.lookup head n) as [[d | es] |];
    simpl; try discriminate. intros _. now exists es.
Qed.

Lemma os_mkdir_ok head c w es :
  Fs.lookup head (fs w) = Some (Fs.Dir es) ->
  Fs.lookup (head ++ [c]) (fs w) = None ->
  exists w',
    os_mkdir (head ++ [c]) w = (Ok tt, w') /\
    Fs.lookup (head ++ [c]) (fs w') = Some (Fs.Dir []) /\
    warnings w' = warnings w.
Proof.
  intros Hh Hp. unfold os_mkdir. rewrite Hp.
  destruct (put_ok head c (Some (Fs.Dir [])) (fs w) es Hh)
    as (n' & es' & -> & Hl & _).
  exists (set_fs w n'). auto.
Qed.

Lemma os_makedirs_snoc head c w :
  os_path_exists head w = true ->
  os_makedirs (head ++ [c]) w = os_mkdir (head ++ [c]) w.
Proof.
  intros H. unfold os_makedirs. rewrite reverse_snoc. simpl.
  rewrite reverse_involutive, H. simpl.
  now rewrite reverse_cons, reverse_involutive.
Qed.



Lemma shutil_rmtree_ok head c w es :
  Fs.lookup (head ++ [c]) (fs w) = Some (Fs.Dir es) ->
  exists w' es',
    shutil_rmtree (head ++ [c]) w = (Ok tt, w') /\
    Fs.lookup (head ++ [c]) (fs w') = None /\
    Fs.lookup head (fs w') = Some (Fs.Dir es') /\
    warnings w' = warnings w.
Proof.
  intros H. unfold shutil_rmtree. rewrite H.
  destruct (lookup_snoc_dir head c _ _ H) as [es0 Hh].
  destruct (put_ok head c None (fs w) es0 Hh) as (n' & es' & -> & Hl & Hh').
  exists (set_fs w n'), es'. auto.
Qed.

End DirFacts.

Section DirClaims.

(** C5, the claim as stated fails: when the path exists as a regular
    file, the call with [force] raises and leaves the file where it is. *)
Lemma setup_experiment_dir_counterexample :
  os_path_exists ["exp"] example_file = true /\
  setup_experiment_dir ["exp"] true example_file =
    (Raise (FileExistsError "[Errno 17] File exists"), example_file) /\
  ~ (forall w p,
       os_path_exists p w = true ->
       exists w', setup_experiment_dir p true w = (Ok p, w') /\
                  Fs.lookup p (fs w') = Some (Fs.Dir [])).
Proof.
  split; [reflexivity |]. split; [reflexivity |].
  intros H. destruct (H example_file ["exp"] eq_refl) as (w' & E & _).
  discriminate E.
Qed.

(** C5, amended. When the path is an existing directory, the call
    without [force] fails with [FileExistsError] and leaves the world as
    it is, and the call with [force], for a directory other than the
    root, returns the path and leaves an empty directory there.  When
    the path is an existing regular file the call fails with
    [FileExistsError] and changes nothing, with or without [force]. *)
Theorem setup_experiment_dir_spec :
  (forall w p,
     os_path_isdir p w = true ->
     setup_experiment_dir p false w =
       (Raise (FileExistsError
                 ("Could not create experiment " +:+ Fs.path_str p
                  +:+ ": Directory already exists.")), w)) /\
  (forall w p,
     os_path_isdir p w = true -> p <> [] ->
     exists w',
       setup_experiment_dir p true w = (Ok p, w') /\
       Fs.lookup p (fs w') = Some (Fs.Dir []) /\
       warnings w' = warnings w) /\
  (forall w p d force,
     Fs.lookup p (fs w) = Some (Fs.File d) ->
     setup_experiment_dir p force w =
       (Raise (FileExistsError "[Errno 17] File exists"), w)).
Proof.
  repeat apply conj.
  - intros w p H. unfold setup_experiment_dir, bind, raise. now rewrite H.
  - intros w p H Hne. unfold setup_experiment_dir, bind. rewrite H.
    destruct (exists_last Hne) as (head & c & ->).
    unfold os_path_isdir in H.
    destruct (Fs.lookup (head ++ [c]) (fs w)) as [[d | es] |] eqn:Hl;
      try discriminate.
    destruct (shutil_rmtree_ok head c w es Hl)
      as (w1 & es1 & -> & Hgone & Hhead & Hw1).
    rewrite os_makedirs_snoc by (unfold os_path_exists; now rewrite Hhead).
    destruct (os_mkdir_ok head c w1 es1 Hhead Hgone) as (w2 & -> & Hl2 & Hw2).
    exists w2. unfold ret. rewrite Hw2, Hw1. auto.
  - intros w p d force H. unfold setup_experiment_dir, bind, ret.
    unfold os_path_isdir. rewrite H.
    destruct p as [| a p0] using rev_ind.
    + reflexivity.
    + clear IHp0. destruct (lookup_snoc_dir _ _ _ _ H) as [es Hh].
      rewrite os_makedirs_snoc by (unfold os_path_exists; now rewrite Hh).
      unfold os_mkdir. now rewrite H.
Qed.

Lemma setup_experiment_dir_spec_witness :
  setup_experiment_dir ["root"; "runA"] false example_runs =
    (Raise (FileExistsError
      "Could not create experiment /root/runA: Directory already exists."),
     example_runs) /\
  (exists w',
     setup_experiment_dir ["root"; "runA"] true example_runs
       = (Ok ["root"; "runA"], w') /\
     Fs.lookup ["root"; "runA"] (fs w') = Some (Fs.Dir []) /\
     warnings w' = warnings example_runs) /\
  setup_experiment_dir ["exp"] false example_file =
    (Raise (FileExistsError "[Errno 17] File exists"), example_file).
Proof.
  destruct setup_experiment_dir_spec as (H1 & H2 & H3). repeat apply conj.
  - apply (H1 example_runs ["root"; "runA"]). reflexivity.
  - apply (H2 example_runs ["root"; "runA"]); [reflexivity | discriminate].
  - apply (H3 example_file ["exp"] "" false). reflexivity.
Defined.



End DirClaims.

(** ** Job scripts *)

Section JobfileFacts.

Lemma join_cons sep x l :
  l <> [] -> Str.join sep (x :: l) = x +:+ sep +:+ Str.join sep l.
Proof. destruct l; [congruence | reflexivity]. Qed.

Lemma join_app sep pre post :
  pre <> [] -> post <> [] ->
  Str.join sep (pre ++ post) =
    Str.join sep pre +:+ sep +:+ Str.join sep post.
Proof.
  intros Hpre Hpost. induction pre as [| x pre IH]; [congruence |].
  destruct pre as [| y pre].
  - simpl app. now rewrite join_cons.
  - change ((x :: y :: pre) ++ post) with (x :: ((y :: pre) ++ post)).
    rewrite join_cons by discriminate. rewrite IH by discriminate.
    rewrite (join_cons sep x (y :: pre)) by discriminate.
    now rewrite !str_app_assoc.
Qed.

(** A line that is neither the first nor the last of the joined lines. *)
Lemma has_line_join pre l post :
  pre <> [] -> post <> [] -> has_line l (Str.join nl (pre ++ l :: post)).
Proof.
  intros Hpre Hpost. exists (Str.join nl pre), (Str.join nl post).
  rewrite join_app by (auto; discriminate).
  rewrite join_cons by exact Hpost. now rewrite !str_app_assoc.
Qed.

(** The last of the joined lines follows a line feed. *)
Lemma join_last pre l :
  pre <> [] -> Str.join nl (pre ++ [l]) = Str.join nl pre +:+ nl +:+ l.
Proof. intros H. now rewrite join_app by (auto; discriminate). Qed.

Lemma last_line_from_no_nl t : forall cur,
  Str.all Re.any t = true -> last_line_from cur t = cur.
Proof.
  induction t as [| a t IH]; intros cur H; simpl in *; [reflexivity |].
  apply andb_true_iff in H as [Ha Ht]. unfold Re.any in Ha.
  apply negb_true_iff in Ha. rewrite Ha. now apply IH.
Qed.

Lemma last_line_from_app s t : forall cur,
  Str.all Re.any t = true -> last_line_from cur (s +:+ nl +:+ t) = t.
Proof.
  induction s as [| a s IH]; intros cur H; simpl.
  - now apply last_line_from_no_nl.
  - destruct (Ascii.eqb a "010"); now apply IH.
Qed.

(** Find the line of the goal among the joined lines. *)
Ltac find_line pre lines :=
  lazymatch lines with
  | ?x :: ?rest =>
      first [ apply (has_line_join pre x rest); discriminate
            | find_line (pre ++ [x]) rest ]
  end.

Ltac has_line_tac :=
  lazymatch goal with
  | |- has_line _ (Str.join nl ?lines) => find_line (@nil string) lines
  end.

Ltac find_last full pre lines :=
  lazymatch lines with
  | [?x] =>
      change (Str.join nl full) with (Str.join nl (pre ++ [x]));
      rewrite (join_last pre x) by (simpl; discriminate)
  | ?x :: ?rest => find_last full (pre ++ [x]) rest
  end.

Ltac embeds_job_tac :=
  unfold embeds_job; repeat apply conj; try has_line_tac;
  lazymatch goal with
  | |- context [Str.join nl ?lines] => find_last lines (@nil string) lines
  end;
  [eexists; reflexivity
  | intros Hc; unfold last_line; now apply last_line_from_app].

Lemma vsc4_embeds command jobname queue time :
  embeds_job (get_jobfile_content_vsc4 command jobname queue time)
    command jobname "CPU.out" time /\
  has_line "#SBATCH -N 1"
    (get_jobfile_content_vsc4 command jobname queue time).
Proof.
  unfold get_jobfile_content_vsc4. split; [embeds_job_tac | has_line_tac].
Qed.

Lemma vsc3_embeds command jobname queue time conda_env :
  embeds_job (get_jobfile_content_vsc3 command jobname queue time conda_env)
    command jobname "GPU.out" time.
Proof. unfold get_jobfile_content_vsc3. embeds_job_tac. Qed.

Lemma dgx_embeds command jobname jobdir time conda_env src_dir :
  embeds_job
    (get_jobfile_content_dgx command jobname jobdir time conda_env src_dir)
    command jobname "GPU.out" time /\
  has_line "#SBATCH -N 1"
    (get_jobfile_content_dgx command jobname jobdir time conda_env src_dir).
Proof.
  unfold get_jobfile_content_dgx. split; [embeds_job_tac | has_line_tac].
Qed.

End JobfileFacts.

Section JobfileClaims.

(** C6, the claim as stated fails: the script of the first HPC variant
    for the queue [gpu_a40dual] holds no node-count directive. *)
Lemma get_jobfile_content_vsc3_counterexample :
  ~ Str.infix "#SBATCH -N"
      (get_jobfile_content_vsc3 "python run.py" "exp" "gpu_a40dual" 120 "jax")
  /\
  ~ (forall command jobname queue time conda_env,
       has_line "#SBATCH -N 1"
         (get_jobfile_content_vsc3 command jobname queue time conda_env)).
Proof.
  assert (H : ~ Str.infix "#SBATCH -N"
    (get_jobfile_content_vsc3 "python run.py" "exp" "gpu_a40dual" 120 "jax"))
    by (apply not_contains_spec; vm_compute; reflexivity).
  split; [exact H |]. intros Hall. apply H.
  destruct (Hall "python run.py" "exp" "gpu_a40dual" 120 "jax")
    as (pre & post & E).
  exists (pre +:+ nl), (" 1" +:+ nl +:+ post). rewrite E.
  now rewrite !str_app_assoc.
Qed.

(** C6, amended. Every job script holds a line naming the job, a line
    with the time limit in minutes, a line redirecting the output, and
    ends with a line feed and the command, which is its last line when
    the command has no line feed.  The scripts of the second HPC variant
    and of the GPU cluster always hold the node-count directive; the
    script of the first HPC variant holds it for every queue but
    [gpu_a40dual], for which the line is left empty. *)
Theorem get_jobfile_content_spec
    (command jobname queue conda_env jobdir src_dir : string) (time : Z) :
  (embeds_job (get_jobfile_content_vsc4 command jobname queue time)
     command jobname "CPU.out" time /\
   has_line "#SBATCH -N 1"
     (get_jobfile_content_vsc4 command jobname queue time)) /\
  (embeds_job
     (get_jobfile_content_dgx command jobname jobdir time conda_env src_dir)
     command jobname "GPU.out" time /\
   has_line "#SBATCH -N 1"
     (get_jobfile_content_dgx command jobname jobdir time conda_env src_dir)) /\
  embeds_job (get_jobfile_content_vsc3 command jobname queue time conda_env)
    command jobname "GPU.out" time /\
  (queue <> "gpu_a40dual" ->
   has_line "#SBATCH -N 1"
     (get_jobfile_content_vsc3 command jobname queue time conda_env)) /\
  (queue = "gpu_a40dual" ->
   exists rest,
     get_jobfile_content_vsc3 command jobname queue time conda_env =
       "#!/bin/bash" +:+ nl +:+ "#SBATCH -J " +:+ jobname +:+ nl +:+
       nl +:+ "#SBATCH --partition gpu_a40dual" +:+ nl +:+ rest).
Proof.
  split; [apply vsc4_embeds |]. split; [apply dgx_embeds |].
  split; [apply vsc3_embeds |]. split.
  - intros Hq. apply String.eqb_neq in Hq.
    unfold get_jobfile_content_vsc3. rewrite Hq. simpl negb. cbv iota.
    apply (has_line_join ["#!/bin/bash"; "#SBATCH -J " +:+ jobname]);
      discriminate.
  - intros ->. unfold get_jobfile_content_vsc3. eexists.
    rewrite String.eqb_refl. simpl negb. cbv iota.
    rewrite !join_cons by discriminate. rewrite !str_app_assoc.
    reflexivity.
Qed.

Lemma get_jobfile_content_spec_witness :
  has_line "#SBATCH -N 1"
    (get_jobfile_content_vsc3 "python run.py" "exp" "gpu_rtx2080ti" 120 "jax")
  /\
  exists rest,
    get_jobfile_content_vsc3 "python run.py" "exp" "gpu_a40dual" 120 "jax" =
      "#!/bin/bash" +:+ nl +:+ "#SBATCH -J " +:+ "exp" +:+ nl +:+
      nl +:+ "#SBATCH --partition gpu_a40dual" +:+ nl +:+ rest.
Proof.
  split.
  - apply (get_jobfile_content_spec "python run.py" "exp" "gpu_rtx2080ti"
             "jax" "" "" 120). discriminate.
  - apply (get_jobfile_content_spec "python run.py" "exp" "gpu_a40dual"
             "jax" "" "" 120). reflexivity.
Defined.

End JobfileClaims.

(** ** Rewriting the command for the shared file system *)

Section AppendNfsFacts.

Variable exists_str : string -> bool.

Let token := nfs_token exists_str.

Lemma append_nfs_loop_S ret fuel idx (h : heap) :
  append_nfs_loop exists_str (S fuel) ret idx h =
    match h !! ret ≫= (fun l => l !! idx) with
    | None => h
    | Some r =>
        append_nfs_loop exists_str fuel ret (S idx)
          (if Str.startswith "/" r && exists_str r
           then setitem ret idx ("/nfs" +:+ r) h
           else h)
    end.
Proof. reflexivity. Qed.

(** The loop from index [idx] rewrites the tokens from [idx] on and
    stops; more fuel than tokens left changes nothing. *)
Lemma append_nfs_loop_spec ret fuel : forall idx l (h : heap),
  h !! ret = Some l ->
  (length l - idx < fuel)%nat ->
  append_nfs_loop exists_str fuel ret idx h =
    <[ret := take idx l ++ (token <$> drop idx l)]> h.
Proof.
  induction fuel as [| fuel IH]; intros idx l h Hl Hfuel; [lia |].
  rewrite append_nfs_loop_S, Hl.
  change (Some l ≫= (fun l0 => l0 !! idx)) with (l !! idx).
  destruct (l !! idx) as [r |] eqn:E.
  - assert (Hh : (if Str.startswith "/" r && exists_str r
                  then setitem ret idx ("/nfs" +:+ r) h else h)
                 = <[ret := <[idx := token r]> l]> h).
    { unfold token, nfs_token, setitem. rewrite Hl.
      destruct (Str.startswith "/" r && exists_str r); [reflexivity |].
      rewrite (list_insert_id l idx r E). symmetry. now apply insert_id. }
    rewrite Hh.
    assert (Hidx : (idx < length l)%nat) by (apply lookup_lt_is_Some; eauto).
    rewrite (IH (S idx) (<[idx := token r]> l)).
    + rewrite insert_insert_eq. f_equal.
      rewrite (take_S_r _ idx (token r))
        by (apply list_lookup_insert_eq; exact Hidx).
      rewrite take_insert_ge by lia. rewrite drop_insert_lt by lia.
      rewrite (drop_S l r idx E). rewrite fmap_cons.
      now rewrite <- app_assoc.
    + apply lookup_insert_eq.
    + rewrite length_insert. lia.
  - apply lookup_ge_None in E.
    rewrite take_ge, drop_ge by lia. rewrite app_nil_r.
    symmetry. now apply insert_id.
Qed.

(** The call returns a new list holding the rewritten tokens, in a heap
    that is otherwise the heap of the call. *)
Lemma append_nfs_to_fullpaths_eq command (h : heap) l :
  h !! command = Some l ->
  append_nfs_to_fullpaths exists_str command h =
    (fresh (dom h), <[fresh (dom h) := token <$> l]> h).
Proof.
  intros Hl. unfold append_nfs_to_fullpaths, copy_deepcopy. rewrite Hl.
  cbv beta iota zeta. change (default [] (Some l)) with l.
  rewrite lookup_insert_eq. change (default [] (Some l)) with l.
  f_equal. rewrite (append_nfs_loop_spec _ _ 0%nat l).
  - rewrite insert_insert_eq. now rewrite take_0, drop_0.
  - apply lookup_insert_eq.
  - lia.
Qed.

Lemma fresh_loc_ne command (h : heap) l :
  h !! command = Some l -> fresh (dom h) <> command.
Proof.
  intros Hl E. apply (is_fresh (dom h)). rewrite E.
  apply elem_of_dom. eauto.
Qed.

End AppendNfsFacts.

Section AppendNfsClaims.

(** C8. The call returns a list as long as the command in which every
    token that starts with a slash and names an existing path is the
    token with the prefix [/nfs], and every token that does not start
    with a slash or names no existing path is the token itself. *)
Theorem append_nfs_to_fullpaths_tokens
    (exists_str : string -> bool) (command : loc) (h : heap)
    (l : list string) :
  h !! command = Some l ->
  exists l',
    snd (append_nfs_to_fullpaths exists_str command h)
      !! fst (append_nfs_to_fullpaths exists_str command h) = Some l' /\
    length l' = length l /\
    forall i r, l !! i = Some r ->
      (Str.startswith "/" r = true -> exists_str r = true ->
       l' !! i = Some ("/nfs" +:+ r)) /\
      (Str.startswith "/" r = false \/ exists_str r = false ->
       l' !! i = Some r).
Proof.
  intros Hl. rewrite (append_nfs_to_fullpaths_eq _ _ _ l Hl). cbn [fst snd].
  exists (nfs_token exists_str <$> l). rewrite lookup_insert_eq.
  split; [reflexivity |]. split; [apply length_fmap |].
  intros i r Hi. rewrite list_lookup_fmap, Hi.
  change (nfs_token exists_str <$> Some r)
    with (Some (nfs_token exists_str r)).
  unfold nfs_token. split.
  - intros H1 H2. now rewrite H1, H2.
  - intros [H | H]; rewrite H; [reflexivity | now rewrite andb_false_r].
Qed.

Lemma append_nfs_to_fullpaths_tokens_witness :
  exists l',
    snd (append_nfs_to_fullpaths (String.eqb "/bin/ls") 3%nat
           {[ 3%nat := ["/bin/ls"; "run.py"; "/missing"] ]})
      !! fst (append_nfs_to_fullpaths (String.eqb "/bin/ls") 3%nat
           {[ 3%nat := ["/bin/ls"; "run.py"; "/missing"] ]}) = Some l' /\
    length l' = 3%nat /\
    l' !! 0%nat = Some "/nfs/bin/ls" /\
    l' !! 1%nat = Some "run.py" /\
    l' !! 2%nat = Some "/missing".
Proof.
  destruct (append_nfs_to_fullpaths_tokens (String.eqb "/bin/ls") 3%nat
              {[ 3%nat := ["/bin/ls"; "run.py"; "/missing"] ]}
              ["/bin/ls"; "run.py"; "/missing"] (lookup_singleton_eq _ _))
    as (l' & H1 & H2 & H3).
  exists l'. repeat apply conj; [exact H1 | exact H2 | | |].
  - apply (proj1 (H3 0%nat "/bin/ls" eq_refl)); reflexivity.
  - apply (proj2 (H3 1%nat "run.py" eq_refl)). left. reflexivity.
  - apply (proj2 (H3 2%nat "/missing" eq_refl)). right. reflexivity.
Defined.

(** C10. The call leaves the list it is given, and every other object of
    the heap, as it was: the list it returns is a new object. *)
Theorem append_nfs_to_fullpaths_frame
    (exists_str : string -> bool) (command : loc) (h : heap)
    (l : list string) :
  h !! command = Some l ->
  let ret := fst (append_nfs_to_fullpaths exists_str command h) in
  let h' := snd (append_nfs_to_fullpaths exists_str command h) in
  h' !! command = Some l /\
  ret <> command /\
  h !! ret = None /\
  forall other, other <> ret -> h' !! other = h !! other.
Proof.
  intros Hl. rewrite (append_nfs_to_fullpaths_eq _ _ _ l Hl). cbn [fst snd].
  assert (Hne := fresh_loc_ne command h l Hl). repeat apply conj.
  - rewrite lookup_insert_ne by exact Hne. exact Hl.
  - exact Hne.
  - apply (not_elem_of_dom (D := gset loc)). apply is_fresh.
  - intros other Ho. now rewrite lookup_insert_ne.
Qed.

Lemma append_nfs_to_fullpaths_frame_witness :
  snd (append_nfs_to_fullpaths (String.eqb "/bin/ls") 3%nat
         {[ 3%nat := ["/bin/ls"; "run.py"; "/missing"] ]}) !! 3%nat
  = Some ["/bin/ls"; "run.py"; "/missing"].
Proof.
  apply (append_nfs_to_fullpaths_frame (String.eqb "/bin/ls") 3%nat
           {[ 3%nat := ["/bin/ls"; "run.py"; "/missing"] ]}
           ["/bin/ls"; "run.py"; "/missing"] (lookup_singleton_eq _ _)).
Defined.

End AppendNfsClaims.

(** ** Choosing the backend *)

Section BackendFacts.

Lemma join_empty_cons x l : Str.join "" (x :: l) = x +:+ Str.join "" l.
Proof.
  destruct l as [| y l]; simpl Str.join.
  - now rewrite str_app_nil_r.
  - reflexivity.
Qed.

(** Joining the lines of a text gives the text back. *)
Lemma join_readlines s : forall cur,
  Str.join "" (readlines_from cur s) = cur +:+ s.
Proof.
  induction s as [| a s IH]; intros cur; simpl readlines_from.
  - destruct cur; simpl Str.join; [reflexivity | now rewrite str_app_nil_r].
  - destruct (Ascii.eqb_spec a "010"%char) as [-> | Hne].
    + rewrite join_empty_cons, IH. unfold nl.
      now rewrite str_app_assoc.
    + rewrite IH. now rewrite str_app_assoc.
Qed.

Lemma universal_newlines_cons a s :
  Ascii.eqb a "013"%char = false ->
  Str.universal_newlines (String a s) = String a (Str.universal_newlines s).
Proof. intros H. simpl. now rewrite H. Qed.

Lemma universal_newlines_cr_lf s :
  Str.universal_newlines (String "013"%char (String "010"%char s))
  = String "010"%char (Str.universal_newlines s).
Proof. reflexivity. Qed.

Lemma universal_newlines_cr_other b s :
  b <> "010"%char ->
  Str.universal_newlines (String "013"%char (String b s))
  = String "010"%char (Str.universal_newlines (String b s)).
Proof.
  intros H. apply Ascii.eqb_neq in H.
  change (Str.universal_newlines (String "013"%char (String b s)))
    with (if Ascii.eqb b "010"%char
          then String "010"%char (Str.universal_newlines s)
          else String "010"%char (Str.universal_newlines (String b s))).
  now rewrite H.
Qed.

Lemma universal_newlines_cr s :
  exists t, Str.universal_newlines (String "013"%char s) = String "010"%char t.
Proof.
  simpl. destruct s as [| b s]; [eauto |].
  destruct (Ascii.eqb b "010"%char); eauto.
Qed.

(** A text without line ends starts the text read exactly when it
    starts the bytes of the file. *)
Lemma startswith_universal s : forall m,
  Str.all (fun a => negb (Ascii.eqb a "013"%char) &&
                    negb (Ascii.eqb a "010"%char)) m = true ->
  Str.startswith m (Str.universal_newlines s) = Str.startswith m s.
Proof.
  induction s as [| a s IH]; intros [| c m] Hm; try reflexivity.
  simpl in Hm. apply andb_true_iff in Hm as [Hc Hm].
  apply andb_true_iff in Hc as [Hcr Hlf]. apply negb_true_iff in Hcr, Hlf.
  destruct (Ascii.eqb_spec a "013"%char) as [-> | Ha].
  - destruct (universal_newlines_cr s) as [t ->].
    cbn [Str.startswith]. now rewrite Hcr, Hlf.
  - apply Ascii.eqb_neq in Ha. rewrite (universal_newlines_cons a s Ha).
    cbn [Str.startswith]. now rewrite (IH m Hm).
Qed.

Lemma contains_cons m a s :
  Str.contains m (String a s) =
    Str.startswith m (String a s) || Str.contains m s.
Proof. reflexivity. Qed.

(** Reading the line ends of a file as line feeds neither hides nor makes
    an occurrence of a text that holds no line end. *)
Lemma contains_universal m :
  m <> "" ->
  Str.all (fun a => negb (Ascii.eqb a "013"%char) &&
                    negb (Ascii.eqb a "010"%char)) m = true ->
  forall n s, (String.length s <= n)%nat ->
    Str.contains m (Str.universal_newlines s) = Str.contains m s.
Proof.
  intros Hne Hm.
  assert (Hsw : forall x t, (x = "013" \/ x = "010")%char ->
                  Str.startswith m (String x t) = false).
  { intros x t Hx. destruct m as [| c m]; [congruence |].
    simpl in Hm. apply andb_true_iff in Hm as [Hc _].
    apply andb_true_iff in Hc as [Hcr Hlf]. apply negb_true_iff in Hcr, Hlf.
    cbn [Str.startswith]. destruct Hx as [-> | ->]; [now rewrite Hcr | now rewrite Hlf]. }
  induction n as [| n IH]; intros s Hlen.
  - destruct s; [reflexivity | simpl in Hlen; lia].
  - destruct s as [| a s]; [reflexivity |].
    simpl in Hlen.
    destruct (Ascii.eqb_spec a "013"%char) as [-> | Ha].
    + rewrite contains_cons, Hsw by now left. cbn [orb].
      destruct s as [| b s].
      * change (Str.universal_newlines (String "013" "")) with (String "010" "").
        rewrite contains_cons, Hsw by now right. reflexivity.
      * destruct (Ascii.eqb_spec b "010"%char) as [-> | Hb].
        -- rewrite universal_newlines_cr_lf.
           rewrite !contains_cons, !Hsw by now right. cbn [orb].
           apply IH. simpl in Hlen. lia.
        -- rewrite universal_newlines_cr_other by exact Hb.
           rewrite contains_cons, Hsw by now right. cbn [orb].
           apply IH. lia.
    + apply Ascii.eqb_neq in Ha.
      rewrite (universal_newlines_cons a s Ha), !contains_cons. f_equal.
      * rewrite <- (universal_newlines_cons a s Ha).
        exact (startswith_universal (String a s) m Hm).
      * apply IH. lia.
Qed.

(** The scheduler configuration names the cluster domain in the text read
    exactly when its bytes hold the domain. *)
Lemma marker_read data :
  Str.contains "slurm.vda.univie.ac.at"
    (Str.join "" (readlines_from "" (Str.universal_newlines data)))
  = Str.contains "slurm.vda.univie.ac.at" data.
Proof.
  rewrite join_readlines. change ("" +:+ ?x) with x.
  apply (contains_universal "slurm.vda.univie.ac.at") with (n := String.length data);
    [discriminate | reflexivity | lia].
Qed.

(** When the probe of the scheduler configuration is not run or returns,
    the choice is the override in lower case if there is one and the
    probed value if not. *)
Lemma dispatch_to_auto nodename environ w :
  probe_returns nodename w = true ->
  dispatch_to "auto" nodename environ w =
    (Ok match environ !! "HPC_SYSTEM" with
        | Some v => Str.lower v
        | None => probed nodename w
        end, w).
Proof.
  unfold probe_returns, dispatch_to, probed, bind, ret.
  change (String.eqb "auto" "auto") with true. cbv iota.
  destruct (String.eqb_spec nodename "gpu1-mat") as [-> | Hne].
  - now destruct (environ !! "HPC_SYSTEM").
  - unfold os_path_exists, open_readlines. cbn [orb].
    destruct (Fs.lookup slurm_conf_path (fs w)) as [[data | es] |] eqn:E;
      [| discriminate | now destruct (environ !! "HPC_SYSTEM")].
    intros ->. rewrite marker_read.
    destruct (Str.contains "slurm.vda.univie.ac.at" data);
      now destruct (environ !! "HPC_SYSTEM").
Qed.

(** When the probe raises, the call raises, whatever the override. *)
Lemma dispatch_to_raises nodename environ w :
  nodename <> "gpu1-mat" ->
  dispatch_to "auto" nodename environ w =
    match Fs.lookup slurm_conf_path (fs w) with
    | Some (Fs.Dir _) =>
        (Raise (IsADirectoryError "[Errno 21] Is a directory"), w)
    | Some (Fs.File data) =>
        if Str.utf8 data then dispatch_to "auto" nodename environ w
        else (Raise (UnicodeDecodeError "utf-8"), w)
    | None => dispatch_to "auto" nodename environ w
    end.
Proof.
  intros Hn. apply String.eqb_neq in Hn.
  destruct (Fs.lookup slurm_conf_path (fs w)) as [[data | es] |] eqn:E;
    try reflexivity.
  - destruct (Str.utf8 data) eqn:Hu; [reflexivity |].
    unfold dispatch_to, bind, ret, os_path_exists, open_readlines.
    change (String.eqb "auto" "auto") with true. cbv iota.
    now rewrite Hn, E, Hu.
  - unfold dispatch_to, bind, ret, os_path_exists, open_readlines.
    change (String.eqb "auto" "auto") with true. cbv iota.
    now rewrite Hn, E.
Qed.

End BackendFacts.

Section BackendClaims.

(** C1, the claim as stated fails: with the override set to [vsc4], on a
    host that is not the GPU server, the call raises instead of choosing
    [vsc4] when a directory stands at the path of the scheduler
    configuration, and when the configuration holds bytes that do not
    decode: the configuration is read before the override is looked
    at. *)
Lemma dispatch_to_override_counterexample :
  dispatch_to "auto" "login1" {[ "HPC_SYSTEM" := "vsc4" ]} example_conf_dir
    = (Raise (IsADirectoryError "[Errno 21] Is a directory"),
       example_conf_dir) /\
  dispatch_to "auto" "login1" {[ "HPC_SYSTEM" := "vsc4" ]} example_conf_latin1
    = (Raise (UnicodeDecodeError "utf-8"), example_conf_latin1) /\
  dispatch_to "auto" "login1" {[ "HPC_SYSTEM" := "vsc4" ]} example_conf_dir
    <> (Ok "vsc4", example_conf_dir).
Proof.
  assert (H1 : dispatch_to "auto" "login1" {[ "HPC_SYSTEM" := "vsc4" ]}
                 example_conf_dir
               = (Raise (IsADirectoryError "[Errno 21] Is a directory"),
                  example_conf_dir))
    by (now rewrite dispatch_to_raises by discriminate).
  repeat apply conj.
  - exact H1.
  - now rewrite dispatch_to_raises by discriminate.
  - rewrite H1. discriminate.
Qed.

(** C1, amended.  For the backend [auto]: when the variable [HPC_SYSTEM]
    is set, to an ASCII text (the text on which [lower] is modelled), and
    the probe of the scheduler configuration
    is not run or returns (the host is the GPU server, or nothing stands
    at the path of the configuration, or a regular file whose bytes
    decode), the choice is the value of the variable in lower case,
    whatever the host name is and whatever the configuration holds.  When
    the variable is not set, the choice is [local_background] on the GPU
    server; otherwise [dgx] when the configuration is a file that decodes
    and holds the cluster domain; otherwise [local] when it is absent or
    decodes and does not hold the domain.  On a host other than the GPU
    server, a directory at the path of the configuration and a
    configuration that does not decode make the call raise, with or
    without the override.  In particular the override [vsc4] is chosen on
    the GPU server with the marker present, and the override [VSC3] gives
    [vsc3]. *)
Theorem dispatch_to_precedence
    (nodename : string) (environ : gmap string string) (w : world) :
  (forall v,
     environ !! "HPC_SYSTEM" = Some v ->
     Str.isascii v = true ->
     probe_returns nodename w = true ->
     dispatch_to "auto" nodename environ w = (Ok (Str.lower v), w)) /\
  (environ !! "HPC_SYSTEM" = None ->
   nodename = "gpu1-mat" ->
   dispatch_to "auto" nodename environ w = (Ok "local_background", w)) /\
  (forall data,
     environ !! "HPC_SYSTEM" = None ->
     nodename <> "gpu1-mat" ->
     Fs.lookup slurm_conf_path (fs w) = Some (Fs.File data) ->
     Str.utf8 data = true ->
     Str.infix "slurm.vda.univie.ac.at" data ->
     dispatch_to "auto" nodename environ w = (Ok "dgx", w)) /\
  (environ !! "HPC_SYSTEM" = None ->
   nodename <> "gpu1-mat" ->
   Fs.lookup slurm_conf_path (fs w) = None \/
   (exists data,
      Fs.lookup slurm_conf_path (fs w) = Some (Fs.File data) /\
      Str.utf8 data = true /\
      ~ Str.infix "slurm.vda.univie.ac.at" data) ->
   dispatch_to "auto" nodename environ w = (Ok "local", w)) /\
  (forall es,
     nodename <> "gpu1-mat" ->
     Fs.lookup slurm_conf_path (fs w) = Some (Fs.Dir es) ->
     dispatch_to "auto" nodename environ w =
       (Raise (IsADirectoryError "[Errno 21] Is a directory"), w)) /\
  (forall data,
     nodename <> "gpu1-mat" ->
     Fs.lookup slurm_conf_path (fs w) = Some (Fs.File data) ->
     Str.utf8 data = false ->
     dispatch_to "auto" nodename environ w =
       (Raise (UnicodeDecodeError "utf-8"), w)) /\
  Str.infix "slurm.vda.univie.ac.at"
    ("ClusterName=dgx" +:+ nl +:+
     "ControlMachine=slurm.vda.univie.ac.at" +:+ nl) /\
  dispatch_to "auto" "gpu1-mat" {[ "HPC_SYSTEM" := "vsc4" ]} example_dgx
    = (Ok "vsc4", example_dgx) /\
  dispatch_to "auto" "login1" {[ "HPC_SYSTEM" := "vsc4" ]} example_dgx
    = (Ok "vsc4", example_dgx) /\
  dispatch_to "auto" "login1" {[ "HPC_SYSTEM" := "VSC3" ]} example_dgx
    = (Ok "vsc3", example_dgx) /\
  dispatch_to "auto" "gpu1-mat" {[ "HPC_SYSTEM" := "vsc4" ]}
    example_conf_latin1 = (Ok "vsc4", example_conf_latin1).
Proof.
  repeat apply conj.
  - intros v Hv _ H. rewrite dispatch_to_auto by exact H. now rewrite Hv.
  - intros Hv ->. rewrite dispatch_to_auto by reflexivity. now rewrite Hv.
  - intros data Hv Hn Hl Hu Hm. apply String.eqb_neq in Hn.
    rewrite dispatch_to_auto
      by (unfold probe_returns; now rewrite Hn, Hl, Hu).
    rewrite Hv. unfold probed. rewrite Hn, Hl.
    apply contains_spec in Hm. now rewrite Hm.
  - intros Hv Hn H. apply String.eqb_neq in Hn.
    rewrite dispatch_to_auto.
    + rewrite Hv. unfold probed. rewrite Hn.
      destruct H as [-> | (data & -> & _ & Hm)]; [reflexivity |].
      apply not_contains_spec in Hm. now rewrite Hm.
    + unfold probe_returns. rewrite Hn.
      now destruct H as [-> | (data & -> & -> & _)].
  - intros es Hn Hl. rewrite dispatch_to_raises by exact Hn. now rewrite Hl.
  - intros data Hn Hl Hu. rewrite dispatch_to_raises by exact Hn.
    now rewrite Hl, Hu.
  - apply contains_spec. vm_compute. reflexivity.
  - vm_compute. reflexivity.
  - vm_compute. reflexivity.
  - vm_compute. reflexivity.
  - vm_compute. reflexivity.
Qed.

Lemma dispatch_to_precedence_witness :
  dispatch_to "auto" "gpu1-mat" {[ "HPC_SYSTEM" := "VSC4" ]} example_dgx
    = (Ok "vsc4", example_dgx) /\
  dispatch_to "auto" "login1" {[ "HPC_SYSTEM" := "Vsc3" ]} example_dgx
    = (Ok "vsc3", example_dgx) /\
  dispatch_to "auto" "gpu1-mat" ∅ example_dgx
    = (Ok "local_background", example_dgx) /\
  dispatch_to "auto" "login1" ∅ example_dgx = (Ok "dgx", example_dgx) /\
  dispatch_to "auto" "login1" ∅ example_runs = (Ok "local", example_runs) /\
  dispatch_to "auto" "login1" ∅ example_conf_dir
    = (Raise (IsADirectoryError "[Errno 21] Is a directory"),
       example_conf_dir) /\
  dispatch_to "auto" "login1" ∅ example_conf_latin1
    = (Raise (UnicodeDecodeError "utf-8"), example_conf_latin1).
Proof.
  repeat apply conj.
  - destruct (dispatch_to_precedence "gpu1-mat"
                {[ "HPC_SYSTEM" := "VSC4" ]} example_dgx) as (H & _).
    apply (H "VSC4"); [apply lookup_singleton_eq | reflexivity | reflexivity].
  - destruct (dispatch_to_precedence "login1"
                {[ "HPC_SYSTEM" := "Vsc3" ]} example_dgx) as (H & _).
    apply (H "Vsc3"); [apply lookup_singleton_eq | reflexivity | reflexivity].
  - destruct (dispatch_to_precedence "gpu1-mat" ∅ example_dgx)
      as (_ & H & _).
    apply H; [apply lookup_empty | reflexivity].
  - destruct (dispatch_to_precedence "login1" ∅ example_dgx)
      as (_ & _ & H & _).
    apply (H ("ClusterName=dgx" +:+ nl +:+
              "ControlMachine=slurm.vda.univie.ac.at" +:+ nl));
      [apply lookup_empty | discriminate | reflexivity | reflexivity |].
    apply contains_spec. vm_compute. reflexivity.
  - destruct (dispatch_to_precedence "login1" ∅ example_runs)
      as (_ & _ & _ & H & _).
    apply H; [apply lookup_empty | discriminate | left; reflexivity].
  - destruct (dispatch_to_precedence "login1" ∅ example_conf_dir)
      as (_ & _ & _ & _ & H & _).
    apply (H []); [discriminate | reflexivity].
  - destruct (dispatch_to_precedence "login1" ∅ example_conf_latin1)
      as (_ & _ & _ & _ & _ & H & _).
    eapply H; [discriminate | reflexivity | reflexivity].
Defined.

End BackendClaims.

(** ** Job names *)

Section JobNameFacts.

Lemma digits_app s t : forall acc,
  Float.digits acc (s +:+ t) =
    match Float.digits acc s with
    | Some a => Float.digits a t
    | None => None
    end.
Proof.
  induction s as [| a s IH]; intros acc; simpl; [reflexivity |].
  destruct (Str.is_digit a); [apply IH | reflexivity].
Qed.

Lemma digits_zeros n : Float.digits 0 (zeros n) = Some 0.
Proof. induction n as [| n IH]; simpl; [reflexivity | exact IH]. Qed.

Lemma zeros_length n : String.length (zeros n) = n.
Proof. induction n as [| n IH]; simpl; [reflexivity | now rewrite IH]. Qed.

Lemma zeros_all n : Str.all Str.is_digit (zeros n) = true.
Proof. induction n as [| n IH]; simpl; [reflexivity | exact IH]. Qed.

Lemma pretty_N_char_digit x :
  (x < 10)%N ->
  Str.is_digit (pretty_N_char x) = true /\
  Z.of_nat (nat_of_ascii (pretty_N_char x)) - 48 = Z.of_N x.
Proof.
  intros H.
  assert (E : (x = 0 \/ x = 1 \/ x = 2 \/ x = 3 \/ x = 4 \/ x = 5 \/ x = 6 \/
               x = 7 \/ x = 8 \/ x = 9)%N) by lia.
  repeat (destruct E as [-> | E]; [split; reflexivity |]).
  subst. split; reflexivity.
Qed.

Lemma pretty_N_go_app x : forall s,
  pretty_N_go x s = pretty_N_go x "" +:+ s.
Proof.
  induction (N.lt_wf_0 x) as [x _ IH]; intros s.
  destruct (N.eq_dec x 0%N) as [-> | Hx]; [reflexivity |].
  assert (Hlt : (x / 10 < x)%N) by (apply N.div_lt; lia).
  rewrite !(pretty_N_go_step x) by lia.
  rewrite (IH _ Hlt (String _ s)), (IH _ Hlt (String _ "")).
  now rewrite str_app_assoc.
Qed.

(** The digits written for [x] read back as [x]. *)
Lemma pretty_N_go_digits x :
  Float.digits 0 (pretty_N_go x "") = Some (Z.of_N x) /\
  Str.all Str.is_digit (pretty_N_go x "") = true.
Proof.
  induction (N.lt_wf_0 x) as [x _ IH].
  destruct (N.eq_dec x 0%N) as [-> | Hx]; [split; reflexivity |].
  rewrite (pretty_N_go_step x) by lia. rewrite pretty_N_go_app.
  destruct (IH (x / 10)%N) as [Hd Ha]; [apply N.div_lt; lia |].
  destruct (pretty_N_char_digit (x mod 10)%N) as [Hc Hv];
    [apply N.mod_lt; lia |].
  split.
  - rewrite digits_app, Hd. simpl. rewrite Hc, Hv. f_equal.
    rewrite (N.div_mod x 10) at 3 by lia. lia.
  - rewrite all_app, Ha. simpl. now rewrite Hc.
Qed.

Lemma pretty_N_go_length (k : nat) : forall x,
  (Z.of_N x < 10 ^ Z.of_nat k) ->
  (String.length (pretty_N_go x "") <= k)%nat.
Proof.
  induction k as [| k IH]; intros x Hx.
  - assert (x = 0%N) by (simpl in Hx; lia). subst. simpl. lia.
  - destruct (N.eq_dec x 0%N) as [-> | Hx0]; [simpl; lia |].
    rewrite (pretty_N_go_step x) by lia. rewrite pretty_N_go_app.
    rewrite str_app_length. simpl.
    assert (String.length (pretty_N_go (x / 10) "") <= k)%nat; [| lia].
    apply IH. rewrite N2Z.inj_div. change (Z.of_N 10) with 10.
    apply Z.div_lt_upper_bound; [lia |].
    rewrite Nat2Z.inj_succ, Z.pow_succ_r in Hx by lia. lia.
Qed.

Lemma pretty_N_go_nonempty x :
  (0 < x)%N -> pretty_N_go x "" <> "".
Proof.
  intros Hx. rewrite (pretty_N_go_step x) by exact Hx.
  rewrite pretty_N_go_app. destruct (pretty_N_go (x / 10) ""); discriminate.
Qed.

(** The decimal text of an integer that is not negative. *)
Lemma str_of_int_digits n :
  0 <= n ->
  Float.digits 0 (str_of_int n) = Some n /\
  Str.all Str.is_digit (str_of_int n) = true /\
  str_of_int n <> "" /\
  forall k : nat, n < 10 ^ Z.of_nat k -> (0 < k)%nat ->
    (String.length (str_of_int n) <= k)%nat.
Proof.
  intros Hn. unfold str_of_int. destruct n as [| p | p]; [| | lia].
  - repeat split; try reflexivity; try discriminate.
    intros k _ Hk. simpl. lia.
  - change (pretty (Z.pos p)) with (pretty_N_go (N.pos p) "").
    destruct (pretty_N_go_digits (N.pos p)) as [Hd Ha].
    repeat split; try assumption.
    + now apply pretty_N_go_nonempty.
    + intros k Hk _. now apply pretty_N_go_length.
Qed.

Lemma int_of_string_digits s n :
  s <> "" -> Str.all Str.is_digit s = true ->
  Float.digits 0 s = Some n -> int_of_string s = Ok n.
Proof.
  intros Hne Hall Hd. destruct s as [| a s]; [congruence |].
  simpl in Hall. apply andb_true_iff in Hall as [Ha _].
  unfold int_of_string.
  assert (E : match String a s with
              | String "-" s' => (true, s')
              | String "+" s' => (false, s')
              | _ => (false, String a s)
              end = (false, String a s)).
  { destruct a as [[] [] [] [] [] [] [] []]; try discriminate Ha;
      reflexivity. }
  rewrite E. now rewrite Hd.
Qed.

Lemma zfill_digits w s n :
  Float.digits 0 s = Some n -> Float.digits 0 (zfill w s) = Some n.
Proof. intros H. unfold zfill. now rewrite digits_app, digits_zeros. Qed.

Lemma zfill_all w s :
  Str.all Str.is_digit s = true -> Str.all Str.is_digit (zfill w s) = true.
Proof. intros H. unfold zfill. now rewrite all_app, zeros_all. Qed.

Lemma zfill_length w s :
  String.length (zfill w s) = Nat.max w (String.length s).
Proof. unfold zfill. rewrite str_app_length, zeros_length. lia. Qed.

Lemma zfill_nonempty w s : s <> "" -> zfill w s <> "".
Proof.
  intros H E. apply (f_equal String.length) in E.
  rewrite zfill_length in E. destruct s; [congruence | simpl in E; lia].
Qed.

Lemma int_of_job_name idx : int_of_string (idx_to_job_name idx) = Ok idx.
Proof.
  unfold idx_to_job_name. destruct (Z.ltb_spec idx 0) as [Hn | Hn].
  - destruct (str_of_int_digits (- idx)) as (Hd & Ha & Hne & _); [lia |].
    unfold int_of_string.
    change ("-" +:+ zfill 3 (str_of_int (- idx)))
      with (String "-" (zfill 3 (str_of_int (- idx)))).
    cbv iota beta.
    pose proof (zfill_nonempty 3 _ Hne) as Hz.
    rewrite (zfill_digits 3 _ _ Hd).
    destruct (zfill 3 (str_of_int (- idx))); [congruence |].
    f_equal. lia.
  - destruct (str_of_int_digits idx Hn) as (Hd & Ha & Hne & _).
    apply int_of_string_digits.
    + now apply zfill_nonempty.
    + now apply zfill_all.
    + now apply zfill_digits.
Qed.

(** A string of digits read after [acc]: [acc] shifted by the length, plus
    the value of the string, which is below the power of ten of the
    length. *)
Lemma digits_acc s :
  Str.all Str.is_digit s = true ->
  exists v,
    0 <= v < 10 ^ Z.of_nat (String.length s) /\
    forall acc,
      Float.digits acc s = Some (acc * 10 ^ Z.of_nat (String.length s) + v).
Proof.
  induction s as [| a s IH]; intros H.
  - exists 0. split; [simpl; lia |]. intros acc. simpl. f_equal. lia.
  - simpl in H. apply andb_true_iff in H as [Ha Hs].
    destruct (IH Hs) as (v & Hv & Hacc).
    set (d := Z.of_nat (nat_of_ascii a) - 48).
    assert (Hd : 0 <= d <= 9).
    { unfold Str.is_digit in Ha. apply andb_true_iff in Ha as [H1 H2].
      apply Nat.leb_le in H1, H2. unfold d. lia. }
    exists (d * 10 ^ Z.of_nat (String.length s) + v).
    cbn [String.length]. rewrite Nat2Z.inj_succ, Z.pow_succ_r by lia.
    split; [nia |]. intros acc. simpl. rewrite Ha, Hacc. fold d. f_equal. lia.
Qed.

(** On strings of digits of one length the order of the strings is the
    order of their values. *)
Lemma compare_digits s : forall t a b,
  String.length s = String.length t ->
  Str.all Str.is_digit s = true -> Str.all Str.is_digit t = true ->
  Float.digits 0 s = Some a -> Float.digits 0 t = Some b ->
  String.compare s t = Z.compare a b.
Proof.
  induction s as [| c s IH]; intros t a b Hlen Hs Ht Ha Hb.
  - destruct t; [| discriminate]. simpl in *.
    injection Ha as <-. injection Hb as <-. reflexivity.
  - destruct t as [| c' t]; [discriminate |].
    injection Hlen as Hlen. cbn [Str.all] in Hs, Ht.
    apply andb_true_iff in Hs as [Hc Hs]. apply andb_true_iff in Ht as [Hc' Ht].
    destruct (digits_acc s Hs) as (vs & Hvs & Hsacc).
    destruct (digits_acc t Ht) as (vt & Hvt & Htacc).
    simpl in Ha, Hb. rewrite Hc, Hsacc in Ha. rewrite Hc', Htacc in Hb.
    injection Ha as <-. injection Hb as <-.
    rewrite <- Hlen in *. set (p := 10 ^ Z.of_nat (String.length s)) in *.
    assert (E : Ascii.compare c c' =
                Z.compare (Z.of_nat (nat_of_ascii c)) (Z.of_nat (nat_of_ascii c'))).
    { unfold Ascii.compare, nat_of_ascii. now rewrite !N_nat_Z, N2Z.inj_compare. }
    cbn [String.compare]. rewrite E.
    assert (Hrec : String.compare s t = Z.compare vs vt).
    { apply IH; try assumption.
      - specialize (Hsacc 0). now rewrite Z.mul_0_l, Z.add_0_l in Hsacc.
      - specialize (Htacc 0). now rewrite Z.mul_0_l, Z.add_0_l in Htacc. }
    rewrite Hrec.
    destruct (Z.compare_spec (Z.of_nat (nat_of_ascii c))
                (Z.of_nat (nat_of_ascii c'))) as [Heq | Hlt | Hgt].
    + rewrite Heq. destruct (Z.compare_spec vs vt); symmetry;
        [apply Z.compare_eq_iff | apply Z.compare_lt_iff
        | apply Z.compare_gt_iff]; nia.
    + symmetry. apply Z.compare_lt_iff. nia.
    + symmetry. apply Z.compare_gt_iff. nia.
Qed.

End JobNameFacts.

Section JobNameProperties.

(** X1. Reading the name of a job back as an integer gives the index it
    was made from, for every index, negative ones included; so different
    indices never share a name. *)
Theorem idx_to_job_name_round_trip :
  (forall idx, int_of_string (idx_to_job_name idx) = Ok idx) /\
  (forall i j, idx_to_job_name i = idx_to_job_name j -> i = j).
Proof.
  split; [exact int_of_job_name |].
  intros i j E.
  assert (E' : Ok i = Ok j) by (rewrite <- !int_of_job_name; now rewrite E).
  now injection E'.
Qed.

Lemma idx_to_job_name_round_trip_witness :
  idx_to_job_name 3 <> idx_to_job_name 12.
Proof.
  intros E. apply (proj2 idx_to_job_name_round_trip) in E. discriminate E.
Defined.

(** X2. A name has four characters or more; for an index from 0 to 9999
    it has exactly four, all of them digits, and the order of the names as
    strings is the order of the indices, so that a sorted listing of the
    job directories is in the order of the jobs. *)
Theorem idx_to_job_name_order :
  (forall idx, (4 <= String.length (idx_to_job_name idx))%nat) /\
  (forall idx, 0 <= idx < 10000 ->
     String.length (idx_to_job_name idx) = 4%nat /\
     Str.all Str.is_digit (idx_to_job_name idx) = true) /\
  (forall i j, 0 <= i < 10000 -> 0 <= j < 10000 ->
     String.compare (idx_to_job_name i) (idx_to_job_name j) = Z.compare i j).
Proof.
  assert (H4 : forall idx, 0 <= idx < 10000 ->
            String.length (idx_to_job_name idx) = 4%nat /\
            Str.all Str.is_digit (idx_to_job_name idx) = true /\
            Float.digits 0 (idx_to_job_name idx) = Some idx).
  { intros idx [H0 H1]. unfold idx_to_job_name.
    destruct (Z.ltb_spec idx 0) as [Hn | _]; [lia |].
    destruct (str_of_int_digits idx H0) as (Hd & Ha & _ & Hlen).
    rewrite zfill_length. specialize (Hlen 4%nat H1).
    repeat split; [lia | now apply zfill_all | now apply zfill_digits]. }
  repeat apply conj.
  - intros idx. unfold idx_to_job_name. destruct (idx <? 0).
    + change ("-" +:+ ?s) with (String "-" s). cbn [String.length].
      rewrite zfill_length. lia.
    + rewrite zfill_length. lia.
  - intros idx H. destruct (H4 idx H) as (? & ? & _). now split.
  - intros i j Hi Hj.
    destruct (H4 i Hi) as (Li & Ai & Di). destruct (H4 j Hj) as (Lj & Aj & Dj).
    apply compare_digits; congruence.
Qed.

Lemma idx_to_job_name_order_witness :
  String.length (idx_to_job_name 7) = 4%nat /\
  String.compare (idx_to_job_name 9) (idx_to_job_name 10) = Lt.
Proof.
  destruct idx_to_job_name_order as (_ & H1 & H2). split.
  - apply (H1 7). lia.
  - apply (H2 9 10); lia.
Defined.

End JobNameProperties.

(** ** Experiment names *)

Section ExperimentNameFacts.

Lemma str_remove_app c s t :
  str_remove c (s +:+ t) = str_remove c s +:+ str_remove c t.
Proof.
  induction s as [| a s IH]; simpl; [reflexivity |].
  destruct (Ascii.eqb a c); simpl; now rewrite IH.
Qed.

Lemma str_split_nonempty c s : str_split c s <> [].
Proof.
  destruct s as [| a s]; simpl; [discriminate |].
  destruct (Ascii.eqb a c); [discriminate |].
  destruct (str_split c s); discriminate.
Qed.

(** Splitting distributes over the separator. *)
Lemma str_split_app c s t :
  str_split c (s +:+ String c t) = str_split c s ++ str_split c t.
Proof.
  induction s as [| a s IH]; simpl.
  - now rewrite Ascii.eqb_refl.
  - destruct (Ascii.eqb a c); [now rewrite IH |].
    rewrite IH. pose proof (str_split_nonempty c s) as Hne.
    destruct (str_split c s); [congruence | reflexivity].
Qed.

Lemma str_split_length c s :
  length (str_split c s) = S (str_count c s).
Proof.
  induction s as [| a s IH]; simpl; [reflexivity |].
  destruct (Ascii.eqb a c); simpl; [now rewrite IH |].
  pose proof (str_split_nonempty c s) as Hne.
  destruct (str_split c s); [congruence | exact IH].
Qed.

Lemma str_split_all (P : ascii -> bool) c s :
  Str.all P s = true ->
  Forall (fun x => Str.all P x = true) (str_split c s).
Proof.
  induction s as [| a s IH]; simpl; intros H.
  - now constructor.
  - apply andb_true_iff in H as [Ha Hs]. specialize (IH Hs).
    destruct (Ascii.eqb a c); [now constructor |].
    destruct (str_split c s) as [| x l]; [now repeat constructor; simpl; rewrite Ha |].
    inversion IH; subst. constructor; [simpl; now rewrite Ha | assumption].
Qed.

Lemma str_split_no_sep c s :
  Forall (fun x => Str.all (fun a => negb (Ascii.eqb a c)) x = true)
    (str_split c s).
Proof.
  induction s as [| a s IH]; simpl.
  - now constructor.
  - destruct (Ascii.eqb a c) eqn:E; [now constructor |].
    destruct (str_split c s) as [| x l];
      [repeat constructor; simpl; now rewrite E |].
    inversion IH; subst. constructor; [simpl; now rewrite E | assumption].
Qed.

Lemma str_remove_gone c s :
  Str.all (fun a => negb (Ascii.eqb a c)) (str_remove c s) = true.
Proof.
  induction s as [| a s IH]; simpl; [reflexivity |].
  destruct (Ascii.eqb a c) eqn:E; [exact IH |]. simpl. now rewrite E.
Qed.

Lemma str_remove_count c c' s :
  c <> c' -> str_count c' (str_remove c s) = str_count c' s.
Proof.
  intros Hne. induction s as [| a s IH]; simpl; [reflexivity |].
  destruct (Ascii.eqb_spec a c) as [-> | Ha]; simpl.
  - destruct (Ascii.eqb_spec c c'); [contradiction | exact IH].
  - now rewrite IH.
Qed.

Lemma take_all (P : ascii -> bool) s : forall n,
  Str.all P s = true -> Str.all P (Str.take n s) = true.
Proof.
  induction s as [| a s IH]; intros n H; simpl; [reflexivity |].
  simpl in H. apply andb_true_iff in H as [Ha Hs].
  destruct (Str.is_continuation a); [simpl; now rewrite Ha, IH |].
  destruct n; [reflexivity | simpl; now rewrite Ha, IH].
Qed.

(** A slice of [n] characters has at most [n] characters, whatever the
    number of its bytes. *)
Lemma take_len s : forall n, (Str.len (Str.take n s) <= n)%nat.
Proof.
  induction s as [| a s IH]; intros n; simpl; [lia |].
  destruct (Str.is_continuation a) eqn:E.
  - simpl. rewrite E. apply IH.
  - destruct n; [simpl; lia |]. simpl. rewrite E. specialize (IH n). lia.
Qed.

Lemma len_app s t : Str.len (s +:+ t) = (Str.len s + Str.len t)%nat.
Proof. induction s as [| a s IH]; simpl; [reflexivity | rewrite IH; lia]. Qed.

(** In ASCII text a character is a byte. *)
Lemma len_ascii s : Str.isascii s = true -> Str.len s = String.length s.
Proof.
  unfold Str.isascii. induction s as [| a s IH]; simpl; [reflexivity |].
  intros H. apply andb_true_iff in H as [Ha Hs]. rewrite (IH Hs).
  replace (Str.is_continuation a) with false; [reflexivity |].
  unfold Str.is_continuation, Str.between in *.
  apply andb_true_iff in Ha as [_ Ha]. apply Nat.leb_le in Ha.
  symmetry. apply andb_false_iff. left. apply Nat.leb_gt. lia.
Qed.

Lemma str_remove_all (P : ascii -> bool) c s :
  Str.all P s = true -> Str.all P (str_remove c s) = true.
Proof.
  induction s as [| a s IH]; simpl; [reflexivity |].
  intros H. apply andb_true_iff in H as [Ha Hs].
  destruct (Ascii.eqb a c); [now apply IH |]. simpl. now rewrite Ha, IH.
Qed.

Lemma join_empty_app l1 l2 :
  Str.join "" (l1 ++ l2) = Str.join "" l1 +:+ Str.join "" l2.
Proof.
  induction l1 as [| x l1 IH]; [reflexivity |].
  change ((x :: l1) ++ l2) with (x :: (l1 ++ l2)).
  now rewrite !join_empty_cons, IH, str_app_assoc.
Qed.

Lemma join_empty_all (P : ascii -> bool) l :
  Forall (fun x => Str.all P x = true) l -> Str.all P (Str.join "" l) = true.
Proof.
  induction 1 as [| x l Hx Hl IH]; [reflexivity |].
  now rewrite join_empty_cons, all_app, Hx, IH.
Qed.

Lemma join_empty_len l k :
  Forall (fun x => (Str.len x <= k)%nat) l ->
  (Str.len (Str.join "" l) <= k * length l)%nat.
Proof.
  induction 1 as [| x l Hx Hl IH]; [simpl; lia |].
  rewrite join_empty_cons, len_app. simpl length. lia.
Qed.

Lemma all_and (P Q : ascii -> bool) s :
  Str.all P s = true -> Str.all Q s = true ->
  Str.all (fun a => P a && Q a) s = true.
Proof.
  induction s as [| a s IH]; simpl; [reflexivity |].
  intros HP HQ. apply andb_true_iff in HP as [Pa Ps].
  apply andb_true_iff in HQ as [Qa Qs]. now rewrite Pa, Qa, IH.
Qed.

Lemma build_experiment_name_loop_spec sh ps : forall acc,
  build_experiment_name_loop sh ps acc =
    acc ++ map (name_item sh) (List.filter named ps).
Proof.
  induction ps as [| [n v] ps IH]; intros acc; simpl.
  - now rewrite app_nil_r.
  - unfold named at 1. simpl fst.
    destruct (String.eqb n "experiment_name" || String.eqb n "reuse.path");
      simpl; rewrite IH; [reflexivity |].
    now rewrite <- app_assoc.
Qed.

(** Joining returns exactly when every item is a string. *)
Lemma join_values_from_strs l : forall i,
  forallb is_str l = true ->
  join_values_from i l = inr (map format_value l).
Proof.
  induction l as [| [s | n] l IH]; intros i H; simpl in *;
    [reflexivity | | discriminate].
  now rewrite IH.
Qed.

Lemma join_values_from_int l : forall i,
  forallb is_str l = false -> exists e, join_values_from i l = inl e.
Proof.
  induction l as [| [s | n] l IH]; intros i H; simpl in *;
    [discriminate | | eauto].
  destruct (IH (S i) H) as [e ->]. eauto.
Qed.

End ExperimentNameFacts.

Section ExperimentNameProperties.

(** X3. The shorthand of a dotted name is the shorthands of its parts put
    together: the point is dropped and each part contributes on its own. *)
Theorem shorten_parameter_name_app (a b : string) :
  shorten_parameter_name (a +:+ "." +:+ b) =
    shorten_parameter_name a +:+ shorten_parameter_name b.
Proof.
  unfold shorten_parameter_name. rewrite !str_remove_app.
  change (str_remove "_" ".") with ".". change ("." +:+ ?s) with (String "." s).
  now rewrite str_split_app, map_app, join_empty_app.
Qed.

(** X4. The shorthand of a name holds no point and no underscore, and has
    at most two characters for each part of the name between points: a
    character of several bytes counts once, so that the number of bytes is
    bounded in the same way for ASCII names only.  The two-byte letters
    of the name that follows are kept whole. *)
Theorem shorten_parameter_name_shape (name : string) :
  Str.all (fun a => negb (Ascii.eqb a ".") && negb (Ascii.eqb a "_"))
    (shorten_parameter_name name) = true /\
  (Str.len (shorten_parameter_name name)
   <= 2 * S (str_count "." name))%nat /\
  (Str.isascii name = true ->
   (String.length (shorten_parameter_name name)
    <= 2 * S (str_count "." name))%nat) /\
  shorten_parameter_name
    (String "195" (String "169" (String "195" (String "169" "t_e.beta"))))
  = String "195" (String "169" (String "195" (String "169" "be"))).
Proof.
  assert (Hlen : (Str.len (shorten_parameter_name name)
                  <= 2 * S (str_count "." name))%nat).
  { unfold shorten_parameter_name.
    rewrite <- (str_remove_count "_" "." name) by discriminate.
    rewrite <- str_split_length.
    rewrite <- (length_map (Str.take 2)).
    apply join_empty_len, Forall_map, List.Forall_forall.
    intros x _. apply take_len. }
  repeat apply conj.
  - unfold shorten_parameter_name. apply join_empty_all, Forall_map.
    pose proof (str_split_no_sep "." (str_remove "_" name)) as H1.
    pose proof (str_split_all _ "." _ (str_remove_gone "_" name)) as H2.
    rewrite List.Forall_forall in *. intros x Hx.
    apply all_and; apply take_all; auto.
  - exact Hlen.
  - intros Ha. rewrite <- len_ascii; [exact Hlen |].
    unfold shorten_parameter_name, Str.isascii.
    apply join_empty_all, Forall_map.
    pose proof (str_split_all _ "." _ (str_remove_all _ "_" name Ha)) as H.
    rewrite List.Forall_forall in *. intros x Hx.
    apply take_all; auto.
  - reflexivity.
Qed.

Lemma shorten_parameter_name_shape_witness :
  (String.length (shorten_parameter_name "optimization.learning_rate")
   <= 2 * S (str_count "." "optimization.learning_rate"))%nat.
Proof.
  apply (shorten_parameter_name_shape "optimization.learning_rate").
  reflexivity.
Defined.

(** X5. The parameters named [experiment_name] and [reuse.path] take no
    part in the name: the name is the same with or without them, wherever
    they stand in the list and whatever their values. *)
Theorem build_experiment_name_skips
    (ps1 ps2 : list (string * value)) (n : string) (v : value)
    (include_param_shorthand : bool) (basename : string) :
  n = "experiment_name" \/ n = "reuse.path" ->
  build_experiment_name (ps1 ++ (n, v) :: ps2) include_param_shorthand basename
  = build_experiment_name (ps1 ++ ps2) include_param_shorthand basename.
Proof.
  intros Hn. unfold build_experiment_name.
  rewrite !build_experiment_name_loop_spec, !List.filter_app.
  assert (E : named (n, v) = false) by (destruct Hn as [-> | ->]; reflexivity).
  cbn [List.filter]. now rewrite E.
Qed.

Lemma build_experiment_name_skips_witness :
  build_experiment_name
    ([("optimization.learning_rate", VStr "0.1")] ++
     ("reuse.path", VInt 3) :: [("model.n_layers", VInt 4)]) true "exp"
  = build_experiment_name
      ([("optimization.learning_rate", VStr "0.1")] ++
       [("model.n_layers", VInt 4)]) true "exp".
Proof.
  apply build_experiment_name_skips. right. reflexivity.
Defined.


(** X7. Without the shorthand the values are joined as they are: the name
    is built when every parameter that takes part has a string for value,
    and the call fails with a type error as soon as one of them has an
    integer. *)
Theorem build_experiment_name_values
    (ps : list (string * value)) (basename : string) :
  (forallb (fun p => is_str (snd p)) (List.filter named ps) = true ->
   build_experiment_name ps false basename =
     inr (Str.join "_"
            ((if (0 <? String.length basename)%nat then [basename] else []) ++
             map (fun p => format_value (snd p)) (List.filter named ps)))) /\
  (forallb (fun p => is_str (snd p)) (List.filter named ps) = false ->
   exists e, build_experiment_name ps false basename = inl e).
Proof.
  unfold build_experiment_name, join_values.
  rewrite build_experiment_name_loop_spec.
  assert (E : forallb is_str
                ((if (0 <? String.length basename)%nat
                  then [VStr basename] else []) ++
                 map (name_item false) (List.filter named ps)) =
              forallb (fun p => is_str (snd p)) (List.filter named ps)).
  { rewrite forallb_app.
    replace (forallb is_str (if (0 <? String.length basename)%nat
                             then [VStr basename] else [])) with true
      by now destruct (0 <? String.length basename)%nat.
    simpl. induction (List.filter named ps) as [| p l IH]; [reflexivity |].
    simpl. now rewrite IH. }
  split; intros H; rewrite <- E in H.
  - rewrite join_values_from_strs by exact H. f_equal. f_equal.
    rewrite map_app, map_map. now destruct (0 <? String.length basename)%nat.
  - destruct (join_values_from_int _ 0%nat H) as [e ->]. eauto.
Qed.

Lemma build_experiment_name_values_witness :
  build_experiment_name [("model.name", VStr "dpe"); ("reuse.path", VInt 1)]
    false "exp" = inr "exp_dpe" /\
  exists e,
    build_experiment_name [("model.n_layers", VInt 4)] false "exp" = inl e.
Proof.
  split.
  - apply (proj1 (build_experiment_name_values
                    [("model.name", VStr "dpe"); ("reuse.path", VInt 1)] "exp")).
    reflexivity.
  - apply (proj2 (build_experiment_name_values
                    [("model.n_layers", VInt 4)] "exp")).
    reflexivity.
Defined.

End ExperimentNameProperties.

(** ** Looking up the handler *)

Section HandlerLookupFacts.

Lemma globals_handler_name h :
  globals ("dispatch_to_" +:+ handler_name h) = Ok h.
Proof. destruct h; reflexivity. Qed.

Lemma globals_Ok d h :
  globals ("dispatch_to_" +:+ d) = Ok h -> d = handler_name h.
Proof.
  unfold globals. intros H.
  repeat match type of H with
         | (if String.eqb ?a ?b then _ else _) = _ =>
             destruct (String.eqb_spec a b) as [E | _];
             [injection H as <-;
              now apply (String.app_inj "dispatch_to_") in E |]
         end.
  discriminate.
Qed.

Lemma globals_KeyError d :
  (forall h, d <> handler_name h) ->
  globals ("dispatch_to_" +:+ d) = Raise (KeyError ("dispatch_to_" +:+ d)).
Proof.
  intros H. destruct (globals ("dispatch_to_" +:+ d)) as [h | e] eqn:E.
  - apply globals_Ok in E. now destruct (H h).
  - revert E. unfold globals.
    repeat match goal with
           | |- (if ?b then _ else _) = _ -> _ => destruct b; [discriminate |]
           end.
    now intros [= <-].
Qed.

End HandlerLookupFacts.

Section HandlerLookupProperties.

(** X8. For a backend other than [auto] the probes and the override are
    not looked at: the handler of that very name is returned when the
    module has one, the name being compared as it is written, and the call
    fails with a key error naming [dispatch_to_] and the backend when it
    has none.  The world is left as it is. *)
Theorem dispatch_job_named
    (system nodename : string) (environ : gmap string string) (w : world) :
  system <> "auto" ->
  (forall h, system = handler_name h ->
     dispatch_job system nodename environ w = (Ok h, w)) /\
  ((forall h, system <> handler_name h) ->
   dispatch_job system nodename environ w =
     (Raise (KeyError ("dispatch_to_" +:+ system)), w)).
Proof.
  intros Hs. apply String.eqb_neq in Hs.
  assert (E : dispatch_job system nodename environ w =
              (globals ("dispatch_to_" +:+ system), w)).
  { unfold dispatch_job, dispatch_to, bind, ret. now rewrite Hs. }
  split.
  - intros h ->. rewrite E. now rewrite globals_handler_name.
  - intros H. rewrite E. now rewrite globals_KeyError.
Qed.

Lemma dispatch_job_named_witness :
  dispatch_job "vsc3" "gpu1-mat" {[ "HPC_SYSTEM" := "vsc4" ]} example_dgx
    = (Ok dispatch_to_vsc3, example_dgx) /\
  dispatch_job "VSC3" "gpu1-mat" ∅ example_dgx
    = (Raise (KeyError "dispatch_to_VSC3"), example_dgx).
Proof.
  split.
  - apply (proj1 (dispatch_job_named "vsc3" "gpu1-mat"
                    {[ "HPC_SYSTEM" := "vsc4" ]} example_dgx
                    ltac:(discriminate)) dispatch_to_vsc3).
    reflexivity.
  - apply (proj2 (dispatch_job_named "VSC3" "gpu1-mat" ∅ example_dgx
                    ltac:(discriminate))).
    intros h; destruct h; discriminate.
Defined.

(** X9. For the backend [auto] without an override, when the probe of the
    scheduler configuration is not run or returns (the host is the GPU
    server, or nothing stands at the path of the configuration, or a
    regular file whose bytes decode), a handler is always found: it is the
    handler of [local], of [local_background] or of [dgx].  When the
    probe raises (a directory at that path, or bytes that do not decode,
    on another host), no handler is looked up: the call raises what the
    probe raised. *)
Theorem dispatch_job_auto_found
    (nodename : string) (environ : gmap string string) (w : world) :
  (environ !! "HPC_SYSTEM" = None ->
   probe_returns nodename w = true ->
   exists h,
     dispatch_job "auto" nodename environ w = (Ok h, w) /\
     (h = dispatch_to_local \/ h = dispatch_to_local_background \/
      h = dispatch_to_dgx)) /\
  (probe_returns nodename w = false ->
   exists e,
     dispatch_job "auto" nodename environ w = (Raise e, w) /\
     (e = IsADirectoryError "[Errno 21] Is a directory" \/
      e = UnicodeDecodeError "utf-8")).
Proof.
  split.
  - intros Hv Hp. unfold dispatch_job, bind.
    rewrite (dispatch_to_auto nodename environ w Hp), Hv. unfold probed.
    destruct (String.eqb nodename "gpu1-mat"); [eauto 6 |].
    destruct (Fs.lookup slurm_conf_path (fs w)) as [[data | es] |]; eauto 6.
    destruct (Str.contains "slurm.vda.univie.ac.at" data); eauto 6.
  - unfold probe_returns. intros Hp.
    apply orb_false_iff in Hp as [Hn Hp]. apply String.eqb_neq in Hn.
    unfold dispatch_job, bind. rewrite (dispatch_to_raises _ _ _ Hn).
    destruct (Fs.lookup slurm_conf_path (fs w)) as [[data | es] |];
      [rewrite Hp | | discriminate]; eauto.
Qed.

Lemma dispatch_job_auto_found_witness :
  (exists h,
     dispatch_job "auto" "login1" ∅ example_dgx = (Ok h, example_dgx) /\
     (h = dispatch_to_local \/ h = dispatch_to_local_background \/
      h = dispatch_to_dgx)) /\
  (exists e,
     dispatch_job "auto" "login1" ∅ example_conf_latin1
       = (Raise e, example_conf_latin1) /\
     (e = IsADirectoryError "[Errno 21] Is a directory" \/
      e = UnicodeDecodeError "utf-8")).
Proof.
  split.
  - apply dispatch_job_auto_found; [apply lookup_empty | reflexivity].
  - apply dispatch_job_auto_found. reflexivity.
Defined.

(** X10. For the backend [auto] with the override set to an ASCII text
    (the text on which [lower] is modelled), when the probe of the scheduler configuration is not run or returns,
    the handler named by the override in lower case is returned when the
    module has one; when it has none the call fails with a key error: it
    does not fall back on what the probes selected. *)
Theorem dispatch_job_override
    (nodename v : string) (environ : gmap string string) (w : world) :
  environ !! "HPC_SYSTEM" = Some v ->
  Str.isascii v = true ->
  probe_returns nodename w = true ->
  (forall h, Str.lower v = handler_name h ->
     dispatch_job "auto" nodename environ w = (Ok h, w)) /\
  ((forall h, Str.lower v <> handler_name h) ->
   dispatch_job "auto" nodename environ w =
     (Raise (KeyError ("dispatch_to_" +:+ Str.lower v)), w)).
Proof.
  intros Hv _ Hp.
  assert (E : dispatch_job "auto" nodename environ w =
              (globals ("dispatch_to_" +:+ Str.lower v), w)).
  { unfold dispatch_job, bind.
    now rewrite (dispatch_to_auto nodename environ w Hp), Hv. }
  split.
  - intros h Hh. rewrite E, Hh. now rewrite globals_handler_name.
  - intros H. rewrite E. now rewrite globals_KeyError.
Qed.

Lemma dispatch_job_override_witness :
  dispatch_job "auto" "gpu1-mat" {[ "HPC_SYSTEM" := "VSC3" ]} example_dgx
    = (Ok dispatch_to_vsc3, example_dgx) /\
  dispatch_job "auto" "login1" {[ "HPC_SYSTEM" := "vsc5" ]} example_dgx
    = (Raise (KeyError "dispatch_to_vsc5"), example_dgx).
Proof.
  split.
  - apply (proj1 (dispatch_job_override "gpu1-mat" "VSC3"
                    {[ "HPC_SYSTEM" := "VSC3" ]} example_dgx
                    (lookup_singleton_eq _ _) eq_refl eq_refl)
                 dispatch_to_vsc3).
    reflexivity.
  - apply (proj2 (dispatch_job_override "login1" "vsc5"
                    {[ "HPC_SYSTEM" := "vsc5" ]} example_dgx
                    (lookup_singleton_eq _ _) eq_refl eq_refl)).
    intros h; destruct h; discriminate.
Defined.

End HandlerLookupProperties.

(** ** The handlers *)

Section HandlerFacts.

Lemma assoc_set_entry_ne c c' n es :
  c' <> c -> Fs.assoc c' (Fs.set_entry c n es) = Fs.assoc c' es.
Proof.
  intros Hne. induction es as [| [c0 n0] es IH]; simpl.
  - destruct (String.eqb_spec c' c); [contradiction | reflexivity].
  - destruct (String.eqb_spec c c0) as [-> | Hc]; simpl.
    + destruct (String.eqb_spec c' c0); [contradiction | reflexivity].
    + now rewrite IH.
Qed.

Lemma assoc_del_entry_ne c c' es :
  c' <> c -> Fs.assoc c' (Fs.del_entry c es) = Fs.assoc c' es.
Proof.
  intros Hne. induction es as [| [c0 n0] es IH]; simpl; [reflexivity |].
  destruct (String.eqb_spec c c0) as [-> | Hc]; simpl.
  - rewrite IH. destruct (String.eqb_spec c' c0); [contradiction | reflexivity].
  - now rewrite IH.
Qed.

Lemma assoc_upd_entry_ne c c' v es :
  c' <> c -> Fs.assoc c' (Fs.upd_entry c v es) = Fs.assoc c' es.
Proof.
  destruct v; [apply assoc_set_entry_ne | apply assoc_del_entry_ne].
Qed.

(** Setting a path changes nothing at the paths that are neither above it
    nor under it. *)
Lemma put_frame p v : forall n n' q,
  Fs.put p v n = Ok n' ->
  (forall r, p <> q ++ r) -> (forall r, q <> p ++ r) ->
  Fs.lookup q n' = Fs.lookup q n.
Proof.
  induction p as [| c p IH]; intros n n' q Hput Hqp Hpq.
  - destruct (Hpq q). reflexivity.
  - destruct n as [d | es]; [discriminate |].
    destruct q as [| c' q]; [destruct (Hqp (c :: p)); reflexivity |].
    destruct p as [| c2 p].
    + injection Hput as <-. simpl.
      destruct (String.eqb_spec c' c) as [-> | Hne].
      * destruct (Hpq q). reflexivity.
      * now rewrite assoc_upd_entry_ne.
    + rewrite put_cons in Hput by discriminate.
      destruct (Fs.assoc c es) as [n1 |] eqn:E; [| discriminate].
      destruct (Fs.put (c2 :: p) v n1) as [n1' |] eqn:E1; [| discriminate].
      injection Hput as <-. simpl.
      destruct (String.eqb_spec c' c) as [-> | Hne].
      * rewrite assoc_set_entry, E. apply (IH n1 n1' q E1).
        -- intros r Hr. apply (Hqp r). simpl. now rewrite Hr.
        -- intros r Hr. apply (Hpq r). simpl. now rewrite Hr.
      * now rewrite assoc_set_entry_ne.
Qed.



Lemma write_file_ok dir c data w es :
  Fs.lookup dir (fs w) = Some (Fs.Dir es) ->
  (forall es', Fs.lookup (dir ++ [c]) (fs w) <> Some (Fs.Dir es')) ->
  exists w',
    write_file (dir ++ [c]) data w = (Ok tt, w') /\
    Fs.lookup (dir ++ [c]) (fs w') = Some (Fs.File data) /\
    Fs.put (dir ++ [c]) (Some (Fs.File data)) (fs w) = Ok (fs w') /\
    warnings w' = warnings w.
Proof.
  intros Hd Hf. unfold write_file.
  destruct (put_ok dir c (Some (Fs.File data)) (fs w) es Hd)
    as (n' & es' & Hput & Hl & _).
  rewrite Hput.
  destruct (Fs.lookup (dir ++ [c]) (fs w)) as [[d | es0] |];
    try (exists (set_fs w n'); auto).
  now destruct (Hf es0).
Qed.


End HandlerFacts.

Section HandlerWriteFacts.

Lemma put_lookup p v : forall n n',
  Fs.put p v n = Ok n' -> Fs.lookup p n' = v.
Proof.
  induction p as [| c p IH]; intros n n' H.
  - destruct n; discriminate.
  - destruct n as [d | es]; [discriminate |]. destruct p as [| c2 p].
    + injection H as <-. simpl. rewrite assoc_upd_entry. now destruct v.
    + rewrite put_cons in H by discriminate.
      destruct (Fs.assoc c es) as [n1 |] eqn:E; [| discriminate].
      destruct (Fs.put (c2 :: p) v n1) as [n1' |] eqn:E1; [| discriminate].
      injection H as <-.
      change (Fs.lookup (c :: c2 :: p) (Fs.Dir (Fs.set_entry c n1' es)))
        with (match Fs.assoc c (Fs.set_entry c n1' es) with
              | Some n0 => Fs.lookup (c2 :: p) n0
              | None => None
              end).
      rewrite assoc_set_entry. exact (IH n1 n1' E1).
Qed.



Lemma write_file_frame p data w w' q :
  write_file p data w = (Ok tt, w') ->
  (forall r, p <> q ++ r) -> (forall r, q <> p ++ r) ->
  Fs.lookup q (fs w') = Fs.lookup q (fs w).
Proof.
  unfold write_file. intros H Hqp Hpq.
  assert (Hput : Fs.put p (Some (Fs.File data)) (fs w) = Ok (fs w')).
  { destruct (Fs.lookup p (fs w)) as [[d | es] |]; try discriminate;
      destruct (Fs.put p (Some (Fs.File data)) (fs w)); try discriminate;
      now injection H as <-. }
  exact (put_frame _ _ _ _ q Hput Hqp Hpq).
Qed.

(** Nothing is set under a path that is not a directory. *)
Lemma put_fails c v dir : forall n,
  (forall es, Fs.lookup dir n <> Some (Fs.Dir es)) ->
  exists e, Fs.put (dir ++ [c]) v n = Raise e.
Proof.
  induction dir as [| a dir IH]; intros n H.
  - destruct n as [d | es]; [eauto | now destruct (H es)].
  - destruct n as [d | es]; [destruct dir; simpl; eauto |].
    change ((a :: dir) ++ [c]) with (a :: (dir ++ [c])).
    rewrite put_cons by (now destruct dir). simpl in H.
    destruct (Fs.assoc a es) as [n1 |]; [| eauto].
    destruct (IH n1 H) as [e ->]. simpl. eauto.
Qed.

(** A file cannot be opened for writing in a path that is not a
    directory, nor in the place of a directory: [open] raises and nothing
    is changed. *)
Lemma write_file_fails dir c data w :
  os_path_isdir dir w = false \/ os_path_isdir (os_path_join dir c) w = true ->
  exists e, write_file (os_path_join dir c) data w = (Raise e, w).
Proof.
  unfold os_path_isdir, os_path_join, write_file. intros [H | H].
  - assert (Hd : forall es, Fs.lookup dir (fs w) <> Some (Fs.Dir es))
      by (intros es E; now rewrite E in H).
    destruct (put_fails c (Some (Fs.File data)) dir (fs w) Hd) as [e He].
    rewrite He, lookup_app.
    destruct (Fs.lookup dir (fs w)) as [[d | es] |];
      [| now destruct (Hd es) |]; simpl; eauto.
  - destruct (Fs.lookup (dir ++ [c]) (fs w)) as [[d | es] |];
      try discriminate. eauto.
Qed.


Lemma join_blank a b rest :
  Str.join " " (a :: b :: rest) = Str.join " " ((a +:+ " " +:+ b) :: rest).
Proof.
  destruct rest as [| c rest]; [reflexivity |].
  rewrite !(join_cons " " _ (_ :: _)) by discriminate.
  now rewrite !str_app_assoc.
Qed.

End HandlerWriteFacts.

Section HandlerProperties.

(** X11. A dispatch that fails before it starts its process writes
    nothing.  An error of the duration parser is raised as it is by the
    handlers of both HPC variants, before the working directory is looked
    at.  When the time is valid and the job file cannot be opened for
    writing, the working directory not being a directory or a directory
    standing in the place of the file, the handlers raise the error of
    [open], the world is the world of the call and no process is
    started; likewise for the detached local run and its output file.
    (What happens when the process itself cannot be started, after the
    file is written, is outside the model.) *)
Theorem dispatch_failure_writes_nothing
    (command : list string) (run_dir : Fs.path)
    (config : Config.configuration) (w : world) :
  (forall e,
     duration_string_to_minutes (Config.time (Config.dispatch config))
       = Raise e ->
     Handlers.dispatch_to_vsc3 command run_dir config w = (Raise e, w) /\
     Handlers.dispatch_to_vsc4 command run_dir config w = (Raise e, w)) /\
  (forall m,
     duration_string_to_minutes (Config.time (Config.dispatch config))
       = Ok m ->
     os_path_isdir run_dir w = false \/
     os_path_isdir (os_path_join run_dir "job.sh") w = true ->
     exists e3 e4,
       Handlers.dispatch_to_vsc3 command run_dir config w = (Raise e3, w) /\
       Handlers.dispatch_to_vsc4 command run_dir config w = (Raise e4, w)) /\
  (os_path_isdir run_dir w = false \/
   os_path_isdir (os_path_join run_dir "GPU.out") w = true ->
   exists e,
     Handlers.dispatch_to_local_background command run_dir config w
       = (Raise e, w)).
Proof.
  repeat apply conj.
  - intros e He. unfold Handlers.dispatch_to_vsc3, Handlers.dispatch_to_vsc4,
      bind, lift. now rewrite He.
  - intros m Hm H.
    unfold Handlers.dispatch_to_vsc3, Handlers.dispatch_to_vsc4, bind, lift.
    rewrite Hm.
    match goal with
    | |- exists e3 e4, (let (_, _) := write_file _ ?d3 w in _) = _ /\
                       (let (_, _) := write_file _ ?d4 w in _) = _ =>
        destruct (write_file_fails run_dir "job.sh" d3 w H) as [e3 ->];
        destruct (write_file_fails run_dir "job.sh" d4 w H) as [e4 ->]
    end.
    now exists e3, e4.
  - intros H. unfold Handlers.dispatch_to_local_background, bind.
    destruct (write_file_fails run_dir "GPU.out" "" w H) as [e ->].
    now exists e.
Qed.

Lemma dispatch_failure_writes_nothing_witness :
  Handlers.dispatch_to_vsc4 ["python"; "run.py"] ["missing"]
    {| Config.experiment_name := "exp";
       Config.dispatch := {| Config.system := "vsc4";
                             Config.time := "5 fortnights";
                             Config.queue := "default";
                             Config.conda_env := "jax" |} |} example_runs
  = (Raise (ValueError "Invalid unit of time: fortnights"), example_runs) /\
  (exists e3 e4,
     Handlers.dispatch_to_vsc3 ["python"; "run.py"] ["missing"] example_config
       example_runs = (Raise e3, example_runs) /\
     Handlers.dispatch_to_vsc4 ["python"; "run.py"] ["missing"] example_config
       example_runs = (Raise e4, example_runs)) /\
  (exists e,
     Handlers.dispatch_to_local_background ["python"; "run.py"]
       ["root"; "runA"; "results.bz2"] example_config example_runs
     = (Raise e, example_runs)).
Proof.
  repeat apply conj.
  - apply (proj1 (dispatch_failure_writes_nothing _ _ _ _)).
    vm_compute. reflexivity.
  - apply (proj1 (proj2 (dispatch_failure_writes_nothing ["python"; "run.py"]
                           ["missing"] example_config example_runs)) 120).
    + vm_compute. reflexivity.
    + left. reflexivity.
  - apply (proj2 (proj2 (dispatch_failure_writes_nothing ["python"; "run.py"]
                           ["root"; "runA"; "results.bz2"] example_config
                           example_runs))).
    left. reflexivity.
Defined.

(** X12. On a working directory that exists, with a valid time and no
    directory in the place of [job.sh], the handler of the second HPC
    variant leaves in [job.sh] the script for the command joined by
    blanks, the queue [mem_0096] standing for [default], and returns the
    submission [sbatch job.sh] in the working directory; an older
    [job.sh] is replaced, and every path that is neither [job.sh] nor
    above or under it is as it was. *)
Theorem dispatch_to_vsc4_writes
    (command : list string) (run_dir : Fs.path)
    (config : Config.configuration) (w : world)
    (es : list (string * Fs.node)) (m : Z) :
  duration_string_to_minutes (Config.time (Config.dispatch config)) = Ok m ->
  Fs.lookup run_dir (fs w) = Some (Fs.Dir es) ->
  (forall es', Fs.lookup (os_path_join run_dir "job.sh") (fs w)
               <> Some (Fs.Dir es')) ->
  exists w',
    Handlers.dispatch_to_vsc4 command run_dir config w
      = (Ok (Run ["sbatch"; "job.sh"] run_dir), w') /\
    Fs.lookup (os_path_join run_dir "job.sh") (fs w') =
      Some (Fs.File
        (get_jobfile_content_vsc4 (Str.join " " command)
           (Config.experiment_name config)
           (if String.eqb (Config.queue (Config.dispatch config)) "default"
            then "mem_0096" else Config.queue (Config.dispatch config))
           m)) /\
    warnings w' = warnings w /\
    forall q,
      (forall r, os_path_join run_dir "job.sh" <> q ++ r) ->
      (forall r, q <> os_path_join run_dir "job.sh" ++ r) ->
      Fs.lookup q (fs w') = Fs.lookup q (fs w).
Proof.
  intros Hm Hd Hf. unfold Handlers.dispatch_to_vsc4.
  unfold bind, lift, ret. rewrite Hm. cbv zeta.
  match goal with
  | |- context [write_file _ ?data w] =>
      destruct (write_file_ok run_dir "job.sh" data w es Hd Hf)
        as (w' & Hw & Hl & _ & Hwarn)
  end.
  exists w'. unfold os_path_join in *. rewrite Hw.
  repeat apply conj; try assumption; try reflexivity.
  intros q Hq1 Hq2. exact (write_file_frame _ _ _ _ q Hw Hq1 Hq2).
Qed.

Lemma dispatch_to_vsc4_writes_witness :
  exists w',
    Handlers.dispatch_to_vsc4 ["python"; "run.py"] ["root"; "runA"]
      example_config example_runs
      = (Ok (Run ["sbatch"; "job.sh"] ["root"; "runA"]), w') /\
    Fs.lookup ["root"; "runA"; "job.sh"] (fs w') =
      Some (Fs.File (get_jobfile_content_vsc4 "python run.py" "exp"
                       "mem_0096" 120)) /\
    Fs.lookup ["root"; "runB"] (fs w')
      = Fs.lookup ["root"; "runB"] (fs example_runs).
Proof.
  destruct (dispatch_to_vsc4_writes ["python"; "run.py"] ["root"; "runA"]
              example_config example_runs
              [("full_config.yml", Fs.File ""); ("results.bz2", Fs.File "")]
              120)
    as (w' & H1 & H2 & _ & H3).
  - vm_compute. reflexivity.
  - reflexivity.
  - intros es' H. vm_compute in H. discriminate H.
  - exists w'. repeat apply conj; [exact H1 | exact H2 |].
    apply H3; intros r H; [destruct r; discriminate H | discriminate H].
Defined.

(** X13. Under the same conditions the handler of the first HPC variant
    leaves its own script in [job.sh], the queue [gpu_rtx2080ti] standing
    for [default]; with the default queue the script always holds the
    node-count directive and names that partition. *)
Theorem dispatch_to_vsc3_writes
    (command : list string) (run_dir : Fs.path)
    (config : Config.configuration) (w : world)
    (es : list (string * Fs.node)) (m : Z) :
  duration_string_to_minutes (Config.time (Config.dispatch config)) = Ok m ->
  Fs.lookup run_dir (fs w) = Some (Fs.Dir es) ->
  (forall es', Fs.lookup (os_path_join run_dir "job.sh") (fs w)
               <> Some (Fs.Dir es')) ->
  exists w' script,
    Handlers.dispatch_to_vsc3 command run_dir config w
      = (Ok (Run ["sbatch"; "job.sh"] run_dir), w') /\
    Fs.lookup (os_path_join run_dir "job.sh") (fs w')
      = Some (Fs.File script) /\
    script =
      get_jobfile_content_vsc3 (Str.join " " command)
        (Config.experiment_name config)
        (if String.eqb (Config.queue (Config.dispatch config)) "default"
         then "gpu_rtx2080ti" else Config.queue (Config.dispatch config))
        m (Config.conda_env (Config.dispatch config)) /\
    (Config.queue (Config.dispatch config) = "default" ->
     has_line "#SBATCH -N 1" script /\
     has_line "#SBATCH --partition gpu_rtx2080ti" script).
Proof.
  intros Hm Hd Hf. unfold Handlers.dispatch_to_vsc3.
  unfold bind, lift, ret. rewrite Hm. cbv zeta.
  match goal with
  | |- context [write_file _ ?data w] =>
      destruct (write_file_ok run_dir "job.sh" data w es Hd Hf)
        as (w' & Hw & Hl & _ & Hwarn)
  end.
  exists w'. eexists. unfold os_path_join in *. rewrite Hw.
  split; [reflexivity |]. split; [exact Hl |]. split; [reflexivity |].
  intros ->. change (String.eqb "default" "default") with true. cbv iota.
  unfold get_jobfile_content_vsc3.
  change (negb (String.eqb "gpu_rtx2080ti" "gpu_a40dual")) with true.
  cbv iota. split.
  - apply (has_line_join ["#!/bin/bash"; _]); discriminate.
  - apply (has_line_join ["#!/bin/bash"; _; _]); discriminate.
Qed.

Lemma dispatch_to_vsc3_writes_witness :
  exists w' script,
    Handlers.dispatch_to_vsc3 ["python"; "run.py"] ["root"; "runA"]
      example_config example_runs
      = (Ok (Run ["sbatch"; "job.sh"] ["root"; "runA"]), w') /\
    Fs.lookup ["root"; "runA"; "job.sh"] (fs w') = Some (Fs.File script) /\
    has_line "#SBATCH -N 1" script.
Proof.
  destruct (dispatch_to_vsc3_writes ["python"; "run.py"] ["root"; "runA"]
              example_config example_runs
              [("full_config.yml", Fs.File ""); ("results.bz2", Fs.File "")]
              120)
    as (w' & script & H1 & H2 & _ & H3).
  - vm_compute. reflexivity.
  - reflexivity.
  - intros es' H. vm_compute in H. discriminate H.
  - exists w', script. repeat apply conj; [exact H1 | exact H2 |].
    apply H3. reflexivity.
Defined.



(** X15. The detached local run starts with an empty output file: on a
    working directory that exists, with no directory in the place of
    [GPU.out], the handler leaves [GPU.out] empty, whatever it held, and
    returns the process to start with its output sent there; every path
    that is neither [GPU.out] nor above or under it is as it was. *)
Theorem dispatch_to_local_background_truncates
    (command : list string) (run_dir : Fs.path)
    (config : Config.configuration) (w : world)
    (es : list (string * Fs.node)) :
  Fs.lookup run_dir (fs w) = Some (Fs.Dir es) ->
  (forall es', Fs.lookup (os_path_join run_dir "GPU.out") (fs w)
               <> Some (Fs.Dir es')) ->
  exists w',
    Handlers.dispatch_to_local_background command run_dir config w
      = (Ok (Popen command run_dir (os_path_join run_dir "GPU.out")), w') /\
    Fs.lookup (os_path_join run_dir "GPU.out") (fs w') = Some (Fs.File "") /\
    warnings w' = warnings w /\
    forall q,
      (forall r, os_path_join run_dir "GPU.out" <> q ++ r) ->
      (forall r, q <> os_path_join run_dir "GPU.out" ++ r) ->
      Fs.lookup q (fs w') = Fs.lookup q (fs w).
Proof.
  intros Hd Hf. unfold Handlers.dispatch_to_local_background.
  destruct (write_file_ok run_dir "GPU.out" "" w es Hd Hf)
    as (w' & Hw & Hl & _ & Hwarn).
  exists w'. unfold bind, ret. unfold os_path_join in *. rewrite Hw.
  repeat apply conj; try assumption; try reflexivity.
  intros q Hq1 Hq2. exact (write_file_frame _ _ _ _ q Hw Hq1 Hq2).
Qed.

Lemma dispatch_to_local_background_truncates_witness :
  exists w',
    Handlers.dispatch_to_local_background ["python"; "run.py"]
      ["root"; "runA"] example_config example_runs
      = (Ok (Popen ["python"; "run.py"] ["root"; "runA"]
               ["root"; "runA"; "GPU.out"]), w') /\
    Fs.lookup ["root"; "runA"; "GPU.out"] (fs w') = Some (Fs.File "").
Proof.
  destruct (dispatch_to_local_background_truncates ["python"; "run.py"]
              ["root"; "runA"] example_config example_runs
              [("full_config.yml", Fs.File ""); ("results.bz2", Fs.File "")])
    as (w' & H1 & H2 & _).
  - reflexivity.
  - intros es' H. vm_compute in H. discriminate H.
  - exists w'. split; [exact H1 | exact H2].
Defined.

(** X16. The HPC handlers join the tokens of the command by blanks and
    quote nothing: a command with a token that holds a blank is
    dispatched exactly as the command with that token cut in two. *)
Theorem dispatch_joins_tokens
    (a b : string) (rest : list string) (run_dir : Fs.path)
    (config : Config.configuration) (w : world) :
  Handlers.dispatch_to_vsc3 ((a +:+ " " +:+ b) :: rest) run_dir config w
    = Handlers.dispatch_to_vsc3 (a :: b :: rest) run_dir config w /\
  Handlers.dispatch_to_vsc4 ((a +:+ " " +:+ b) :: rest) run_dir config w
    = Handlers.dispatch_to_vsc4 (a :: b :: rest) run_dir config w.
Proof.
  unfold Handlers.dispatch_to_vsc3, Handlers.dispatch_to_vsc4.
  now rewrite !(join_blank a b rest).
Qed.

End HandlerProperties.

(** ** Directories, once more *)

Section DirectoryFacts.

Lemma os_mkdir_inv p w r w' :
  os_mkdir p w = (r, w') ->
  warnings w' = warnings w /\
  (r = Ok tt -> Fs.lookup p (fs w') = Some (Fs.Dir [])).
Proof.
  unfold os_mkdir. destruct (Fs.lookup p (fs w)); [intros [= <- <-]; now split |].
  destruct (Fs.put p (Some (Fs.Dir [])) (fs w)) as [n |] eqn:E;
    intros [= <- <-]; split; try reflexivity; try discriminate.
  intros _. exact (put_lookup _ _ _ _ E).
Qed.

Lemma makedirs_rev_inv rname : forall w r w',
  makedirs_rev rname w = (r, w') ->
  warnings w' = warnings w /\
  (r = Ok tt -> Fs.lookup (reverse rname) (fs w') = Some (Fs.Dir [])).
Proof.
  induction rname as [| c rhead IH]; intros w r w' H.
  - exact (os_mkdir_inv [] w r w' H).
  - simpl in H. destruct (negb (os_path_exists (reverse rhead) w)).
    + destruct (makedirs_rev rhead w) as [r1 w1] eqn:E1.
      destruct (IH w r1 w1 E1) as [Hw1 _].
      destruct r1 as [[] | e].
      * destruct (os_mkdir_inv _ _ _ _ H) as [Hw Hl]. split; [congruence | exact Hl].
      * destruct e; try (injection H as <- <-; split; [exact Hw1 | discriminate]).
        destruct (os_mkdir_inv _ _ _ _ H) as [Hw Hl].
        split; [congruence | exact Hl].
    + exact (os_mkdir_inv _ _ _ _ H).
Qed.

Lemma os_makedirs_inv p w r w' :
  os_makedirs p w = (r, w') ->
  warnings w' = warnings w /\
  (r = Ok tt -> Fs.lookup p (fs w') = Some (Fs.Dir [])).
Proof.
  unfold os_makedirs. intros H. apply makedirs_rev_inv in H.
  now rewrite reverse_involutive in H.
Qed.

Lemma shutil_rmtree_warnings p w r w' :
  shutil_rmtree p w = (r, w') -> warnings w' = warnings w.
Proof.
  unfold shutil_rmtree.
  destruct (Fs.lookup p (fs w)) as [[d | es] |]; try (now intros [= <- <-]).
  destruct (Fs.put p None (fs w)); now intros [= <- <-].
Qed.

Lemma find_runs_rec_no_dir root incl w :
  (forall es, Fs.lookup (target root) (fs w) <> Some (Fs.Dir es)) ->
  find_runs_rec root incl w = [].
Proof.
  intros H. unfold find_runs_rec, os_walk.
  destruct (Fs.lookup (target root) (fs w)) as [[d | es] |]; try reflexivity.
  now destruct (H es).
Qed.

Lemma setup_experiment_dir_inv p p' force w w' :
  setup_experiment_dir p force w = (Ok p', w') ->
  p' = p /\
  Fs.lookup p (fs w') = Some (Fs.Dir []) /\
  warnings w' = warnings w.
Proof.
  unfold setup_experiment_dir, bind. intros H.
  match type of H with
  | context [let (_, _) := ?f in _] =>
      destruct f as [[[] | e] w1] eqn:E1; [| discriminate]
  end.
  assert (Hw1 : warnings w1 = warnings w).
  { revert E1. destruct (os_path_isdir p w); [destruct force |].
    - apply shutil_rmtree_warnings.
    - discriminate.
    - now intros [= <-]. }
  destruct (os_makedirs p w1) as [[[] | e] w2] eqn:E2; [| discriminate].
  injection H as <- <-.
  destruct (os_makedirs_inv _ _ _ _ E2) as [Hw Hl].
  repeat apply conj; [reflexivity | now apply Hl | congruence].
Qed.

End DirectoryFacts.

Section DirectoryProperties.

(** X17. Whenever [setup_experiment_dir] returns, with or without
    [force] and whether the path existed or not, it returns the path it
    was given, an empty directory stands at that path and no warning is
    logged; the experiment then holds no run, however its path is
    written, and a job directory of any name that is one component of a
    path (the names for which [os_path_join] is modelled) is created in
    it, empty and without a warning. *)
Theorem setup_experiment_dir_returns
    (p p' : Fs.path) (force include_checkpoints sep : bool) (name : string)
    (w w1 : world) :
  setup_experiment_dir p force w = (Ok p', w1) ->
  Fs.component name = true ->
  p' = p /\
  Fs.lookup p (fs w1) = Some (Fs.Dir []) /\
  warnings w1 = warnings w /\
  find_runs_rec (Pathname p sep) include_checkpoints w1 = [] /\
  exists w2,
    setup_job_dir p name w1 = (Ok (os_path_join p name), w2) /\
    Fs.lookup (os_path_join p name) (fs w2) = Some (Fs.Dir []) /\
    warnings w2 = warnings w1.
Proof.
  intros H _. destruct (setup_experiment_dir_inv p p' force w w1 H)
    as (Hp & Hl & Hw).
  repeat apply conj; try assumption.
  - unfold find_runs_rec, os_walk. cbn [target]. rewrite Hl. simpl.
    unfold contains_run, os_path_exists, os_path_join.
    rewrite lookup_app, Hl. reflexivity.
  - assert (Hn : Fs.lookup (p ++ [name]) (fs w1) = None)
      by now rewrite lookup_app, Hl.
    destruct (os_mkdir_ok p name w1 [] Hl Hn) as (w2 & Hmk & Hl2 & Hw2).
    exists w2. unfold setup_job_dir, bind, ret, os_path_join.
    unfold os_path_exists at 1. rewrite Hn.
    rewrite os_makedirs_snoc by (unfold os_path_exists; now rewrite Hl).
    rewrite Hmk. auto.
Qed.

Lemma setup_experiment_dir_returns_witness :
  Fs.lookup ["root"; "new"; "exp"]
    (fs (snd (setup_experiment_dir ["root"; "new"; "exp"] false example_runs)))
  = Some (Fs.Dir []) /\
  find_runs_rec (Pathname ["root"; "runA"] true) true
    (snd (setup_experiment_dir ["root"; "runA"] true example_runs)) = [].
Proof.
  split.
  - apply (setup_experiment_dir_returns ["root"; "new"; "exp"]
             ["root"; "new"; "exp"] false true false "0000" example_runs).
    + vm_compute. reflexivity.
    + reflexivity.
  - apply (setup_experiment_dir_returns ["root"; "runA"] ["root"; "runA"]
             true true true "0000" example_runs).
    + vm_compute. reflexivity.
    + reflexivity.
Defined.

(** X18. Including the checkpoints only adds to what is found: the runs
    of the default call are runs of the call that includes checkpoints,
    in the same order; and for a root that is not a directory both calls
    return nothing rather than fail. *)
Theorem find_runs_rec_checkpoints (root : pathname) (w : world) :
  find_runs_rec root false w `sublist_of` find_runs_rec root true w /\
  ((forall es, Fs.lookup (target root) (fs w) <> Some (Fs.Dir es)) ->
   find_runs_rec root true w = []).
Proof.
  split; [| apply find_runs_rec_no_dir].
  unfold find_runs_rec. rewrite !find_runs_loop_spec. simpl.
  induction (map (fun p => fst (fst p)) (os_walk root w)) as [| p l IH];
    simpl; [constructor |].
  destruct (contains_run (target p) w); simpl; [| exact IH].
  destruct (is_checkpoint p); simpl.
  - now apply sublist_cons.
  - now apply sublist_skip.
Qed.

Lemma find_runs_rec_checkpoints_witness :
  find_runs_rec (Pathname ["root"; "runA"; "results.bz2"] false) true
    example_runs = [].
Proof.
  apply (find_runs_rec_checkpoints
           (Pathname ["root"; "runA"; "results.bz2"] false) example_runs).
  intros es H. vm_compute in H. discriminate H.
Defined.

End DirectoryProperties.

(** ** The duration parser, once more *)

Section DurationProperties.

Lemma match_at_other a s :
  Str.is_digit a = false -> Ascii.eqb a "." = false ->
  Re.match_at duration_re (String a s) = None.
Proof.
  intros Hd Hp. unfold Re.match_at, duration_re. simpl.
  unfold Re.digit at 1. rewrite Hd.
  unfold Re.dot at 1. rewrite Ascii.eqb_sym, Hp.
  unfold Re.digit at 1. now rewrite Hd.
Qed.

Lemma search_skip pre s :
  Str.all (fun a => negb (Str.is_digit a) && negb (Ascii.eqb a ".")) pre = true ->
  Re.search duration_re (pre +:+ s) = Re.search duration_re s.
Proof.
  induction pre as [| a pre IH]; intros H; [reflexivity |].
  simpl in H. apply andb_true_iff in H as [Ha Hpre].
  apply andb_true_iff in Ha as [Hd Hp].
  apply negb_true_iff in Hd, Hp.
  change (String a pre +:+ s) with (String a (pre +:+ s)).
  cbn [Re.search]. rewrite (match_at_other a _ Hd Hp). now apply IH.
Qed.

(** X19. Text before the numeral is skipped: a duration that the parser
    accepts or rejects for its unit is parsed in the same way behind any
    text that holds no digit and no point. *)
Theorem duration_string_to_minutes_skips (pre s : string) :
  Str.all (fun a => negb (Str.is_digit a) && negb (Ascii.eqb a ".")) pre = true ->
  Re.search duration_re s <> None ->
  duration_string_to_minutes (pre +:+ s) = duration_string_to_minutes s.
Proof.
  intros Hpre Hs. unfold duration_string_to_minutes.
  rewrite (search_skip pre s Hpre).
  destruct (Re.search duration_re s); [reflexivity | congruence].
Qed.

Lemma duration_string_to_minutes_skips_witness :
  duration_string_to_minutes ("about " +:+ "2h")
    = duration_string_to_minutes "2h".
Proof.
  apply duration_string_to_minutes_skips; [reflexivity | discriminate].
Defined.

End DurationProperties.

(** ** The GPU cluster *)

Section DgxProperties.

(** X20. The handler of the GPU cluster leaves the list of the caller as
    it was and works on a copy: on a working directory that exists, with
    a valid time and no directory in the place of [job.sh], the script it
    leaves in [job.sh] ends with the rewritten tokens joined by blanks,
    and its working directory is the run directory as
    [_map_dgx_path] gives it. *)
Theorem dispatch_to_dgx_writes
    (exists_str : string -> bool) (module_dir run_dir : Fs.path)
    (command : loc) (l : list string) (config : Config.configuration)
    (h : heap) (w : world) (es : list (string * Fs.node)) (m : Z) :
  h !! command = Some l ->
  duration_string_to_minutes (Config.time (Config.dispatch config)) = Ok m ->
  Fs.lookup run_dir (fs w) = Some (Fs.Dir es) ->
  (forall es', Fs.lookup (os_path_join run_dir "job.sh") (fs w)
               <> Some (Fs.Dir es')) ->
  let act := fst (Handlers.dispatch_to_dgx exists_str module_dir command
                    run_dir config h) in
  let h' := snd (Handlers.dispatch_to_dgx exists_str module_dir command
                   run_dir config h) in
  h' !! command = Some l /\
  exists w',
    act w = (Ok (Run ["sbatch"; "job.sh"] run_dir), w') /\
    Fs.lookup (os_path_join run_dir "job.sh") (fs w') =
      Some (Fs.File
        (get_jobfile_content_dgx
           (Str.join " " (nfs_token exists_str <$> l))
           (Config.experiment_name config) (_map_dgx_path run_dir) m
           (Config.conda_env (Config.dispatch config))
           (_map_dgx_path module_dir))).
Proof.
  intros Hl Hm Hd Hf. unfold Handlers.dispatch_to_dgx.
  rewrite (append_nfs_to_fullpaths_eq exists_str command h l Hl).
  cbn [fst snd]. split.
  - rewrite lookup_insert_ne by exact (fresh_loc_ne command h l Hl).
    exact Hl.
  - rewrite lookup_insert_eq. change (default [] (Some ?x)) with x.
    unfold bind, lift, ret. rewrite Hm.
    match goal with
    | |- context [write_file _ ?data w] =>
        destruct (write_file_ok run_dir "job.sh" data w es Hd Hf)
          as (w' & Hw & Hl' & _)
    end.
    exists w'. unfold os_path_join in *. rewrite Hw. split; [reflexivity |].
    exact Hl'.
Qed.

Lemma dispatch_to_dgx_writes_witness :
  snd (Handlers.dispatch_to_dgx (String.eqb "/bin/ls") ["opt"; "deeperwin"]
         3%nat ["root"; "runA"] example_config
         {[ 3%nat := ["/bin/ls"; "run.py"] ]}) !! 3%nat
  = Some ["/bin/ls"; "run.py"].
Proof.
  apply (dispatch_to_dgx_writes (String.eqb "/bin/ls") ["opt"; "deeperwin"]
           ["root"; "runA"] 3%nat ["/bin/ls"; "run.py"] example_config
           {[ 3%nat := ["/bin/ls"; "run.py"] ]} example_runs
           [("full_config.yml", Fs.File ""); ("results.bz2", Fs.File "")] 120).
  - apply lookup_singleton_eq.
  - vm_compute. reflexivity.
  - reflexivity.
  - intros es' H. vm_compute in H. discriminate H.
Defined.

Lemma component_plain c :
  Fs.component c = true ->
  String.eqb c "" = false /\ String.eqb c "." = false /\
  String.eqb c ".." = false.
Proof.
  unfold Fs.component. intros H.
  apply andb_true_iff in H as [H _]. apply andb_true_iff in H as [H H3].
  apply andb_true_iff in H as [H1 H2].
  now apply negb_true_iff in H1, H2, H3.
Qed.

Lemma resolve_from_app p : forall rstack q,
  Fs.resolve_from rstack (p ++ q) =
    Fs.resolve_from (reverse (Fs.resolve_from rstack p)) q.
Proof.
  induction p as [| c p IH]; intros rstack q; simpl.
  - now rewrite reverse_involutive.
  - destruct (String.eqb c "" || String.eqb c "."); [apply IH |].
    destruct (String.eqb c ".."); apply IH.
Qed.

(** A text without empty components, [.] and [..] is resolved already. *)
Lemma resolve_from_components p : forall rstack,
  Forall (fun c => Fs.component c = true) p ->
  Fs.resolve_from rstack p = reverse rstack ++ p.
Proof.
  induction p as [| c p IH]; intros rstack H; simpl.
  - now rewrite app_nil_r.
  - inversion H as [| ? ? Hc Hp]; subst.
    destruct (component_plain c Hc) as (-> & -> & ->). simpl.
    rewrite (IH _ Hp), reverse_cons, <- app_assoc. reflexivity.
Qed.

(** X21. [_map_dgx_path] never gives a text that starts with [/home]: it
    moves under [/nfs] every text whose resolved form has a first
    component that starts with [home], the directory [/home] and its
    neighbours such as [/homework] alike.  The text is resolved first: a
    text of plain components is taken as it is, and a component [..]
    cancels the component before it, so that [/home/../etc] is left at
    [/etc]. *)
Theorem map_dgx_path_home :
  (forall p, Str.startswith "/home" (_map_dgx_path p) = false) /\
  (forall p tail rest,
     Fs.resolve p = ("home" +:+ tail) :: rest ->
     _map_dgx_path p = "/nfs" +:+ Fs.path_str (("home" +:+ tail) :: rest)) /\
  (forall p, Forall (fun c => Fs.component c = true) p -> Fs.resolve p = p) /\
  (forall p c q,
     Fs.component c = true ->
     _map_dgx_path (p ++ [c; ".."] ++ q) = _map_dgx_path (p ++ q)) /\
  _map_dgx_path ["home"; ".."; "etc"] = "/etc" /\
  _map_dgx_path ["home"; "user"; "."; "runs"; ""] = "/nfs/home/user/runs" /\
  _map_dgx_path ["srv"; ".."; "homework"] = "/nfs/homework".
Proof.
  repeat apply conj; try reflexivity.
  - intros p. unfold _map_dgx_path.
    destruct (Str.startswith "/home" (Fs.path_str (Fs.resolve p))) eqn:E;
      [reflexivity | exact E].
  - intros p tail rest Hp. unfold _map_dgx_path. rewrite Hp.
    assert (E : Str.startswith "/home"
                  (Fs.path_str (("home" +:+ tail) :: rest)) = true)
      by (destruct rest; reflexivity).
    now rewrite E.
  - intros p Hp. unfold Fs.resolve. now rewrite resolve_from_components.
  - intros p c q Hc. unfold _map_dgx_path, Fs.resolve.
    rewrite !(resolve_from_app p). cbn [app Fs.resolve_from].
    destruct (component_plain c Hc) as (-> & -> & ->). reflexivity.
Qed.

Lemma map_dgx_path_home_witness :
  _map_dgx_path ["home"; "user"; ".."; "user"; "runs"]
    = "/nfs" +:+ Fs.path_str ["home"; "user"; "runs"] /\
  Fs.resolve ["home"; "user"; "runs"] = ["home"; "user"; "runs"] /\
  _map_dgx_path (["home"] ++ ["user"; ".."] ++ ["etc"])
    = _map_dgx_path (["home"] ++ ["etc"]).
Proof.
  destruct map_dgx_path_home as (_ & H2 & H3 & H4 & _).
  repeat apply conj.
  - apply (H2 _ "" ["user"; "runs"]). reflexivity.
  - apply H3. repeat constructor.
  - apply H4. reflexivity.
Defined.

End DgxProperties.

(** ** Jobs in an experiment *)

Section JobFacts.

Lemma put_under_file p c v d : forall n,
  Fs.lookup p n = Some (Fs.File d) ->
  Fs.put (p ++ [c]) v n = Raise (NotADirectoryError "[Errno 20] Not a directory").
Proof.
  induction p as [| a p IH]; intros n H.
  - simpl in H. injection H as ->. reflexivity.
  - simpl in H. destruct n as [d0 | es]; [discriminate |].
    destruct (Fs.assoc a es) as [n1 |] eqn:E; [| discriminate].
    change ((a :: p) ++ [c]) with (a :: (p ++ [c])).
    rewrite put_cons by (now destruct p). rewrite E, (IH n1 H). reflexivity.
Qed.

Lemma os_mkdir_frame p w w' q :
  os_mkdir p w = (Ok tt, w') ->
  (forall r, p <> q ++ r) -> (forall r, q <> p ++ r) ->
  Fs.lookup q (fs w') = Fs.lookup q (fs w).
Proof.
  unfold os_mkdir. intros H Hqp Hpq.
  destruct (Fs.lookup p (fs w)); [discriminate |].
  destruct (Fs.put p (Some (Fs.Dir [])) (fs w)) as [n |] eqn:E;
    [| discriminate].
  injection H as <-. exact (put_frame _ _ _ _ q E Hqp Hpq).
Qed.

Lemma snoc_apart (p : Fs.path) (a b : string) :
  a <> b -> forall r, p ++ [a] <> (p ++ [b]) ++ r.
Proof.
  intros Hne r E. rewrite <- app_assoc in E. apply app_inv_head in E.
  injection E as E _. contradiction.
Qed.

(** Creating a job directory in a directory in which it does not exist. *)
Lemma setup_job_dir_new p name w es :
  Fs.lookup p (fs w) = Some (Fs.Dir es) ->
  Fs.lookup (p ++ [name]) (fs w) = None ->
  exists w',
    setup_job_dir p name w = (Ok (p ++ [name]), w') /\
    os_mkdir (p ++ [name]) w = (Ok tt, w') /\
    Fs.lookup (p ++ [name]) (fs w') = Some (Fs.Dir []) /\
    warnings w' = warnings w.
Proof.
  intros Hl Hn.
  destruct (os_mkdir_ok p name w es Hl Hn) as (w' & Hmk & Hl' & Hw').
  exists w'. unfold setup_job_dir, bind, ret, os_path_join.
  unfold os_path_exists at 1. rewrite Hn.
  rewrite os_makedirs_snoc by (unfold os_path_exists; now rewrite Hl).
  rewrite Hmk. auto.
Qed.

End JobFacts.

Section JobProperties.

(** X22. When a regular file stands at the path of the job directory,
    [setup_job_dir] logs its warning and returns the path all the same,
    leaving the file; a dispatch into that path then fails, as the path
    is not a directory, and writes nothing. *)
Theorem setup_job_dir_on_file
    (parent_dir : Fs.path) (name d : string) (command : list string)
    (config : Config.configuration) (w : world) (m : Z) :
  Fs.lookup (os_path_join parent_dir name) (fs w) = Some (Fs.File d) ->
  duration_string_to_minutes (Config.time (Config.dispatch config)) = Ok m ->
  exists w1,
    setup_job_dir parent_dir name w = (Ok (os_path_join parent_dir name), w1) /\
    fs w1 = fs w /\
    length (warnings w1) = S (length (warnings w)) /\
    Handlers.dispatch_to_vsc4 command (os_path_join parent_dir name) config w1
      = (Raise (NotADirectoryError "[Errno 20] Not a directory"), w1).
Proof.
  intros Hl Hm. eexists. split.
  - unfold setup_job_dir, bind, ret. unfold os_path_exists at 1.
    rewrite Hl. reflexivity.
  - cbn [fs warnings]. split; [reflexivity |].
    split; [rewrite length_app; simpl; lia |].
    unfold Handlers.dispatch_to_vsc4, bind, lift, ret. rewrite Hm.
    unfold write_file. cbn [fs]. unfold os_path_join at 1 3.
    rewrite lookup_app, Hl. cbn [Fs.lookup].
    now rewrite (put_under_file _ "job.sh" _ d (fs w) Hl).
Qed.

Lemma setup_job_dir_on_file_witness :
  exists w1,
    setup_job_dir ["root"; "runA"] "results.bz2" example_runs
      = (Ok ["root"; "runA"; "results.bz2"], w1) /\
    Handlers.dispatch_to_vsc4 ["python"; "run.py"]
      ["root"; "runA"; "results.bz2"] example_config w1
      = (Raise (NotADirectoryError "[Errno 20] Not a directory"), w1).
Proof.
  destruct (setup_job_dir_on_file ["root"; "runA"] "results.bz2" ""
              ["python"; "run.py"] example_config example_runs 120)
    as (w1 & H1 & _ & _ & H2).
  - reflexivity.
  - vm_compute. reflexivity.
  - exists w1. split; [exact H1 | exact H2].
Defined.

(** X23. The jobs of an experiment do not meet: after
    [setup_experiment_dir] has returned, the job directories named after
    two different indices are both created, empty, without any warning,
    whichever comes first. *)
Theorem setup_job_dirs_apart
    (p p' : Fs.path) (force : bool) (i j : Z) (w w1 : world) :
  setup_experiment_dir p force w = (Ok p', w1) ->
  i <> j ->
  exists w2 w3,
    setup_job_dir p (idx_to_job_name i) w1
      = (Ok (os_path_join p (idx_to_job_name i)), w2) /\
    setup_job_dir p (idx_to_job_name j) w2
      = (Ok (os_path_join p (idx_to_job_name j)), w3) /\
    Fs.lookup (os_path_join p (idx_to_job_name i)) (fs w3) = Some (Fs.Dir []) /\
    Fs.lookup (os_path_join p (idx_to_job_name j)) (fs w3) = Some (Fs.Dir []) /\
    warnings w3 = warnings w1.
Proof.
  intros H Hij. destruct (setup_experiment_dir_inv p p' force w w1 H)
    as (_ & Hl & _).
  set (ni := idx_to_job_name i). set (nj := idx_to_job_name j).
  assert (Hne : ni <> nj).
  { intros E. apply Hij.
    assert (E' : Ok i = Ok j)
      by (rewrite <- !int_of_job_name; fold ni nj; now rewrite E).
    now injection E'. }
  assert (Hni : Fs.lookup (p ++ [ni]) (fs w1) = None)
    by now rewrite lookup_app, Hl.
  assert (Hnj : Fs.lookup (p ++ [nj]) (fs w1) = None)
    by now rewrite lookup_app, Hl.
  destruct (setup_job_dir_new p ni w1 [] Hl Hni) as (w2 & H2 & Hmk2 & Hl2 & Hw2).
  destruct (lookup_snoc_dir p ni _ _ Hl2) as [es2 Hp2].
  assert (Hnj2 : Fs.lookup (p ++ [nj]) (fs w2) = None).
  { rewrite (os_mkdir_frame _ _ _ (p ++ [nj]) Hmk2); [exact Hnj | |].
    - now apply snoc_apart.
    - apply snoc_apart. congruence. }
  destruct (setup_job_dir_new p nj w2 es2 Hp2 Hnj2)
    as (w3 & H3 & Hmk3 & Hl3 & Hw3).
  exists w2, w3. unfold os_path_join. repeat apply conj; try assumption.
  - rewrite (os_mkdir_frame _ _ _ (p ++ [ni]) Hmk3); [exact Hl2 | |].
    + apply snoc_apart. congruence.
    + now apply snoc_apart.
  - congruence.
Qed.

Lemma setup_job_dirs_apart_witness :
  exists w2 w3,
    setup_job_dir ["root"; "exp"] (idx_to_job_name 0)
      (snd (setup_experiment_dir ["root"; "exp"] false example_runs))
      = (Ok (os_path_join ["root"; "exp"] (idx_to_job_name 0)), w2) /\
    setup_job_dir ["root"; "exp"] (idx_to_job_name 1) w2
      = (Ok (os_path_join ["root"; "exp"] (idx_to_job_name 1)), w3) /\
    warnings w3 = [].
Proof.
  destruct (setup_job_dirs_apart ["root"; "exp"] ["root"; "exp"] false 0 1
              example_runs
              (snd (setup_experiment_dir ["root"; "exp"] false example_runs)))
    as (w2 & w3 & H2 & H3 & _ & _ & Hw).
  - vm_compute. reflexivity.
  - discriminate.
  - exists w2, w3. repeat apply conj; [exact H2 | exact H3 |].
    rewrite Hw. reflexivity.
Defined.

End JobProperties.
